(** * insight-forge: the text-to-structured-data pipeline of [src/app/actions.ts]

    A shallow embedding of the server action [analyzeText] and of the
    functions it is built from ([chunkText], [detectContentType],
    [generateSummary], [analyzeTextWithAI], [mergeAnalysisResults],
    [fallbackAnalysis], [calculateConfidence], [extractFields]), followed by
    the properties the specification states about them.

    Conventions of the embedding.
    - A JavaScript string is a Rocq [string]; its characters stand for the
      UTF-16 code units U+0000..U+00FF, so [length] is [.length] and one
      character is one code unit.  On that range [toLowerCase], [trim] and
      the regular-expression class [\s] are exactly the functions below.
    - Indices and lengths are [nat]; a result that can be [-1]
      ([lastIndexOf]) is a [Z].  Where the source computes with them and a
      fraction, they are the doubles [JsNumber.ofLength] and
      [JsNumber.ofIndex], and the arithmetic is that of [PrimFloat].
    - A JSON number is a [JSNumber]: an integer, or one of the two
      non-finite values a division by zero can leave in a document.  The
      integers meant are those of a magnitude of at most [2^53 - 1], which
      are doubles and print as their decimal numerals ([Json.safe]).
    - A JavaScript object is its list of own properties in [Object.keys]
      order; an array is the list of its items, and once the merge has
      written into it as into an object, its slots and named properties.
    - The network, the clock, the JSON parser and the regular expressions
      that only fill in leaves of the fallback document are parameters of
      the pipeline section. *)

From Stdlib Require Import ZArith NArith String Ascii List Lia Bool Arith.
From Stdlib Require Import Floats.PrimFloat Uint63.
From Stdlib Require Floats.SpecFloat Floats.FloatOps Floats.FloatAxioms.
From Stdlib Require Import Numbers.DecimalString.
From Stdlib Require Numbers.DecimalPos Numbers.DecimalZ.
Import ListNotations.

Set Warnings "-inexact-float,-register-all,-abstract-large-number".
Local Open Scope string_scope.
Local Open Scope list_scope.

(* ================================================================== *)
(** ** The JavaScript string primitives the source calls *)

Module JsString.

(** [\s] of a regular expression and the characters [trim] removes:
    TAB, LF, VT, FF, CR, SPACE and NO-BREAK SPACE. *)
Definition is_whitespace (c : ascii) : bool :=
  match c with
  | "009"%char | "010"%char | "011"%char | "012"%char | "013"%char
  | " "%char | "160"%char => true
  | _ => false
  end.

(** [\d] *)
Definition is_digit (c : ascii) : bool :=
  let n := N_of_ascii c in (48 <=? n)%N && (n <=? 57)%N.

Definition toLowerChar (c : ascii) : ascii :=
  let n := N_of_ascii c in
  if ((65 <=? n)%N && (n <=? 90)%N)
     || ((192 <=? n)%N && (n <=? 222)%N && negb (n =? 215)%N)
  then ascii_of_N (n + 32) else c.

(** [s.toLowerCase()] *)
Fixpoint toLowerCase (s : string) : string :=
  match s with
  | "" => ""
  | String c r => String (toLowerChar c) (toLowerCase r)
  end.

Fixpoint trimStart (s : string) : string :=
  match s with
  | "" => ""
  | String c r => if is_whitespace c then trimStart r else s
  end.

Fixpoint trimEnd (s : string) : string :=
  match s with
  | "" => ""
  | String c r =>
      match trimEnd r with
      | "" => if is_whitespace c then "" else String c ""
      | r' => String c r'
      end
  end.

(** [s.trim()] *)
Definition trim (s : string) : string := trimEnd (trimStart s).

(** [s.includes(needle)] *)
Fixpoint includes (s needle : string) : bool :=
  prefix needle s
  || match s with
     | "" => false
     | String _ r => includes r needle
     end.

(** [s.substring(a, b)]: the arguments are swapped when [a > b] and the
    result stops at the end of [s]. *)
Definition substring (a b : nat) (s : string) : string :=
  String.substring (Nat.min a b) (Nat.max a b - Nat.min a b) s.

(** The scan behind [lastIndexOf]: [i] is the index of the first character
    of [rest] in the whole string, [best] the last match seen so far. *)
Fixpoint lastIndexOf_scan (rest needle : string) (i fromIndex : nat) (best : Z) : Z :=
  if (fromIndex <? i)%nat then best
  else
    let best' := if prefix needle rest then Z.of_nat i else best in
    match rest with
    | "" => best'
    | String _ r => lastIndexOf_scan r needle (S i) fromIndex best'
    end.

(** [s.lastIndexOf(needle, fromIndex)]: the greatest index not above
    [fromIndex] at which [needle] starts, [-1] when there is none. *)
Definition lastIndexOf (s needle : string) (fromIndex : nat) : Z :=
  lastIndexOf_scan s needle 0 fromIndex (-1).

(** [s.split(sep)] for a one-character separator. *)
Fixpoint split_char (sep : ascii) (s : string) : list string :=
  match s with
  | "" => [""]
  | String c r =>
      if Ascii.eqb c sep then "" :: split_char sep r
      else match split_char sep r with
           | [] => [String c ""]
           | frag :: frags => String c frag :: frags
           end
  end.

(** [s.split(/[class]+/)]: the fragments between the maximal runs of
    separator characters.  [in_run] says that the previous character was a
    separator: the fragment before the run has been closed already. *)
Fixpoint split_runs_from (sep : ascii -> bool) (in_run : bool) (s : string) : list string :=
  match s with
  | "" => [""]
  | String c r =>
      if sep c then
        if in_run then split_runs_from sep true r
        else "" :: split_runs_from sep true r
      else match split_runs_from sep false r with
           | [] => [String c ""]
           | frag :: frags => String c frag :: frags
           end
  end.

Definition split_runs (sep : ascii -> bool) (s : string) : list string :=
  split_runs_from sep false s.

(** Some character of [s] satisfies [p]. *)
Fixpoint any_char (p : ascii -> bool) (s : string) : bool :=
  match s with
  | "" => false
  | String c r => p c || any_char p r
  end.

(** [n] copies of one character: the inputs of the length scenarios. *)
Fixpoint repeat_char (c : ascii) (n : nat) : string :=
  match n with
  | O => ""
  | S n' => String c (repeat_char c n')
  end.

End JsString.

(* ================================================================== *)
(** ** Lengths and indices as numbers *)

Module JsNumber.

(** The greatest length a string can have, [2^53 - 1]: up to it, every
    integer is a double. *)
Definition maxLength : Z := 9007199254740991.

(** The double that the length [n] of a string, or an index into one, is.
    The embedding has longer texts than JavaScript has; their lengths
    count as [maxLength]. *)
Definition ofLength (n : nat) : float :=
  PrimFloat.of_uint63 (Uint63.of_Z (Z.min (Z.of_nat n) maxLength)).

(** The double that a result of [lastIndexOf] is: an index, or [-1]. *)
Definition ofIndex (z : Z) : float :=
  if (z <? 0)%Z then (- ofLength (Z.to_nat (- z)))%float
  else ofLength (Z.to_nat z).

(** A double that is zero or positive, an infinity included, or no
    number. *)
Definition not_negative (x : SpecFloat.spec_float) : Prop :=
  match x with
  | SpecFloat.S754_zero s | SpecFloat.S754_infinity s
  | SpecFloat.S754_finite s _ _ => s = false
  | SpecFloat.S754_nan => True
  end.

End JsNumber.

(* ================================================================== *)
(** ** [chunkText]  (actions.ts, lines 63-90) *)

Module Chunker.
Import JsString.

Definition newline : ascii := "010"%char.
Definition blank_line : string := String newline (String newline "").

(** One pass through the body of the [while] loop: the index at which the
    chunk that starts at [startIndex] is cut, which is also the next value
    of [startIndex].  The test [breakPoint > startIndex + maxChunkSize * 0.7]
    is the comparison of doubles that line 80 makes: the product and the
    sum are rounded, so that for a size of 90 the threshold is
    62.99999999999999 and a full stop at index 63 is a break point. *)
Definition cutIndex (text : string) (maxChunkSize startIndex : nat) : nat :=
  let endIndex := Nat.min (startIndex + maxChunkSize) (String.length text) in
  if (endIndex <? String.length text)%nat then
    let lastSentence := lastIndexOf text "." endIndex in
    let lastParagraph := lastIndexOf text blank_line endIndex in
    let breakPoint := Z.max lastSentence lastParagraph in
    if PrimFloat.ltb
         (JsNumber.ofLength startIndex + JsNumber.ofLength maxChunkSize * 0.7)
         (JsNumber.ofIndex breakPoint)
    then Z.to_nat (breakPoint + 1)
    else endIndex
  else endIndex.

(** The [while (startIndex < text.length)] loop.  [fuel] bounds the number
    of passes; [None] means that the bound was reached with the cursor
    still inside the text. *)
Fixpoint chunkLoop (fuel : nat) (text : string) (maxChunkSize startIndex : nat)
    (chunks : list string) : option (list string) :=
  if (startIndex <? String.length text)%nat then
    match fuel with
    | O => None
    | S fuel' =>
        let endIndex := cutIndex text maxChunkSize startIndex in
        chunkLoop fuel' text maxChunkSize endIndex
                  (chunks ++ [trim (substring startIndex endIndex text)])
    end
  else Some chunks.

(** [chunkText(text, maxChunkSize)].  The loop is given one pass per
    character of the text. *)
Definition chunkText (text : string) (maxChunkSize : nat) : option (list string) :=
  if (String.length text <=? maxChunkSize)%nat then Some [text]
  else chunkLoop (String.length text) text maxChunkSize 0 [].

End Chunker.

(* ================================================================== *)
(** ** [detectContentType]  (actions.ts, lines 93-125) *)

Module Classifier.
Import JsString.

(** [\d{4}-\d{2}-\d{2}] matched at the start of [s]. *)
Definition iso_date_here (s : string) : bool :=
  match s with
  | String d1 (String d2 (String d3 (String d4 (String h1
      (String m1 (String m2 (String h2 (String e1 (String e2 _))))))))) =>
      is_digit d1 && is_digit d2 && is_digit d3 && is_digit d4
      && Ascii.eqb h1 "-" && is_digit m1 && is_digit m2
      && Ascii.eqb h2 "-" && is_digit e1 && is_digit e2
  | _ => false
  end.

(** [\d{4}] matched at the start of [s]. *)
Definition four_digits_here (s : string) : bool :=
  match s with
  | String d1 (String d2 (String d3 (String d4 _))) =>
      is_digit d1 && is_digit d2 && is_digit d3 && is_digit d4
  | _ => false
  end.

(** [\d{1,2}\/] matched at the start of [s]: the rest of [s] after it. *)
Definition day_slash_here (s : string) : option string :=
  match s with
  | String d1 (String d2 (String sl r)) =>
      if is_digit d1 && is_digit d2 && Ascii.eqb sl "/" then Some r
      else if is_digit d1 && Ascii.eqb d2 "/" then Some (String sl r)
      else None
  | String d1 (String sl r) =>
      if is_digit d1 && Ascii.eqb sl "/" then Some r else None
  | _ => None
  end.

(** [\d{1,2}\/\d{1,2}\/\d{4}] matched at the start of [s]. *)
Definition slash_date_here (s : string) : bool :=
  match day_slash_here s with
  | Some r =>
      match day_slash_here r with
      | Some r' => four_digits_here r'
      | None => false
      end
  | None => false
  end.

(** [s.match(/\d{4}-\d{2}-\d{2}|\d{1,2}\/\d{1,2}\/\d{4}/)] is not null. *)
Fixpoint matches_date (s : string) : bool :=
  iso_date_here s || slash_date_here s
  || match s with
     | "" => false
     | String _ r => matches_date r
     end.

Definition detectContentType (text : string) : string :=
  let lowerText := toLowerCase text in
  if includes lowerText "abstract" && includes lowerText "introduction"
     && includes lowerText "conclusion" then "Academic Paper"
  else if includes lowerText "ingredients"
          && (includes lowerText "recipe" || includes lowerText "instructions")
  then "Recipe"
  else if includes lowerText "experience" && includes lowerText "education"
          && includes lowerText "skills" then "Resume/CV"
  else if (includes lowerText "email" || includes lowerText "@")
          && includes lowerText "password" then "Credentials List"
  else if matches_date lowerText then "Date-based Content"
  else if includes lowerText "meeting"
          && (includes lowerText "agenda" || includes lowerText "minutes")
  then "Meeting Notes"
  else if (10 <? List.length (split_char Chunker.newline text))%nat
          && includes text "," then "Structured Data"
  else if includes lowerText "story" || includes lowerText "chapter"
          || (20 <? List.length (split_char "." text))%nat
  then "Narrative/Story"
  else if includes lowerText "product"
          && (includes lowerText "price" || includes lowerText "feature")
  then "Product Information"
  else "General Text".

(** The rules of section 4.1 of the specification, in its order, as a table
    of predicate and label; [classify_spec] returns the label of the first
    rule whose predicate holds. *)
Definition rules : list ((string -> bool) * string) :=
  let has (t w : string) := includes (toLowerCase t) w in
  [ (fun t => has t "abstract" && has t "introduction" && has t "conclusion",
     "Academic Paper");
    (fun t => has t "ingredients" && (has t "recipe" || has t "instructions"),
     "Recipe");
    (fun t => has t "experience" && has t "education" && has t "skills",
     "Resume/CV");
    (fun t => (has t "email" || has t "@") && has t "password",
     "Credentials List");
    (fun t => matches_date (toLowerCase t), "Date-based Content");
    (fun t => has t "meeting" && (has t "agenda" || has t "minutes"),
     "Meeting Notes");
    (fun t => (10 <? List.length (split_char Chunker.newline t))%nat
              && includes t ",", "Structured Data");
    (fun t => has t "story" || has t "chapter"
              || (20 <? List.length (split_char "." t))%nat, "Narrative/Story");
    (fun t => has t "product" && (has t "price" || has t "feature"),
     "Product Information") ].

Fixpoint first_match (rs : list ((string -> bool) * string)) (text : string) : string :=
  match rs with
  | [] => "General Text"
  | (holds, label) :: rs' => if holds text then label else first_match rs' text
  end.

Definition classify_spec (text : string) : string := first_match rules text.

Definition labels : list string :=
  [ "Academic Paper"; "Recipe"; "Resume/CV"; "Credentials List";
    "Date-based Content"; "Meeting Notes"; "Structured Data";
    "Narrative/Story"; "Product Information"; "General Text" ].

End Classifier.

(* ================================================================== *)
(** ** JSON values, as the documents of the pipeline hold them *)

Module Json.

(** A number of a document.  [JSON.parse] yields finite numbers only;
    [Infinity] and [NaN] are what [Math.round(n / 0)] yields.  The finite
    numbers of the embedding are the integers; it describes those of a
    magnitude of at most [2^53 - 1], which are doubles and are printed as
    their decimal numerals ([safe]).  A fraction, or a number of 21 digits,
    has no counterpart here. *)
Inductive JSNumber : Type :=
| Finite (z : Z)
| Infinity
| NaN.

Inductive JValue : Type :=
| JNull
| JBool (b : bool)
| JNum (n : JSNumber)
| JStr (s : string)
| JArr (items : list JValue)
| JObj (fields : list (string * JValue))
(** An array that [mergeAnalysisResults] has written into as into an
    object: its slots, of which some can be empty, and its named
    properties.  [JSON.parse] returns no such array. *)
| JArrWith (slots : list (option JValue)) (props : list (string * JValue)).

(** The own properties of a plain object, in [Object.keys] order. *)
Definition Fields : Type := list (string * JValue).

(** The slots of an array; [None] is an empty slot. *)
Definition Slots : Type := list (option JValue).

Definition int (z : Z) : JValue := JNum (Finite z).

(** What a JavaScript computation leaves: a value, an exception, or a
    behaviour that this embedding does not describe ([Beyond]): a loop that
    was still running when its fuel ran out, or a step whose effect depends
    on the properties the runtime puts on [Object.prototype] and
    [Array.prototype]. *)
Inductive Exn : Type :=
| TypeError
| Error (message : string).

Inductive Run (A : Type) : Type :=
| Ret (a : A)
| Throw (e : Exn)
| Beyond.

Arguments Ret {A} a.
Arguments Throw {A} e.
Arguments Beyond {A}.

(** *** Truthiness and type tests *)

(** [!!v] *)
Definition truthy (v : JValue) : bool :=
  match v with
  | JNull => false
  | JBool b => b
  | JNum (Finite z) => negb (z =? 0)%Z
  | JNum Infinity => true
  | JNum NaN => false
  | JStr s => negb (s =? "")
  | JArr _ | JObj _ | JArrWith _ _ => true
  end.

(** [Array.isArray(v)] *)
Definition isArray (v : JValue) : bool :=
  match v with JArr _ | JArrWith _ _ => true | _ => false end.

(** [typeof v === 'object' && v !== null] *)
Definition isObjectLike (v : JValue) : bool :=
  match v with JArr _ | JObj _ | JArrWith _ _ => true | _ => false end.

(** [typeof v === 'object' && v !== null && !Array.isArray(v)] *)
Definition isPlainObject (v : JValue) : bool :=
  match v with JObj _ => true | _ => false end.

(** *** Own properties *)

Fixpoint lookup (key : string) (o : Fields) : option JValue :=
  match o with
  | [] => None
  | (k, v) :: r => if k =? key then Some v else lookup key r
  end.

Definition keys (o : Fields) : list string := map fst o.

(** The decimal numeral of a natural number, as a list of digits read left
    to right. *)
Fixpoint digits_value (acc : N) (s : string) : option N :=
  match s with
  | "" => Some acc
  | String c r =>
      if JsString.is_digit c
      then digits_value (10 * acc + (N_of_ascii c - 48))%N r
      else None
  end.

(** A property key is an array index when it is the canonical numeral of an
    integer below [2^32 - 1]: such keys come first in [Object.keys], in
    ascending order. *)
Definition array_index (key : string) : option N :=
  match key with
  | "" => None
  | String "0" "" => Some 0%N
  | String "0" _ => None
  | _ =>
      if (String.length key <=? 10)%nat then
        match digits_value 0 key with
        | Some n => if (n <? 4294967295)%N then Some n else None
        | None => None
        end
      else None
  end.

Fixpoint replace (key : string) (v : JValue) (o : Fields) : Fields :=
  match o with
  | [] => []
  | (k, x) :: r => if k =? key then (k, v) :: r else (k, x) :: replace key v r
  end.

Fixpoint insert_index (n : N) (key : string) (v : JValue) (o : Fields) : Fields :=
  match o with
  | [] => [(key, v)]
  | (k, x) :: r =>
      match array_index k with
      | Some m => if (m <? n)%N then (k, x) :: insert_index n key v r
                  else (key, v) :: o
      | None => (key, v) :: o
      end
  end.

(** [o[key] = v] on a plain object: an existing property keeps its place, a
    new one goes among the array indices or to the end. *)
Definition set (key : string) (v : JValue) (o : Fields) : Fields :=
  match lookup key o with
  | Some _ => replace key v o
  | None =>
      match array_index key with
      | Some n => insert_index n key v o
      | None => o ++ [(key, v)]
      end
  end.

(** The members every plain object inherits from [Object.prototype]. *)
Definition prototype_methods : list string :=
  [ "constructor"; "hasOwnProperty"; "isPrototypeOf"; "propertyIsEnumerable";
    "toLocaleString"; "toString"; "valueOf"; "__defineGetter__";
    "__defineSetter__"; "__lookupGetter__"; "__lookupSetter__" ].

(** What [o[key]] evaluates to on a plain object or on an array: nothing,
    an own property, a method of the prototype, the prototype itself, or,
    on an array, a method that only some engines have. *)
Inductive Read : Type :=
| Undefined
| Own (v : JValue)
| InheritedMethod
| InheritedProto
| EngineDependent.

Definition get (o : Fields) (key : string) : Read :=
  match lookup key o with
  | Some v => Own v
  | None =>
      if key =? "__proto__" then InheritedProto
      else if existsb (String.eqb key) prototype_methods then InheritedMethod
      else Undefined
  end.

(** [v.name] for a [name] that no prototype defines and that is neither
    an index nor [length]: [null.name] throws, a plain object answers with
    its own property, an array with its named property, anything else has
    none. *)
Definition member (v : JValue) (name : string) : Run (option JValue) :=
  match v with
  | JNull => Throw TypeError
  | JObj o => Ret (lookup name o)
  | JArrWith _ props => Ret (lookup name props)
  | _ => Ret None
  end.

(** *** [Object.keys], [Object.values] *)

Definition decimal (z : Z) : string := NilZero.string_of_int (Z.to_int z).

Fixpoint indexed (i : nat) (items : list JValue) : Fields :=
  match items with
  | [] => []
  | x :: r => (decimal (Z.of_nat i), x) :: indexed (S i) r
  end.

(** The slots that are not empty, with their indices. *)
Fixpoint present (i : nat) (slots : Slots) : Fields :=
  match slots with
  | [] => []
  | Some x :: r => (decimal (Z.of_nat i), x) :: present (S i) r
  | None :: r => present (S i) r
  end.

(** The enumerable own properties of a document: of a plain object, or of
    an array (its indices, then its named properties).  The pipeline never
    takes them of anything else. *)
Definition Object_entries (v : JValue) : Fields :=
  match v with
  | JObj o => o
  | JArr items => indexed 0 items
  | JArrWith slots props => present 0 slots ++ props
  | _ => []
  end.

Definition Object_keys (v : JValue) : list string := map fst (Object_entries v).
Definition Object_values (v : JValue) : list JValue := map snd (Object_entries v).

(** *** [JSON.stringify] *)

Definition dquote : ascii := "034"%char.
Definition backslash : ascii := "092"%char.

Definition hex_digit (n : N) : ascii :=
  if (n <? 10)%N then ascii_of_N (48 + n) else ascii_of_N (87 + n).

Definition escape_char (c : ascii) : string :=
  let n := N_of_ascii c in
  if Ascii.eqb c dquote then String backslash (String dquote "")
  else if Ascii.eqb c backslash then String backslash (String backslash "")
  else if (n =? 8)%N then String backslash "b"
  else if (n =? 12)%N then String backslash "f"
  else if (n =? 10)%N then String backslash "n"
  else if (n =? 13)%N then String backslash "r"
  else if (n =? 9)%N then String backslash "t"
  else if (n <? 32)%N
  then String backslash
         ("u00" ++ String (hex_digit (n / 16)) (String (hex_digit (n mod 16)) ""))
  else String c "".

Fixpoint escape (s : string) : string :=
  match s with
  | "" => ""
  | String c r => escape_char c ++ escape r
  end.

Definition quote (s : string) : string :=
  String dquote (escape s ++ String dquote "").

Fixpoint join (sep : string) (parts : list string) : string :=
  match parts with
  | [] => ""
  | [p] => p
  | p :: r => p ++ sep ++ join sep r
  end.

(** [JSON.stringify(v)].  An integer is printed as its decimal numeral,
    which is what JavaScript prints of the [safe] ones (below [10^21]); the
    two non-finite numbers and an empty slot are printed as [null]; the
    named properties of an array are not printed. *)
Fixpoint stringify (v : JValue) : string :=
  match v with
  | JNull => "null"
  | JBool true => "true"
  | JBool false => "false"
  | JNum (Finite z) => decimal z
  | JNum _ => "null"
  | JStr s => quote s
  | JArr items => "[" ++ join "," (map stringify items) ++ "]"
  | JObj fields =>
      "{" ++ join "," (map (fun kv => (quote (fst kv) ++ ":" ++ stringify (snd kv))%string)
                           fields) ++ "}"
  | JArrWith slots _ =>
      "[" ++ join "," (map (fun slot => match slot with
                                        | Some x => stringify x
                                        | None => "null"
                                        end) slots) ++ "]"
  end.

Fixpoint distinct (l : list string) : bool :=
  match l with
  | [] => true
  | k :: r => negb (existsb (String.eqb k) r) && distinct r
  end.

(** The integers that are doubles and are printed as they are written. *)
Definition safe (n : JSNumber) : bool :=
  match n with
  | Finite z => (Z.abs z <=? 9007199254740991)%Z
  | Infinity | NaN => true
  end.

(** The values [JSON.parse] returns, as far as the embedding has them: the
    keys of every object are distinct, no array has an empty slot or a
    named property, and every number is [safe]. *)
Fixpoint wellFormed (v : JValue) : bool :=
  match v with
  | JNum n => safe n
  | JArr items => forallb wellFormed items
  | JObj fields =>
      distinct (map fst fields) && forallb (fun kv => wellFormed (snd kv)) fields
  | JArrWith _ _ => false
  | _ => true
  end.

(** Reading a nested property by its path. *)
Fixpoint at_path (path : list string) (v : JValue) : option JValue :=
  match path with
  | [] => Some v
  | key :: path' =>
      match v with
      | JObj o =>
          match lookup key o with
          | Some x => at_path path' x
          | None => None
          end
      | _ => None
      end
  end.

End Json.

(* ================================================================== *)
(** ** [mergeAnalysisResults]  (actions.ts, lines 241-259) *)

Module Merge.
Import Json.

(** [arr.findIndex(p)], [None] standing for [-1]. *)
Fixpoint findIndex (p : JValue -> bool) (arr : list JValue) (index : nat) : option nat :=
  match arr with
  | [] => None
  | x :: r => if p x then Some index else findIndex p r (S index)
  end.

(** [arr.filter((item, index) => p(item, index))] *)
Fixpoint filter_indexed (p : JValue -> nat -> bool) (arr : list JValue) (index : nat) : list JValue :=
  match arr with
  | [] => []
  | item :: r =>
      if p item index then item :: filter_indexed p r (S index)
      else filter_indexed p r (S index)
  end.

(** Lines 246-248: an item stays when the first element of [combined] with
    its serialization is the item itself. *)
Definition dedupe (combined : list JValue) : list JValue :=
  filter_indexed
    (fun item index =>
       match findIndex (fun i => stringify i =? stringify item) combined 0 with
       | Some first => (first =? index)%nat
       | None => false
       end)
    combined 0.

Definition read_isArray (r : Read) : bool :=
  match r with Own v => isArray v | _ => false end.

(** [typeof r === 'object' && r !== null]; an inherited method has type
    ['function']. *)
Definition read_isObjectLike (r : Read) : bool :=
  match r with
  | Own v => isObjectLike v
  | InheritedProto => true
  | Undefined | InheritedMethod | EngineDependent => false
  end.

Definition read_truthy (r : Read) : bool :=
  match r with
  | Undefined => false
  | Own v => truthy v
  | InheritedMethod | InheritedProto | EngineDependent => true
  end.

(** *** An array as the target of the merge *)

(** The string-keyed members of [Array.prototype] that ECMAScript 2019 has,
    those of [Object.prototype] ([prototype_methods]) apart; and the ones
    that later editions have added, which an engine has or has not. *)
Definition array_methods : list string :=
  [ "concat"; "copyWithin"; "entries"; "every"; "fill"; "filter"; "find";
    "findIndex"; "flat"; "flatMap"; "forEach"; "includes"; "indexOf"; "join";
    "keys"; "lastIndexOf"; "map"; "pop"; "push"; "reduce"; "reduceRight";
    "reverse"; "shift"; "slice"; "some"; "sort"; "splice"; "unshift";
    "values" ].

Definition later_array_methods : list string :=
  [ "at"; "findLast"; "findLastIndex"; "toReversed"; "toSorted"; "toSpliced";
    "with" ].

(** An array that is written into: its slots and its named properties. *)
Definition ArrayTarget : Type := (Slots * Fields)%type.

(** [a[key]] on an array. *)
Definition getArray (a : ArrayTarget) (key : string) : Read :=
  match array_index key with
  | Some i =>
      match nth_error (fst a) (N.to_nat i) with
      | Some (Some v) => Own v
      | _ => Undefined
      end
  | None =>
      if key =? "length" then Own (int (Z.of_nat (List.length (fst a))))
      else
        match lookup key (snd a) with
        | Some v => Own v
        | None =>
            if key =? "__proto__" then InheritedProto
            else if existsb (String.eqb key) (array_methods ++ prototype_methods)
            then InheritedMethod
            else if existsb (String.eqb key) later_array_methods
            then EngineDependent
            else Undefined
        end
  end.

(** [slots[i] = v]: an index past the end leaves empty slots before it. *)
Fixpoint put (i : nat) (v : JValue) (slots : Slots) : Slots :=
  match i, slots with
  | O, [] => [Some v]
  | O, _ :: r => Some v :: r
  | S i', [] => None :: put i' v []
  | S i', x :: r => x :: put i' v r
  end.

(** [a[key] = v] on an array, for a key other than [length]. *)
Definition setArray (key : string) (v : JValue) (a : ArrayTarget) : ArrayTarget :=
  match array_index key with
  | Some i => (put (N.to_nat i) v (fst a), snd a)
  | None => (fst a, set key v (snd a))
  end.

(** The items of an array without empty slots. *)
Fixpoint dense (slots : Slots) : option (list JValue) :=
  match slots with
  | [] => Some []
  | Some x :: r => option_map (cons x) (dense r)
  | None :: _ => None
  end.

(** The array as a value again. *)
Definition arrayValue (a : ArrayTarget) : JValue :=
  match dense (fst a), snd a with
  | Some items, [] => JArr items
  | _, _ => JArrWith (fst a) (snd a)
  end.

(** *** The two kinds of target *)

(** What the merge does with its target: it reads a property and it writes
    one.  On an array the property [length] cannot be written as the
    others are. *)
Record Ops (T : Type) : Type := {
  read : T -> string -> Read;
  assign : string -> JValue -> T -> T;
  hasLength : bool
}.

Arguments read {T} _ _ _.
Arguments assign {T} _ _ _ _.
Arguments hasLength {T} _.

Definition objectOps : Ops Fields :=
  {| read := get; assign := set; hasLength := false |}.

Definition arrayOps : Ops ArrayTarget :=
  {| read := getArray; assign := setArray; hasLength := true |}.

Definition runMap {A B : Type} (f : A -> B) (r : Run A) : Run B :=
  match r with
  | Ret a => Ret (f a)
  | Throw e => Throw e
  | Beyond => Beyond
  end.

(** The recursive call [mergeAnalysisResults(target[key], source[key])] on
    the value [tv] of [target[key]], a plain object or an array; the two
    arguments are the merge of [source[key]] into the one and into the
    other. *)
Definition intoWith (intoObject : Fields -> Run Fields)
    (intoArray : ArrayTarget -> Run ArrayTarget) (tv : JValue) : Run JValue :=
  match tv with
  | JObj sub => runMap JObj (intoObject sub)
  | JArr items => runMap arrayValue (intoArray (map Some items, []))
  | JArrWith slots props => runMap arrayValue (intoArray (slots, props))
  | _ => Beyond
  end.

(** The body of the [forEach] callback for one key of [source], whose value
    there is [sv]; [recur] is the recursive call on [sv].  Two arrays are
    concatenated and deduplicated; an object or array of [source] is merged
    into the object or array that [target] has at the key; otherwise the
    value of [source] is written where [target] has a falsy one.

    Three steps are [Beyond] the embedding.  Where [target[key]] is the
    prototype ([key] is [__proto__] and [target] has no such property of
    its own), the recursive call writes into [Object.prototype] or
    [Array.prototype], for every object of the process to inherit.  On an
    array, a key that later editions of the language have made a method is
    a method or not by the engine, and an assignment to [length] changes
    the slots or throws.  So is the spreading of an array that has empty
    slots or named properties: the merge of two documents that [JSON.parse]
    returned meets none. *)
Definition mergeKey {T : Type} (ops : Ops T) (recur : JValue -> Run JValue)
    (key : string) (sv : JValue) (target : T) : Run T :=
  let tv := read ops target key in
  match tv with
  | EngineDependent => Beyond
  | _ =>
      if isArray sv && read_isArray tv then
        match sv, tv with
        | JArr ss, Own (JArr ts) =>
            Ret (assign ops key (JArr (dedupe (ts ++ ss))) target)
        | _, _ => Beyond
        end
      else if isObjectLike sv && read_isObjectLike tv then
        match tv with
        | Own tvv =>
            match recur tvv with
            | Ret tvv' => Ret (assign ops key tvv' target)
            | Throw e => Throw e
            | Beyond => Beyond
            end
        | _ => Beyond
        end
      else if negb (read_truthy tv) then
        if hasLength ops && (key =? "length") then Beyond
        else Ret (assign ops key sv target)
      else Ret target
  end.

(** [mergeAnalysisResults(target, source)], by recursion on [source]; the
    result is [target] after the call.  [Object.keys(source)] are the keys
    of a plain object, which are distinct, so that [source[key]] is the
    value listed with [key]; or the indices of an array. *)
Fixpoint mergeValue (T : Type) (ops : Ops T) (source : JValue) (target : T)
    {struct source} : Run T :=
  match source with
  | JObj fields =>
      (fix forEach (fs : Fields) (target : T) {struct fs} : Run T :=
         match fs with
         | [] => Ret target
         | (key, sv) :: fs' =>
             match mergeKey ops
                     (intoWith (mergeValue Fields objectOps sv)
                               (mergeValue ArrayTarget arrayOps sv))
                     key sv target with
             | Ret target' => forEach fs' target'
             | Throw e => Throw e
             | Beyond => Beyond
             end
         end) fields target
  | JArr items =>
      (fix forEach (i : nat) (l : list JValue) (target : T) {struct l} : Run T :=
         match l with
         | [] => Ret target
         | sv :: l' =>
             match mergeKey ops
                     (intoWith (mergeValue Fields objectOps sv)
                               (mergeValue ArrayTarget arrayOps sv))
                     (decimal (Z.of_nat i)) sv target with
             | Ret target' => forEach (S i) l' target'
             | Throw e => Throw e
             | Beyond => Beyond
             end
         end) 0 items target
  | _ => Beyond
  end.

Arguments mergeValue {T} ops source target.

Definition mergeAnalysisResults (target source : Fields) : Run Fields :=
  mergeValue objectOps (JObj source) target.

(** [mergeAnalysisResults(target, source)] on two values, of which each is
    a plain object or an array. *)
Definition mergeInto (target source : JValue) : Run JValue :=
  intoWith (mergeValue objectOps source) (mergeValue arrayOps source) target.

(** The recursive call for the value [sv] of [source]. *)
Definition recurFor (sv : JValue) : JValue -> Run JValue :=
  intoWith (mergeValue objectOps sv) (mergeValue arrayOps sv).

(** The [forEach] of [mergeAnalysisResults] on its own, for the proofs. *)
Fixpoint forEachKey {T : Type} (ops : Ops T) (fs : Fields) (target : T) : Run T :=
  match fs with
  | [] => Ret target
  | (key, sv) :: fs' =>
      match mergeKey ops (recurFor sv) key sv target with
      | Ret target' => forEachKey ops fs' target'
      | Throw e => Throw e
      | Beyond => Beyond
      end
  end.

(** No key of the document, at any depth, is [length] or a later method of
    [Array.prototype], and none is [__proto__] with an object or an array
    as its value: the documents with which the merge writes into no
    prototype and into no [length]. *)
Definition reservedKey (key : string) : bool :=
  (key =? "length") || existsb (String.eqb key) later_array_methods.

Fixpoint ordinary (v : JValue) : bool :=
  match v with
  | JObj fields =>
      forallb (fun kv =>
                 negb (reservedKey (fst kv))
                 && negb ((fst kv =? "__proto__") && isObjectLike (snd kv))
                 && ordinary (snd kv)) fields
  | JArr items => forallb ordinary items
  | JArrWith _ _ => false
  | _ => true
  end.

(** At a key the two values are merged by the recursive call: each is an
    object or an array, and they are not an array each. *)
Definition meets (sv tv : JValue) : bool :=
  isObjectLike sv && isObjectLike tv && negb (isArray sv && isArray tv).

(** The merge of [source] into [target] writes into no prototype, and into
    no array under a key that is [length] or a later method.  Into a plain
    object every key is written as it is; only an object or array under
    [__proto__] where [target] has no such property of its own goes into
    the prototype.  Where the recursive call comes to an array of [target],
    what it merges into the array has to be [ordinary]. *)
Fixpoint plainMerge (source target : JValue) {struct source} : bool :=
  match target with
  | JObj o =>
      match source with
      | JObj fields =>
          (fix each (fs : Fields) : bool :=
             match fs with
             | [] => true
             | (key, sv) :: fs' =>
                 match lookup key o with
                 | Some tv => if meets sv tv then plainMerge sv tv else true
                 | None => negb ((key =? "__proto__") && isObjectLike sv)
                 end
                 && each fs'
             end) fields
      | JArr items =>
          (fix each (i : nat) (l : list JValue) : bool :=
             match l with
             | [] => true
             | sv :: l' =>
                 match lookup (decimal (Z.of_nat i)) o with
                 | Some tv => if meets sv tv then plainMerge sv tv else true
                 | None => true
                 end
                 && each (S i) l'
             end) 0 items
      | _ => false
      end
  | _ => ordinary source
  end.

(** What the proofs use of a kind of target: a write leaves the other
    properties as they were, [length] apart; and only a later method reads
    as one, only [__proto__] as the prototype. *)
Record Lawful {T : Type} (ops : Ops T) : Prop := {
  read_other :
    forall key v t key',
      key' <> key -> reservedKey key' = false ->
      read ops (assign ops key v t) key' = read ops t key';
  read_engine :
    forall t key, read ops t key = EngineDependent -> reservedKey key = true;
  read_proto :
    forall t key, read ops t key = InheritedProto -> key = "__proto__"
}.

(** Under the keys [keys], [target] holds values that [JSON.parse] could
    have returned. *)
Definition parsedAt {T : Type} (ops : Ops T) (keys : list string) (target : T) : Prop :=
  forall key v, In key keys -> read ops target key = Own v -> wellFormed v = true.

(** The merge of [source] returns, into whatever target holds parsed
    values under the keys of [source]. *)
Definition mergeable (source : JValue) : Prop :=
  forall (T : Type) (ops : Ops T),
    Lawful ops ->
    forall target : T,
      parsedAt ops (Object_keys source) target ->
      exists target', mergeValue ops source target = Ret target'.

(** The slot of an array at an index, [None] for an empty one and for none. *)
Definition slot (i : nat) (slots : Slots) : option JValue :=
  match nth_error slots i with
  | Some (Some v) => Some v
  | _ => None
  end.

(** The words of the specification: an element is kept unless an element
    with the same serialization has been seen before it. *)
Fixpoint dedup_first (seen : list string) (l : list JValue) : list JValue :=
  match l with
  | [] => []
  | x :: r =>
      if existsb (String.eqb (stringify x)) seen then dedup_first seen r
      else x :: dedup_first (stringify x :: seen) r
  end.

(** [seen] lists the serializations of the elements of [pre]. *)
Definition seen_of (seen : list string) (pre : list JValue) : Prop :=
  forall s, existsb (String.eqb s) seen = existsb (fun i => stringify i =? s) pre.

End Merge.

(* ================================================================== *)
(** ** [extractFields]  (actions.ts, lines 416-432) *)

Module FieldExtractor.
Import Json.

(** [prefix.split('.').length] *)
Definition segments (prefix : string) : nat :=
  List.length (JsString.split_char "." prefix).

(** [prefix ? `${prefix}.${key}` : key] *)
Definition fullKeyOf (prefix key : string) : string :=
  if prefix =? "" then key else (prefix ++ "." ++ key)%string.

Fixpoint extractFields (data : JValue) (prefix : string) {struct data} : list string :=
  match data with
  | JObj fields =>
      (fix forEach (fs : Fields) : list string :=
         match fs with
         | [] => []
         | (key, v) :: fs' =>
             let fullKey := fullKeyOf prefix key in
             (fullKey :: (if isPlainObject v && (segments prefix <? 3)%nat
                          then extractFields v fullKey else []))
             ++ forEach fs'
         end) fields
  | JArr items =>
      (fix forEach (i : nat) (l : list JValue) : list string :=
         match l with
         | [] => []
         | v :: l' =>
             let fullKey := fullKeyOf prefix (decimal (Z.of_nat i)) in
             (fullKey :: (if isPlainObject v && (segments prefix <? 3)%nat
                          then extractFields v fullKey else []))
             ++ forEach (S i) l'
         end) 0%nat items
  | JArrWith slots props =>
      (fix forEachSlot (i : nat) (l : Slots) : list string :=
         match l with
         | [] =>
             (fix forEach (fs : Fields) : list string :=
                match fs with
                | [] => []
                | (key, v) :: fs' =>
                    let fullKey := fullKeyOf prefix key in
                    (fullKey :: (if isPlainObject v && (segments prefix <? 3)%nat
                                 then extractFields v fullKey else []))
                    ++ forEach fs'
                end) props
         | None :: l' => forEachSlot (S i) l'
         | Some v :: l' =>
             let fullKey := fullKeyOf prefix (decimal (Z.of_nat i)) in
             (fullKey :: (if isPlainObject v && (segments prefix <? 3)%nat
                          then extractFields v fullKey else []))
             ++ forEachSlot (S i) l'
         end) 0%nat slots
  | _ => []
  end.

End FieldExtractor.

(* ================================================================== *)
(** ** [calculateConfidence]  (actions.ts, lines 319-348) *)

Module Confidence.
Import Json.

Definition of_nat (n : nat) : float := PrimFloat.of_uint63 (Uint63.of_Z (Z.of_nat n)).

(** [Math.max] and [Math.min] on two numbers, neither of them a zero. *)
Definition Math_max (a b : float) : float :=
  if is_nan a || is_nan b then nan else if PrimFloat.ltb a b then b else a.

Definition Math_min (a b : float) : float :=
  if is_nan a || is_nan b then nan else if PrimFloat.ltb b a then b else a.

(** [if (cond) confidence += step] *)
Definition bump (cond : bool) (confidence step : float) : float :=
  if cond then (confidence + step)%float else confidence.

(** [data.metadata?.analysis_method?.includes('fallback')]: [None] when the
    chain stops at a missing or null link.  A string and an array have an
    [includes] method; on a number, a boolean or an object, [includes] is
    not a function and the call throws. *)
Definition includesFallback (data : JValue) : Run (option bool) :=
  match member data "metadata" with
  | Ret None | Ret (Some JNull) => Ret None
  | Ret (Some metadata) =>
      match member metadata "analysis_method" with
      | Ret None | Ret (Some JNull) => Ret None
      | Ret (Some (JStr method)) => Ret (Some (JsString.includes method "fallback"))
      | Ret (Some (JArr items)) =>
          Ret (Some (existsb (fun i => match i with
                                       | JStr s => s =? "fallback"
                                       | _ => false
                                       end) items))
      | Ret (Some (JArrWith slots _)) =>
          Ret (Some (existsb (fun slot => match slot with
                                          | Some (JStr s) => s =? "fallback"
                                          | _ => false
                                          end) slots))
      | Ret (Some _) => Throw TypeError
      | Throw e => Throw e
      | Beyond => Beyond
      end
  | Throw e => Throw e
  | Beyond => Beyond
  end.

Definition calculateConfidence (data : JValue) (originalText : string) : Run float :=
  let confidence := 0.5%float in
  let fieldCount := List.length (Object_keys data) in
  let confidence := bump (5 <? fieldCount)%nat confidence 0.1 in
  let confidence := bump (10 <? fieldCount)%nat confidence 0.1 in
  let hasArrays := existsb isArray (Object_values data) in
  let hasObjects := existsb isPlainObject (Object_values data) in
  let confidence := bump hasArrays confidence 0.1 in
  let confidence := bump hasObjects confidence 0.1 in
  let textLength := String.length originalText in
  let extractionRatio :=
    (of_nat (String.length (stringify data)) / of_nat textLength)%float in
  let confidence := bump (PrimFloat.ltb 0.1 extractionRatio) confidence 0.1 in
  let confidence := bump (PrimFloat.ltb 0.3 extractionRatio) confidence 0.1 in
  match includesFallback data with
  | Ret marked =>
      let isFallback := match marked with Some b => b | None => false end in
      let confidence := bump (negb isFallback) confidence 0.2 in
      Ret (Math_min 0.95 (Math_max 0.3 confidence))
  | Throw e => Throw e
  | Beyond => Beyond
  end.

End Confidence.

(* ================================================================== *)
(** ** The text statistics of [fallbackAnalysis]  (actions.ts, lines 263-265) *)

Module TextStats.
Import JsString.

(** [w => w.length > 0] *)
Definition nonEmpty (w : string) : bool := (0 <? String.length w)%nat.

(** [s => s.trim().length > 0] *)
Definition nonBlank (s : string) : bool := (0 <? String.length (trim s))%nat.

(** [text.split(/\s+/).filter(w => w.length > 0)] *)
Definition words (text : string) : list string :=
  filter nonEmpty (split_runs is_whitespace text).

(** The class [[.!?]] *)
Definition is_terminator (c : ascii) : bool :=
  match c with
  | "."%char | "!"%char | "?"%char => true
  | _ => false
  end.

(** A character that is neither whitespace nor a sentence terminator. *)
Definition sentence_char (c : ascii) : bool :=
  negb (is_whitespace c) && negb (is_terminator c).

(** [text.split(/[.!?]+/).filter(s => s.trim().length > 0)] *)
Definition sentences (text : string) : list string :=
  filter nonBlank (split_runs is_terminator text).

(** [\s*\n] after a line feed: the whitespace run that follows is scanned
    to its end, and the match stops after its last line feed.  The result
    is the number of characters taken, [None] when the run has no line
    feed. *)
Fixpoint blank_gap (s : string) (taken : nat) (last : option nat) : option nat :=
  match s with
  | "" => last
  | String c r =>
      if is_whitespace c
      then blank_gap r (S taken)
                     (if Ascii.eqb c Chunker.newline then Some (S taken) else last)
      else last
  end.

Definition cons_first (c : ascii) (frags : list string) : list string :=
  match frags with
  | [] => [String c ""]
  | frag :: frags' => String c frag :: frags'
  end.

(** [text.split(/\n\s*\n/)]; [skip] counts the characters of a separator
    that are still to be passed over. *)
Fixpoint split_blank_lines (skip : nat) (s : string) : list string :=
  match s with
  | "" => [""]
  | String c r =>
      match skip with
      | S skip' => split_blank_lines skip' r
      | O =>
          if Ascii.eqb c Chunker.newline then
            match blank_gap r 0 None with
            | Some gap => "" :: split_blank_lines gap r
            | None => cons_first c (split_blank_lines 0 r)
            end
          else cons_first c (split_blank_lines 0 r)
      end
  end.

(** [text.split(/\n\s*\n/).filter(p => p.trim().length > 0)] *)
Definition paragraphs (text : string) : list string :=
  filter nonBlank (split_blank_lines 0 text).

(** [Math.round(a / b)] for two lengths: the quotient rounded to the
    nearest integer, halves upwards; a division by zero gives [Infinity],
    or [NaN] for [0 / 0]. *)
Definition round_div (a b : nat) : Json.JSNumber :=
  match b with
  | O => match a with O => Json.NaN | S _ => Json.Infinity end
  | S _ => Json.Finite ((2 * Z.of_nat a + Z.of_nat b) / (2 * Z.of_nat b))
  end.

(** [Math.ceil(a / 200)] *)
Definition ceil_div_200 (a : nat) : Z := (Z.of_nat a + 199) / 200.

End TextStats.

(* ================================================================== *)
(** ** What the pipeline takes from its runtime *)

Module Service.
Import Json.

Record Message : Type := { role : string; content : string }.

(** The arguments of [callCloudflareAI(model, inputs)]. *)
Record Request : Type := {
  model : string;
  messages : list Message;
  max_tokens : Z;
  temperature : float
}.

(** How the [fetch] of [callCloudflareAI] and the reading of its body end:
    a rejected promise, a status outside 2xx with the text of its body, or
    the body parsed by [response.json()]. *)
Inductive FetchResult : Type :=
| Rejected (message : string)
| HttpError (status statusText errorText : string)
| HttpOk (data : JValue).

(** The regular expressions of lines 268-271, each used with [text.match]
    and the [g] flag. *)
Inductive EntityPattern : Type :=
| EmailPattern
| UrlPattern
| DatePattern
| NumberPattern.

Record Runtime : Type := {
  (** the state of everything outside the process *)
  World : Type;
  (** [CLOUDFLARE_ACCOUNT_ID] and [CLOUDFLARE_API_TOKEN] are both set *)
  credentials : bool;
  fetch : Request -> World -> FetchResult * World;
  (** [new Date().toISOString()] *)
  clock : World -> string;
  (** [JSON.parse], [None] when it throws *)
  JSON_parse : string -> option JValue;
  (** [text.match(pattern) || []] *)
  matchAll : EntityPattern -> string -> list string;
  (** lines 274-285: the ten most frequent words of [words], as the array
      [topWords] *)
  keyTerms : list string -> JValue;
  (** the [message] of a [TypeError] *)
  typeErrorMessage : string
}.

(** The state a run threads through its calls: the world, the requests
    handed to [fetch] so far, and what [fetch] made of each of them. *)
Record State (rt : Runtime) : Type := {
  world : World rt;
  sent : list Request;
  received : list FetchResult
}.

Arguments world {rt} _.
Arguments sent {rt} _.
Arguments received {rt} _.

End Service.

(* ================================================================== *)
(** ** Cleaning a model response  (actions.ts, lines 197-200 and 215) *)

Module ResponseText.
Import JsString.

Definition nl : string := String Chunker.newline "".

(** [.replace(/```json\n?|\n?```/g, '')]; [skip] counts the characters of a
    match that are still to be dropped. *)
Fixpoint stripJsonFences (skip : nat) (s : string) : string :=
  match s with
  | "" => ""
  | String c r =>
      match skip with
      | S skip' => stripJsonFences skip' r
      | O =>
          if prefix ("```json" ++ nl) s then stripJsonFences 7 r
          else if prefix "```json" s then stripJsonFences 6 r
          else if prefix (nl ++ "```") s then stripJsonFences 3 r
          else if prefix "```" s then stripJsonFences 2 r
          else String c (stripJsonFences 0 r)
      end
  end.

(** [.replace(/```\n?|\n?```/g, '')] *)
Fixpoint stripFences (skip : nat) (s : string) : string :=
  match s with
  | "" => ""
  | String c r =>
      match skip with
      | S skip' => stripFences skip' r
      | O =>
          if prefix ("```" ++ nl) s then stripFences 3 r
          else if prefix "```" s then stripFences 2 r
          else if prefix (nl ++ "```") s then stripFences 3 r
          else String c (stripFences 0 r)
      end
  end.

(** Lines 197-200. *)
Definition cleanJson (response : string) : string :=
  trim (stripFences 0 (stripJsonFences 0 response)).

(** The suffix of [s] that starts at its first [{]. *)
Fixpoint fromFirstBrace (s : string) : option string :=
  match s with
  | "" => None
  | String c r => if Ascii.eqb c "{" then Some s else fromFirstBrace r
  end.

(** [response.match(/\{[\s\S]*\}/)]: from the first [{] to the last [}]
    after it. *)
Definition matchBraces (response : string) : option string :=
  match fromFirstBrace response with
  | Some t =>
      let last := lastIndexOf t "}" (String.length t) in
      if (0 <? last)%Z then Some (substring 0 (Z.to_nat last + 1) t) else None
  | None => None
  end.

End ResponseText.

(* ================================================================== *)
(** ** The pipeline over a runtime *)

Module Pipeline.
Import Json Service.

(** [analyzeText]'s result, the interface [AnalysisResult]. *)
Record AnalysisData : Type := {
  structuredData : JValue;
  fields : list string;
  inputType : string;
  confidence : float;
  summary : string;
  wordCount : nat
}.

Record AnalysisResult : Type := {
  success : bool;
  data : option AnalysisData;
  error : option string
}.

Definition failure (message : string) : AnalysisResult :=
  {| success := false; data := None; error := Some message |}.

Definition extractionChunkSize : nat := 3500.

Section WithRuntime.

Variable rt : Runtime.

(** A computation that may call the service: it threads the state and ends
    as a [Run]. *)
Definition M (A : Type) : Type := State rt -> Run A * State rt.

Definition ret {A : Type} (a : A) : M A := fun st => (Ret a, st).

Definition lift {A : Type} (r : Run A) : M A := fun st => (r, st).

Definition throw {A : Type} (e : Exn) : M A := fun st => (Throw e, st).

Definition bind {A B : Type} (m : M A) (k : A -> M B) : M B :=
  fun st =>
    match m st with
    | (Ret a, st') => k a st'
    | (Throw e, st') => (Throw e, st')
    | (Beyond, st') => (Beyond, st')
    end.

(** [try { m } catch (e) { handler e }] *)
Definition try_catch {A : Type} (m : M A) (handler : Exn -> M A) : M A :=
  fun st =>
    match m st with
    | (Throw e, st') => handler e st'
    | other => other
    end.

Notation "x <- m ;; k" := (bind m (fun x => k))
  (at level 61, m at next level, right associativity).

(** [error instanceof Error ? error.message : 'Unknown error']: everything
    thrown here is an [Error]. *)
Definition messageOf (e : Exn) : string :=
  match e with
  | TypeError => typeErrorMessage rt
  | Error message => message
  end.

(** Lines 30-60.  The credentials are tested before the [try]; whatever is
    thrown inside it is thrown again with a prefix. *)
Definition callCloudflareAI (request : Request) : M JValue :=
  if negb (credentials rt)
  then throw (Error "Cloudflare AI credentials not configured")
  else fun st =>
    let (result, world') := fetch rt request (world st) in
    let st' := {| world := world'; sent := sent st ++ [request];
                  received := received st ++ [result] |} in
    match result with
    | Rejected message =>
        (Throw (Error ("Failed to call Cloudflare AI: " ++ message)), st')
    | HttpError status statusText errorText =>
        (Throw (Error ("Failed to call Cloudflare AI: "
                       ++ "Cloudflare AI API error: " ++ status ++ " "
                       ++ statusText ++ " - " ++ errorText)), st')
    | HttpOk data => (Ret data, st')
    end.

(** [response.result?.response] *)
Definition resultResponse (response : JValue) : Run (option JValue) :=
  match member response "result" with
  | Ret None | Ret (Some JNull) => Ret None
  | Ret (Some result) => member result "response"
  | Throw e => Throw e
  | Beyond => Beyond
  end.

Definition llama : string := "@cf/meta/llama-3.1-8b-instruct".

Definition summaryRequest (truncatedText : string) : Request :=
  {| model := llama;
     messages :=
       [ {| role := "system";
            content := "You are a skilled summarizer. Create a concise, informative summary of the given text. Focus on the main points and key information." |};
         {| role := "user";
            content := "Please provide a brief summary (2-3 sentences) of the following text:"
                       ++ ResponseText.nl ++ ResponseText.nl ++ truncatedText |} ];
     max_tokens := 200;
     temperature := 0.3 |}.

(** Lines 128-156. *)
Definition generateSummary (text : string) : M string :=
  try_catch
    (let truncatedText := JsString.substring 0 2000 text in
     response <- callCloudflareAI (summaryRequest truncatedText) ;;
     reply <- lift (resultResponse response) ;;
     match reply with
     | Some v =>
         if truthy v then
           match v with
           | JStr s => ret (JsString.trim s)
           | _ => throw TypeError
           end
         else ret "Summary generation failed"
     | None => ret "Summary generation failed"
     end)
    (fun _ => ret "Unable to generate summary").

Definition strings (l : list string) : JValue := JArr (map JStr l).

(** Lines 304-308. *)
Fixpoint paragraphEntries (index : nat) (paragraphs : list string) : list JValue :=
  match paragraphs with
  | [] => []
  | para :: rest =>
      JObj [ ("index", int (Z.of_nat (index + 1)));
             ("word_count",
              int (Z.of_nat (List.length
                               (JsString.split_runs JsString.is_whitespace para))));
             ("preview",
              JStr (JsString.substring 0 100 para
                    ++ (if (100 <? String.length para)%nat then "..." else ""))) ]
      :: paragraphEntries (S index) rest
  end.

(** Lines 262-316: the document [fallbackAnalysis] returns when the clock
    reads [timestamp]. *)
Definition fallbackDocument (text contentType timestamp : string) : JValue :=
  let words := TextStats.words text in
  let sentences := TextStats.sentences text in
  let paragraphs := TextStats.paragraphs text in
  let emails := matchAll rt EmailPattern text in
  let urls := matchAll rt UrlPattern text in
  let dates := matchAll rt DatePattern text in
  let numbers := matchAll rt NumberPattern text in
  let topWords := keyTerms rt words in
  JObj
    [ ("document_type", JStr contentType);
      ("content_analysis",
       JObj [ ("word_count", int (Z.of_nat (List.length words)));
              ("sentence_count", int (Z.of_nat (List.length sentences)));
              ("paragraph_count", int (Z.of_nat (List.length paragraphs)));
              ("average_sentence_length",
               JNum (TextStats.round_div (List.length words) (List.length sentences)));
              ("reading_time_minutes",
               int (TextStats.ceil_div_200 (List.length words))) ]);
      ("extracted_entities",
       JObj [ ("emails", strings emails);
              ("urls", strings urls);
              ("dates", strings dates);
              ("numbers", strings (firstn 10 numbers)) ]);
      ("key_terms", topWords);
      ("structure", JObj [ ("paragraphs", JArr (paragraphEntries 0 paragraphs)) ]);
      ("metadata",
       JObj [ ("analysis_method", JStr "fallback_rule_based");
              ("processing_timestamp", JStr timestamp);
              ("content_type_detected", JStr contentType) ]) ].

Definition fallbackAnalysis (text contentType : string) : M JValue :=
  fun st => (Ret (fallbackDocument text contentType (clock rt (world st))), st).

(** The prompt of lines 167-178 and the request of lines 180-193. *)
Definition extractionPrompt (contentType chunk : string) : string :=
  "Analyze and organize this " ++ contentType
  ++ " content into a structured JSON format. Extract key information, entities, relationships, and organize data logically. Focus on making the content more readable and structured."
  ++ ResponseText.nl ++ ResponseText.nl
  ++ "Rules:" ++ ResponseText.nl
  ++ "1. Return only valid JSON without markdown formatting" ++ ResponseText.nl
  ++ "2. Create meaningful categories and subcategories" ++ ResponseText.nl
  ++ "3. Extract entities like names, dates, locations, etc." ++ ResponseText.nl
  ++ "4. Identify patterns and relationships" ++ ResponseText.nl
  ++ "5. Organize information hierarchically" ++ ResponseText.nl
  ++ "6. Include metadata where relevant" ++ ResponseText.nl ++ ResponseText.nl
  ++ "Content to analyze:" ++ ResponseText.nl ++ chunk.

Definition extractionRequest (contentType chunk : string) : Request :=
  {| model := llama;
     messages :=
       [ {| role := "system";
            content := "You are an expert data analyst and organizer. Transform unstructured text into well-organized, structured JSON data. Focus on clarity, usefulness, and logical organization." |};
         {| role := "user"; content := extractionPrompt contentType chunk |} ];
     max_tokens := 1500;
     temperature := 0.2 |}.

(** [mergeAnalysisResults(combinedAnalysis, parsed)] on two documents, of
    which each is a plain object or an array. *)
Definition mergeDocuments (combinedAnalysis parsed : JValue) : Run JValue :=
  Merge.mergeInto combinedAnalysis parsed.

(** Lines 195-225: what the response to chunk [i] does to
    [combinedAnalysis].  A truthy response that is not a string has no
    [replace] and no [match]: the [TypeError] of the [try] block is caught,
    the one of the [catch] block is not. *)
Definition absorb (i : nat) (combinedAnalysis response : JValue) : Run JValue :=
  match resultResponse response with
  | Ret (Some v) =>
      if truthy v then
        match v with
        | JStr text =>
            match JSON_parse rt (ResponseText.cleanJson text) with
            | Some parsed =>
                if isObjectLike parsed then
                  if (i =? 0)%nat then Ret parsed
                  else mergeDocuments combinedAnalysis parsed
                else Ret combinedAnalysis
            | None =>
                match ResponseText.matchBraces text with
                | Some jsonMatch =>
                    match JSON_parse rt jsonMatch with
                    | Some parsed =>
                        if (i =? 0)%nat then Ret parsed else Ret combinedAnalysis
                    | None => Ret combinedAnalysis
                    end
                | None => Ret combinedAnalysis
                end
            end
        | _ => Throw TypeError
        end
      else Ret combinedAnalysis
  | Ret None => Ret combinedAnalysis
  | Throw e => Throw e
  | Beyond => Beyond
  end.

(** The document that the text of a response holds for lines 197-223: the
    object or array the cleaned text parses to, or else what the text
    between its first [{] and its last [}] parses to. *)
Definition parsedDocument (text : string) : option JValue :=
  match JSON_parse rt (ResponseText.cleanJson text) with
  | Some parsed => if isObjectLike parsed then Some parsed else None
  | None =>
      match ResponseText.matchBraces text with
      | Some jsonMatch => JSON_parse rt jsonMatch
      | None => None
      end
  end.

(** The outcome of a [fetch] carries a parseable document. *)
Definition yieldsDocument (result : FetchResult) : bool :=
  match result with
  | HttpOk response =>
      match resultResponse response with
      | Ret (Some (JStr text)) =>
          negb (text =? "")
          && match parsedDocument text with Some _ => true | None => false end
      | _ => false
      end
  | Rejected _ | HttpError _ _ _ => false
  end.

(** The call returned and lines 195-225 get through its response: the
    response has no text, or its text is a string. *)
Definition answered (result : FetchResult) : bool :=
  match result with
  | HttpOk response =>
      match resultResponse response with
      | Ret None => true
      | Ret (Some v) =>
          negb (truthy v) || match v with JStr _ => true | _ => false end
      | _ => false
      end
  | Rejected _ | HttpError _ _ _ => false
  end.

(** What [fetch] returned between the states [st] and [st'] of a run. *)
Definition receivedSince (st st' : State rt) : list FetchResult :=
  skipn (List.length (received st)) (received st').

(** None of the results carries a parseable document. *)
Definition noneYields (results : list FetchResult) : bool :=
  forallb (fun result => negb (yieldsDocument result)) results.

(** Whatever [JSON.parse] returns is a value as [wellFormed] describes
    them, and a plain object when the text begins with a brace; and the
    merge of one such document into the empty accumulator or into another
    writes into no prototype and into no [length] ([Merge.plainMerge]). *)
Definition plainDocuments : Prop :=
  (forall (text : string) (parsed : JValue),
      JSON_parse rt text = Some parsed ->
      wellFormed parsed = true
      /\ (String.prefix "{" text = true -> isPlainObject parsed = true))
  /\ (forall (text : string) (parsed : JValue),
         JSON_parse rt text = Some parsed ->
         isObjectLike parsed = true ->
         Merge.plainMerge parsed (JObj []) = true)
  /\ (forall (text text' : string) (parsed parsed' : JValue),
         JSON_parse rt text = Some parsed ->
         JSON_parse rt text' = Some parsed' ->
         isObjectLike parsed = true ->
         isObjectLike parsed' = true ->
         Merge.plainMerge parsed' parsed = true).

(** What the accumulator holds after the first chunk: nothing, or an object
    or array that [JSON.parse] returned. *)
Definition accumulated (combined : JValue) : Prop :=
  combined = JObj []
  \/ exists text,
       JSON_parse rt text = Some combined /\ isObjectLike combined = true.

(** The [for] loop of lines 164-226 over the chunks it visits, [i] being
    the index of the first of them. *)
Fixpoint forChunks (i : nat) (chunks : list string) (contentType : string)
    (combinedAnalysis : JValue) : M JValue :=
  match chunks with
  | [] => ret combinedAnalysis
  | chunk :: rest =>
      response <- callCloudflareAI (extractionRequest contentType chunk) ;;
      combinedAnalysis' <- lift (absorb i combinedAnalysis response) ;;
      forChunks (S i) rest contentType combinedAnalysis'
  end.

(** The chunks of [chunkText], or [Beyond] when its loop did not end. *)
Definition chunksOf (text : string) (maxChunkSize : nat) : Run (list string) :=
  match Chunker.chunkText text maxChunkSize with
  | Some chunks => Ret chunks
  | None => Beyond
  end.

(** Lines 159-238. *)
Definition analyzeTextWithAI (text contentType : string) : M JValue :=
  try_catch
    (chunks <- lift (chunksOf text extractionChunkSize) ;;
     combinedAnalysis <-
       forChunks 0 (firstn (Nat.min (List.length chunks) 2) chunks) contentType
                 (JObj []) ;;
     if (0 <? List.length (Object_keys combinedAnalysis))%nat
     then ret combinedAnalysis
     else throw (Error "AI analysis failed"))
    (fun _ => fallbackAnalysis text contentType).

(** [inputText.split(/\s+/).filter(w => w.length > 0).length] *)
Definition countWords (inputText : string) : nat :=
  List.length (TextStats.words inputText).

(** Lines 351-413. *)
Definition analyzeText (inputText : string) : M AnalysisResult :=
  try_catch
    (if JsString.trim inputText =? ""
     then ret (failure "No text provided for analysis")
     else
       let wordCount := countWords inputText in
       if (wordCount <? 5)%nat
       then ret (failure "Text is too short for meaningful analysis")
       else if (50000 <? String.length inputText)%nat
       then ret (failure "Text is too long. Please limit to 50,000 characters or less.")
       else
         let contentType := Classifier.detectContentType inputText in
         try_catch
           (summary <- generateSummary inputText ;;
            structuredData <- analyzeTextWithAI inputText contentType ;;
            confidence <-
              lift (Confidence.calculateConfidence structuredData inputText) ;;
            let fields := FieldExtractor.extractFields structuredData "" in
            ret {| success := true;
                   data := Some {| structuredData := structuredData;
                                   fields := fields;
                                   inputType := contentType;
                                   confidence := confidence;
                                   summary := summary;
                                   wordCount := wordCount |};
                   error := None |})
           (fun analysisError =>
              ret (failure ("Analysis failed: " ++ messageOf analysisError))))
    (fun _ => ret (failure "An unexpected error occurred during text analysis")).

End WithRuntime.

(** The three checks of lines 353-368 all pass. *)
Definition accepted (inputText : string) : bool :=
  negb (JsString.trim inputText =? "")
  && negb (countWords inputText <? 5)%nat
  && negb (50000 <? String.length inputText)%nat.

(** The state in which a run starts. *)
Definition start {rt : Runtime} (w : World rt) : State rt :=
  {| world := w; sent := []; received := [] |}.

End Pipeline.

(* ================================================================== *)
(** ** Two runtimes to run the pipeline on *)

Module Runtimes.
Import Json Service.

(** No credentials are configured, and nothing else is ever consulted. *)
Definition offline : Runtime :=
  {| World := unit;
     credentials := false;
     fetch := fun _ w => (Rejected "offline", w);
     clock := fun _ => "2024-01-01T00:00:00.000Z";
     JSON_parse := fun _ => None;
     matchAll := fun _ _ => [];
     keyTerms := fun _ => JArr [];
     typeErrorMessage := "not a function" |}.

(** [JSON.parse] on the serializations of [documents], [None] elsewhere:
    it answers as the parser of the runtime does on every string that is
    one of these serializations or is not JSON at all. *)
Definition parseAmong (documents : list JValue) (s : string) : option JValue :=
  find (fun v => stringify v =? s) documents.

(** The service answers its [n]-th call with the [n]-th of [replies], as
    the body [{"result": {"response": reply}}]; the world is the number of
    calls made. *)
Definition scripted (replies : list string) (documents : list JValue) : Runtime :=
  {| World := nat;
     credentials := true;
     fetch := fun _ n =>
       (HttpOk (JObj [("result", JObj [("response", JStr (nth n replies ""))])]),
        S n);
     clock := fun _ => "2024-01-01T00:00:00.000Z";
     JSON_parse := parseAmong documents;
     matchAll := fun _ _ => [];
     keyTerms := fun _ => JArr [];
     typeErrorMessage := "not a function" |}.

End Runtimes.

(* ================================================================== *)
(** ** Concrete inputs *)

Module Samples.
Import Json Service.

Definition paperWithRecipe : string :=
  "Abstract: a recipe. Introduction: the ingredients. Conclusion: bake it.".

Definition recipeWithPaper : string :=
  "recipe and ingredients, with an abstract, an introduction and a conclusion".

(** Scenario 5 of the specification: the documents of two chunks and their
    merge. *)
Definition firstChunkResult : Fields :=
  [ ("a", JArr [int 1; int 2]); ("b", JStr "x") ].

Definition secondChunkResult : Fields :=
  [ ("a", JArr [int 2; int 3]); ("b", JStr "y"); ("c", int 5) ].

Definition mergedResult : Fields :=
  [ ("a", JArr [int 1; int 2; int 3]); ("b", JStr "x"); ("c", int 5) ].

(** A text of 4002 characters, which [chunkText] cuts in two at 3500. *)
Definition twoChunkText : string :=
  JsString.repeat_char "a" 3000 ++ ". " ++ JsString.repeat_char "b" 1000.

(** The service returns the two documents of scenario 5 as they are. *)
Definition bothStrict : Runtime :=
  Runtimes.scripted
    [ stringify (JObj firstChunkResult); stringify (JObj secondChunkResult) ]
    [ JObj firstChunkResult; JObj secondChunkResult ].

(** The same, with a sentence in front of the second document. *)
Definition secondRecovered : Runtime :=
  Runtimes.scripted
    [ stringify (JObj firstChunkResult);
      ("Here is the JSON: " ++ stringify (JObj secondChunkResult))%string ]
    [ JObj firstChunkResult; JObj secondChunkResult ].

(** Five words and 60,009 characters. *)
Definition longInput : string :=
  "a b c d e" ++ JsString.repeat_char "x" 60000.

(** Five words, no sentence. *)
Definition fiveDots : string := ". . . . .".

(** A document whose [metadata.analysis_method] is a number, and one where
    it is an object. *)
Definition numberedMethod : JValue :=
  JObj [ ("title", JStr "Report");
         ("metadata", JObj [ ("analysis_method", int 2) ]) ].

Definition describedMethod : JValue :=
  JObj [ ("title", JStr "Report");
         ("metadata",
          JObj [ ("analysis_method",
                  JObj [ ("name", JStr "entity extraction") ]) ]) ].

(** The service answers the summary request with a sentence and the
    extraction request with [numberedMethod]. *)
Definition numberedMethodService : Runtime :=
  Runtimes.scripted [ "A report."; stringify numberedMethod ] [ numberedMethod ].

(** A narrative of fifty words. *)
Definition narrative : string :=
  "Once upon a time a small fox lived near the quiet river. Every morning the fox walked along the bank and watched the water. One day a heron landed beside the fox and asked for directions to the sea. The fox pointed east and the heron flew away. Goodbye, friend.".

End Samples.

(* ================================================================== *)
(** ** [filteredData] of the page  (the search box over the result) *)

Module Page.
Import Json.

(** The test of lines 78-79: the key, or the serialized value, contains
    the search term, all three in lower case. *)
Definition matchesSearch (searchTerm key : string) (value : JValue) : bool :=
  JsString.includes (JsString.toLowerCase key) (JsString.toLowerCase searchTerm)
  || JsString.includes (JsString.toLowerCase (stringify value))
                       (JsString.toLowerCase searchTerm).

(** [filtered[key] = value] on the object that started as [{}]: the key
    [__proto__] reaches the setter of [Object.prototype] and leaves no own
    property. *)
Definition assign (key : string) (value : JValue) (filtered : Fields) : Fields :=
  if key =? "__proto__" then filtered else set key value filtered.

(** The [forEach] of lines 77-82 over the entries still to visit. *)
Fixpoint collect (searchTerm : string) (entries filtered : Fields) : Fields :=
  match entries with
  | [] => filtered
  | (key, value) :: rest =>
      collect searchTerm rest
              (if matchesSearch searchTerm key value
               then assign key value filtered else filtered)
  end.

(** [filteredData(data)] with the search term of the page. *)
Definition filteredData (searchTerm : string) (data : JValue) : JValue :=
  if searchTerm =? "" then data
  else JObj (collect searchTerm (Object_entries data) []).

End Page.

(* ================================================================== *)
(** ** Shapes of texts and documents that the properties speak of *)

Module Shapes.
Import Json.

(** The first [n] characters of [s] are whitespace. *)
Fixpoint blank_prefix (n : nat) (s : string) : Prop :=
  match n with
  | O => True
  | S n' =>
      match s with
      | "" => False
      | String c r => JsString.is_whitespace c = true /\ blank_prefix n' r
      end
  end.

(** [s] is empty or begins with a character that is not whitespace. *)
Definition starts_clean (s : string) : Prop :=
  match s with
  | "" => True
  | String c _ => JsString.is_whitespace c = false
  end.

(** No key of the document, at any depth that [extractFields] visits, has
    a full stop in it. *)
Fixpoint dotFree (v : JValue) : bool :=
  match v with
  | JObj fields =>
      forallb (fun kv => negb (JsString.includes (fst kv) ".") && dotFree (snd kv))
              fields
  | _ => true
  end.

(** No value of the object is a plain object. *)
Definition flat (fields : Fields) : bool :=
  forallb (fun kv => negb (isPlainObject (snd kv))) fields.

(** The body of a response of the service whose text is [text]. *)
Definition reply (text : string) : JValue :=
  JObj [ ("result", JObj [ ("response", JStr text) ]) ].

(** The character is not whitespace. *)
Definition visible (c : ascii) : bool := negb (JsString.is_whitespace c).

(** The character is not a backtick. *)
Definition plain_char (c : ascii) : bool := negb (Ascii.eqb c "`").

(** Every character of [s] satisfies [p]. *)
Fixpoint all_chars (p : ascii -> bool) (s : string) : bool :=
  match s with
  | "" => true
  | String c r => p c && all_chars p r
  end.

(** The character is not an opening brace; not a closing brace. *)
Definition not_open (c : ascii) : bool := negb (Ascii.eqb c "{").
Definition not_close (c : ascii) : bool := negb (Ascii.eqb c "}").

(** The messages with which [analyzeText] turns an input down before it
    calls the service (lines 353-368). *)
Definition rejections : list string :=
  [ "No text provided for analysis";
    "Text is too short for meaningful analysis";
    "Text is too long. Please limit to 50,000 characters or less." ].

(** An entry of [structure.paragraphs]: its three properties, with a
    preview of at most 103 characters and at least one word. *)
Definition paragraphEntry (index : Z) (entry : JValue) : Prop :=
  exists words preview,
    entry = JObj [ ("index", int index); ("word_count", int words);
                   ("preview", JStr preview) ]
    /\ (1 <= words)%Z
    /\ String.length preview <= 103.

End Shapes.

(* ================================================================== *)
(** ** More concrete inputs *)

Module MoreSamples.
Import Json Service.

(** A response in a fenced block, and the text inside it. *)
Definition fencedBody : string :=
  "{" ++ String Json.dquote "a" ++ String Json.dquote ":1}".

Definition fencedResponse : string :=
  "```json" ++ ResponseText.nl ++ fencedBody ++ ResponseText.nl ++ "```".

(** A document three objects deep below its top level. *)
Definition deepDocument : JValue :=
  JObj [ ("a", JObj [ ("b", JObj [ ("c", JObj [ ("d", JObj [ ("e", int 1) ]) ]) ]) ]);
         ("z", JArr [ JObj [ ("q", JNull) ] ]) ].

(** A result document to search in. *)
Definition searchable : Fields :=
  [ ("Title", JStr "Quarterly Report"); ("author", JStr "Ann");
    ("tags", JArr [ JStr "finance"; JStr "Q2" ]) ].

(** A sentence of 64 characters and 40 more: with a window of 90 the full
    stop at index 63 is a break point only because [90 * 0.7] is a double
    below 63. *)
Definition sentenceOf64 : string :=
  JsString.repeat_char "a" 63 ++ "." ++ JsString.repeat_char "b" 40.

(** The service answers every request with a sentence. *)
Definition proseOnly : Runtime :=
  Runtimes.scripted [ "I cannot help with that."; "Nothing to extract here." ] [].

(** A text of two paragraphs, the second longer than 100 characters. *)
Definition twoParagraphs : string :=
  "Short one." ++ ResponseText.nl ++ ResponseText.nl
  ++ JsString.repeat_char "w" 120 ++ " end. Five words are here.".

End MoreSamples.

(* ================================================================== *)
(** * Properties *)

(** ** The doubles of the chunker's test *)

Module Doubles.
Import JsNumber SpecFloat FloatOps FloatAxioms.
Local Open Scope Z_scope.

Lemma digits2_pos_bounds (p : positive) :
  2 ^ (Zpos (digits2_pos p) - 1) <= Zpos p < 2 ^ Zpos (digits2_pos p).
Proof.
  induction p as [p IH | p IH |]; cbn [digits2_pos].
  - rewrite Pos2Z.inj_succ.
    replace (Z.succ (Zpos (digits2_pos p)) - 1) with (Z.succ (Zpos (digits2_pos p) - 1)) by lia.
    rewrite !Z.pow_succ_r by lia. lia.
  - rewrite Pos2Z.inj_succ.
    replace (Z.succ (Zpos (digits2_pos p)) - 1) with (Z.succ (Zpos (digits2_pos p) - 1)) by lia.
    rewrite !Z.pow_succ_r by lia. lia.
  - simpl. lia.
Qed.

Lemma digits2_pos_unique (p : positive) (d : Z) :
  2 ^ (d - 1) <= Zpos p < 2 ^ d -> Zpos (digits2_pos p) = d.
Proof.
  intros [Hlow Hhigh].
  destruct (digits2_pos_bounds p) as [Hlow' Hhigh'].
  assert (Hd : 0 < d).
  { destruct (Z_lt_le_dec 0 d) as [|Hneg]; [assumption|].
    assert (2 ^ d <= 1).
    { destruct (Z.eq_dec d 0) as [->|]; [simpl; lia|].
      rewrite Z.pow_neg_r by lia. lia. }
    lia. }
  destruct (Z.lt_trichotomy (Zpos (digits2_pos p)) d) as [Hlt | [Heq | Hgt]];
    [|assumption|].
  - assert (2 ^ Zpos (digits2_pos p) <= 2 ^ (d - 1))
      by (apply Z.pow_le_mono_r; lia).
    lia.
  - assert (2 ^ d <= 2 ^ (Zpos (digits2_pos p) - 1))
      by (apply Z.pow_le_mono_r; lia).
    lia.
Qed.

Lemma digits2_pos_le (p q : positive) :
  (p <= q)%positive -> Zpos (digits2_pos p) <= Zpos (digits2_pos q).
Proof.
  intros Hle.
  destruct (digits2_pos_bounds p) as [Hp _].
  destruct (digits2_pos_bounds q) as [_ Hq].
  destruct (Z_lt_le_dec (Zpos (digits2_pos q)) (Zpos (digits2_pos p))) as [Hlt|];
    [|assumption].
  assert (2 ^ Zpos (digits2_pos q) <= 2 ^ (Zpos (digits2_pos p) - 1))
    by (apply Z.pow_le_mono_r; lia).
  lia.
Qed.

Lemma iter_xO_value (m d : positive) :
  Zpos (Pos.iter xO m d) = Zpos m * 2 ^ Zpos d.
Proof.
  revert m. induction d as [d IH | d IH |]; intros m; cbn [Pos.iter].
  - rewrite Pos2Z.inj_xO, !IH, Pos2Z.inj_xI.
    replace (2 * Zpos d + 1) with (Zpos d + Zpos d + 1) by lia.
    rewrite !Z.pow_add_r by lia. change (2 ^ 1) with 2. ring.
  - rewrite !IH. replace (Zpos d~0) with (Zpos d + Zpos d) by lia.
    rewrite Z.pow_add_r by lia. ring.
  - rewrite Pos2Z.inj_xO. change (2 ^ 1) with 2. lia.
Qed.


Lemma fexp_normal (d e : Z) :
  -1074 <= d + e - 53 -> fexp prec emax (d + e) = d + e - 53.
Proof. unfold fexp, SpecFloat.emin, prec, emax. lia. Qed.

Lemma shr_1_m (mrs : shr_record) :
  0 <= shr_m mrs -> shr_m (shr_1 mrs) = Z.shiftr (shr_m mrs) 1.
Proof.
  destruct mrs as [m r s]. cbn [shr_m].
  destruct m as [|[p|p|]|p]; intros Hm; try reflexivity. lia.
Qed.

Lemma shr_m_iter (p : positive) :
  forall mrs : shr_record,
    0 <= shr_m mrs ->
    shr_m (iter_pos shr_1 p mrs) = Z.shiftr (shr_m mrs) (Zpos p).
Proof.
  assert (Hstep : forall mrs, 0 <= shr_m mrs -> 0 <= shr_m (shr_1 mrs)).
  { intros mrs Hm. rewrite shr_1_m by assumption. apply Z.shiftr_nonneg. assumption. }
  induction p as [p IH | p IH |]; intros mrs Hm; cbn [iter_pos].
  - rewrite IH, IH, shr_1_m, !Z.shiftr_shiftr by
      (try lia; try (rewrite IH by auto; apply Z.shiftr_nonneg); auto).
    f_equal; lia.
  - rewrite IH, IH, !Z.shiftr_shiftr by
      (try lia; try (rewrite IH by auto; apply Z.shiftr_nonneg); auto).
    f_equal; lia.
  - apply shr_1_m. assumption.
Qed.

(** The shift that brings a mantissa of at least 53 digits back to 53. *)
Lemma shr_fexp_exact (Q : positive) (e : Z) :
  53 <= Zpos (digits2_pos Q) ->
  -1074 <= Zpos (digits2_pos Q) + e - 53 ->
  exists mrs,
    shr_fexp prec emax (Zpos Q) e loc_Exact
    = (mrs, e + (Zpos (digits2_pos Q) - 53))
    /\ shr_m mrs = Zpos Q / 2 ^ (Zpos (digits2_pos Q) - 53)
    /\ (Zpos (digits2_pos Q) = 53 ->
        mrs = Build_shr_record (Zpos Q) false false).
Proof.
  intros Hdigits Hnormal. unfold shr_fexp. cbn [Zdigits2 shr_record_of_loc].
  rewrite (fexp_normal _ _ Hnormal).
  replace (Zpos (digits2_pos Q) + e - 53 - e) with (Zpos (digits2_pos Q) - 53) by lia.
  destruct (Zpos (digits2_pos Q) - 53) as [|p|p] eqn:Hshift; try lia; cbn [shr].
  - eexists. split; [f_equal; lia|]. split; [|reflexivity].
    cbn [shr_m]. rewrite Z.div_1_r. reflexivity.
  - eexists. split; [reflexivity|]. split; [|lia].
    rewrite shr_m_iter by (cbn; lia). cbn [shr_m].
    apply Z.shiftr_div_pow2. lia.
Qed.

Lemma round_nearest_even_bounds (m : Z) (l : location) :
  m <= round_nearest_even m l <= m + 1.
Proof.
  destruct l as [|[| |]]; cbn [round_nearest_even]; try lia.
  destruct (Z.even m); lia.
Qed.

(** Rounding a mantissa that is not below a 53-digit one gives a double
    that is not below it either. *)
Lemma binary_round_aux_lower (M ma : positive) (e ea : Z) :
  Zpos (digits2_pos ma) = 53 ->
  -1074 <= ea ->
  e <= ea ->
  Zpos ma * 2 ^ (ea - e) <= Zpos M ->
  binary_round_aux prec emax false (Zpos M) e loc_Exact = S754_infinity false
  \/ exists mR eR,
       binary_round_aux prec emax false (Zpos M) e loc_Exact
       = S754_finite false mR eR
       /\ (ea < eR \/ eR = ea /\ (ma <= mR)%positive).
Proof.
  intros Hma Hea He HM.
  destruct (digits2_pos_bounds ma) as [Hma_low _]. rewrite Hma in Hma_low.
  destruct (digits2_pos_bounds M) as [HM_low HM_high].
  set (dM := Zpos (digits2_pos M)) in *.
  assert (Hpow : 0 < 2 ^ (ea - e)) by (apply Z.pow_pos_nonneg; lia).
  assert (HdM : 53 + (ea - e) <= dM).
  { assert (Hlt : 2 ^ (52 + (ea - e)) < 2 ^ dM).
    { rewrite Z.pow_add_r by lia. change (53 - 1) with 52 in Hma_low. nia. }
    apply Z.pow_lt_mono_r_iff in Hlt; lia. }
  assert (Hd1 : 53 <= dM) by lia.
  assert (Hn1 : -1074 <= dM + e - 53) by lia.
  destruct (shr_fexp_exact M e Hd1 Hn1) as (mrs1 & Hshr1 & Hq1 & _).
  fold dM in Hshr1, Hq1.
  assert (Hshift : 0 < 2 ^ (dM - 53)) by (apply Z.pow_pos_nonneg; lia).
  assert (Hq1_low : 2 ^ 52 <= shr_m mrs1).
  { rewrite Hq1. apply Z.div_le_lower_bound; [assumption|].
    rewrite <- Z.pow_add_r by lia.
    replace (dM - 53 + 52) with (dM - 1) by lia. assumption. }
  assert (Hq1_high : shr_m mrs1 < 2 ^ 53).
  { rewrite Hq1. apply Z.div_lt_upper_bound; [assumption|].
    rewrite <- Z.pow_add_r by lia.
    replace (dM - 53 + 53) with dM by lia. assumption. }
  pose proof (round_nearest_even_bounds (shr_m mrs1) (loc_of_shr_record mrs1))
    as Hround.
  unfold binary_round_aux. rewrite Hshr1.
  destruct (round_nearest_even (shr_m mrs1) (loc_of_shr_record mrs1))
    as [|Q2|Q2] eqn:HQ2; try lia.
  destruct (digits2_pos_bounds Q2) as [HQ2_low HQ2_high].
  assert (Hd2 : Zpos (digits2_pos Q2) = 53 \/ Zpos (digits2_pos Q2) = 54).
  { destruct (Z_lt_le_dec (Zpos Q2) (2 ^ 53)) as [Hlt|Hge].
    - left. apply digits2_pos_unique. change (53 - 1) with 52. lia.
    - right. apply digits2_pos_unique. change (54 - 1) with 53.
      change (2 ^ 54) with (2 * 2 ^ 53). lia. }
  assert (Hd2' : 53 <= Zpos (digits2_pos Q2)) by lia.
  assert (Hn2 : -1074 <= Zpos (digits2_pos Q2) + (e + (dM - 53)) - 53) by lia.
  destruct (shr_fexp_exact Q2 (e + (dM - 53)) Hd2' Hn2) as (mrs2 & Hshr2 & Hq2 & _).
  rewrite Hshr2.
  assert (HmR : exists mR, shr_m mrs2 = Zpos mR
                          /\ (Zpos (digits2_pos Q2) = 53 -> mR = Q2)).
  { destruct Hd2 as [Hd2|Hd2]; rewrite Hd2 in Hq2.
    - exists Q2. change (2 ^ (53 - 53)) with 1 in Hq2.
      rewrite Z.div_1_r in Hq2. auto.
    - rewrite Hd2 in HQ2_low. change (54 - 1) with 53 in HQ2_low.
      assert (HQ2_eq : Zpos Q2 = 2 ^ 53) by lia.
      rewrite HQ2_eq in Hq2. exists (Z.to_pos (2 ^ 52)).
      split; [rewrite Hq2; reflexivity | lia]. }
  destruct HmR as (mR & HmR & HmR_same). rewrite HmR.
  destruct (e + (dM - 53) + (Zpos (digits2_pos Q2) - 53) <=? emax - prec);
    [right | left; reflexivity].
  exists mR, (e + (dM - 53) + (Zpos (digits2_pos Q2) - 53)).
  split; [reflexivity|].
  destruct (Z_lt_le_dec ea (e + (dM - 53) + (Zpos (digits2_pos Q2) - 53)))
    as [Hgt|Hle]; [left; assumption | right].
  assert (Hd2_53 : Zpos (digits2_pos Q2) = 53) by lia.
  assert (HdM_eq : dM - 53 = ea - e) by lia.
  split; [lia|]. rewrite (HmR_same Hd2_53).
  assert (Hma_q1 : Zpos ma <= shr_m mrs1).
  { rewrite Hq1, HdM_eq. apply Z.div_le_lower_bound; [assumption | lia]. }
  lia.
Qed.


Lemma digits_of_sum (M ma : positive) (e ea : Z) :
  Zpos (digits2_pos ma) = 53 ->
  e <= ea ->
  Zpos ma * 2 ^ (ea - e) <= Zpos M ->
  53 + (ea - e) <= Zpos (digits2_pos M).
Proof.
  intros Hma He HM.
  destruct (digits2_pos_bounds ma) as [Hma_low _]. rewrite Hma in Hma_low.
  destruct (digits2_pos_bounds M) as [_ HM_high].
  assert (Hpow : 0 < 2 ^ (ea - e)) by (apply Z.pow_pos_nonneg; lia).
  assert (Hlt : 2 ^ (52 + (ea - e)) < 2 ^ Zpos (digits2_pos M)).
  { rewrite Z.pow_add_r by lia. change (53 - 1) with 52 in Hma_low. nia. }
  apply Z.pow_lt_mono_r_iff in Hlt; lia.
Qed.

Lemma binary_round_lower (M ma : positive) (e ea : Z) :
  Zpos (digits2_pos ma) = 53 ->
  -1074 <= ea ->
  e <= ea ->
  Zpos ma * 2 ^ (ea - e) <= Zpos M ->
  binary_round prec emax false M e = S754_infinity false
  \/ exists mR eR,
       binary_round prec emax false M e = S754_finite false mR eR
       /\ (ea < eR \/ eR = ea /\ (ma <= mR)%positive).
Proof.
  intros Hma Hea He HM.
  pose proof (digits_of_sum M ma e ea Hma He HM) as HdM.
  unfold binary_round.
  rewrite fexp_normal by lia. unfold shl_align.
  destruct (Zpos (digits2_pos M) + e - 53 - e) as [|p|p] eqn:Hshift; try lia;
    apply (binary_round_aux_lower M ma e ea); assumption.
Qed.

Lemma binary_round_aux_exact (M : positive) (e : Z) :
  Zpos (digits2_pos M) = 53 ->
  -1074 <= e <= 971 ->
  binary_round_aux prec emax false (Zpos M) e loc_Exact = S754_finite false M e.
Proof.
  intros HM He.
  assert (Hd : 53 <= Zpos (digits2_pos M)) by lia.
  assert (Hn : -1074 <= Zpos (digits2_pos M) + e - 53) by lia.
  destruct (shr_fexp_exact M e Hd Hn) as (mrs & Hshr & _ & Hmrs).
  rewrite (Hmrs HM), HM in Hshr. change (53 - 53) with 0 in Hshr.
  rewrite Z.add_0_r in Hshr.
  unfold binary_round_aux. rewrite Hshr.
  cbn [shr_m loc_of_shr_record round_nearest_even]. rewrite Hshr.
  cbn [shr_m].
  replace (e <=? emax - prec) with true
    by (symmetry; apply Z.leb_le; unfold emax, prec; lia).
  reflexivity.
Qed.

(** The double of a positive integer below 2^53 is the integer itself,
    with its digits moved to the top of the mantissa. *)
Lemma binary_normalize_integer (z : positive) :
  Zpos z < 2 ^ 53 ->
  exists m,
    binary_normalize prec emax (Zpos z) 0 false
    = S754_finite false m (Zpos (digits2_pos z) - 53)
    /\ Zpos (digits2_pos m) = 53
    /\ Zpos m = Zpos z * 2 ^ (53 - Zpos (digits2_pos z)).
Proof.
  intros Hz.
  destruct (digits2_pos_bounds z) as [Hz_low Hz_high].
  set (d := Zpos (digits2_pos z)) in *.
  assert (Hd_pos : 1 <= d) by (unfold d; lia).
  assert (Hd : d <= 53).
  { destruct (Z_lt_le_dec 53 d) as [Hgt|]; [|assumption].
    assert (2 ^ 53 <= 2 ^ (d - 1)) by (apply Z.pow_le_mono_r; lia). lia. }
  unfold binary_normalize, binary_round. fold d.
  rewrite fexp_normal by lia. unfold shl_align.
  destruct (d + 0 - 53 - 0) as [|k|k] eqn:Hshift; try lia.
  - exists z. assert (Hd53 : d = 53) by lia.
    split; [|split; [exact Hd53 | rewrite Hd53; change (2 ^ (53 - 53)) with 1; lia]].
    rewrite (binary_round_aux_exact z 0) by (fold d; lia).
    f_equal; lia.
  - assert (Hk : Zpos k = 53 - d) by lia.
    assert (Hvalue : Zpos (Pos.iter xO z k) = Zpos z * 2 ^ (53 - d))
      by (rewrite iter_xO_value, Hk; reflexivity).
    assert (Hpow : 0 < 2 ^ (53 - d)) by (apply Z.pow_pos_nonneg; lia).
    assert (Hdigits : Zpos (digits2_pos (Pos.iter xO z k)) = 53).
    { apply digits2_pos_unique. rewrite Hvalue. change (53 - 1) with 52. split.
      - replace 52 with ((d - 1) + (53 - d)) by lia.
        rewrite Z.pow_add_r by lia. nia.
      - replace 53 with (d + (53 - d)) at 2 by lia.
        rewrite Z.pow_add_r by lia. nia. }
    exists (Pos.iter xO z k). split; [|split; assumption].
    rewrite (binary_round_aux_exact (Pos.iter xO z k) (d + 0 - 53)) by lia.
    f_equal; lia.
Qed.

Lemma SFltb_finite (m1 m2 : positive) (e1 e2 : Z) :
  SFltb (S754_finite false m1 e1) (S754_finite false m2 e2) = true ->
  e1 < e2 \/ e1 = e2 /\ (m1 < m2)%positive.
Proof.
  unfold SFltb, SFcompare.
  destruct (Z.compare_spec e1 e2) as [Heq|Hlt|Hgt]; try discriminate; auto.
  change (Pos.compare_cont Eq m1 m2) with (Pos.compare m1 m2).
  destruct (Pos.compare_spec m1 m2); try discriminate. auto.
Qed.


Lemma binary_round_aux_sign (sx : bool) (mx ex : Z) (lx : location) :
  match binary_round_aux prec emax sx mx ex lx with
  | S754_zero s | S754_infinity s | S754_finite s _ _ => s = sx
  | S754_nan => True
  end.
Proof.
  unfold binary_round_aux.
  destruct (shr_fexp prec emax mx ex lx) as [mrs' e'].
  destruct (shr_fexp prec emax _ e' loc_Exact) as [mrs'' e''].
  destruct (shr_m mrs''); [reflexivity | | exact I].
  destruct (e'' <=? emax - prec); reflexivity.
Qed.

Lemma SFmul_not_negative (x y : spec_float) :
  not_negative x -> not_negative y -> not_negative (SFmul prec emax x y).
Proof.
  destruct x as [sx|sx| |sx mx ex], y as [sy|sy| |sy my ey];
    cbn [not_negative SFmul]; intros Hx Hy; subst; try reflexivity; try exact I.
  apply (binary_round_aux_sign (xorb false false)).
Qed.

Lemma shl_align_value (m : positive) (e e' : Z) :
  e' <= e -> Zpos (fst (shl_align m e e')) = Zpos m * 2 ^ (e - e').
Proof.
  intros He. unfold shl_align.
  destruct (e' - e) as [|d|d] eqn:Hd; try lia; cbn [fst].
  - replace (e - e') with 0 by lia. lia.
  - rewrite iter_xO_value. f_equal. f_equal. lia.
Qed.

Lemma SFadd_lower (ma : positive) (ea : Z) (x : spec_float) :
  Zpos (digits2_pos ma) = 53 ->
  -1074 <= ea ->
  not_negative x ->
  SFadd prec emax (S754_finite false ma ea) x = S754_nan
  \/ SFadd prec emax (S754_finite false ma ea) x = S754_infinity false
  \/ exists mT eT,
       SFadd prec emax (S754_finite false ma ea) x = S754_finite false mT eT
       /\ (ea < eT \/ eT = ea /\ (ma <= mT)%positive).
Proof.
  intros Hma Hea Hx.
  destruct x as [sx|sx| |sx mx ex]; cbn [not_negative] in Hx; subst;
    cbn [SFadd].
  - right. right. exists ma, ea. split; [reflexivity | right; split; lia].
  - right. left. reflexivity.
  - left. reflexivity.
  - cbn [cond_Zopp].
    pose proof (shl_align_value ma ea (Z.min ea ex) ltac:(lia)) as HA.
    set (A := fst (shl_align ma ea (Z.min ea ex))) in *.
    set (B := fst (shl_align mx ex (Z.min ea ex))).
    change (Zpos A + Zpos B) with (Zpos (A + B)). cbn [binary_normalize].
    destruct (binary_round_lower (A + B) ma (Z.min ea ex) ea Hma Hea)
      as [Hinf | (mR & eR & HR & Horder)]; try lia.
    + right. left. exact Hinf.
    + right. right. exists mR, eR. split; assumption.
Qed.

Lemma Prim2SF_ofLength (n : nat) :
  Prim2SF (ofLength n)
  = binary_normalize prec emax (Z.min (Z.of_nat n) maxLength) 0 false.
Proof.
  unfold ofLength. rewrite of_uint63_spec. f_equal.
  rewrite Uint63.of_Z_spec. apply Z.mod_small.
  unfold maxLength. change wB with 9223372036854775808. lia.
Qed.

(** The double of a length is zero or a positive double with a full
    mantissa, and a longer text has a double that is not smaller. *)
Lemma ofLength_shape (n : nat) :
  Z.min (Z.of_nat n) maxLength = 0 /\ Prim2SF (ofLength n) = S754_zero false
  \/ exists z m,
       Z.min (Z.of_nat n) maxLength = Zpos z
       /\ Prim2SF (ofLength n) = S754_finite false m (Zpos (digits2_pos z) - 53)
       /\ Zpos (digits2_pos m) = 53
       /\ Zpos m = Zpos z * 2 ^ (53 - Zpos (digits2_pos z)).
Proof.
  rewrite Prim2SF_ofLength.
  destruct (Z.min (Z.of_nat n) maxLength) as [|z|z] eqn:Hclamp.
  - left. split; reflexivity.
  - right.
    assert (Hz : Zpos z < 2 ^ 53).
    { change (2 ^ 53) with (maxLength + 1). lia. }
    destruct (binary_normalize_integer z Hz) as (m & Hm & Hdigits & Hvalue).
    exists z, m. repeat split; assumption.
  - unfold maxLength in Hclamp. lia.
Qed.

Lemma digits_le_53 (z : positive) : Zpos z < 2 ^ 53 -> 1 <= Zpos (digits2_pos z) <= 53.
Proof.
  intros Hz. destruct (digits2_pos_bounds z) as [Hlow _]. split; [lia|].
  destruct (Z_lt_le_dec 53 (Zpos (digits2_pos z))) as [Hgt|]; [|assumption].
  assert (2 ^ 53 <= 2 ^ (Zpos (digits2_pos z) - 1))
    by (apply Z.pow_le_mono_r; lia).
  lia.
Qed.

(** The test of line 80 fails for a break point before the cursor: the sum
    of the cursor and the non-negative [maxChunkSize * 0.7], rounded, is
    not below the cursor. *)
Theorem threshold_not_below_cursor (startIndex maxChunkSize : nat) (breakPoint : Z) :
  breakPoint < Z.of_nat startIndex ->
  PrimFloat.ltb (ofLength startIndex + ofLength maxChunkSize * 0.7)%float
                (ofIndex breakPoint) = false.
Proof.
  intros Hbefore.
  rewrite ltb_spec, add_spec, mul_spec.
  assert (Hx : not_negative (SF64mul (Prim2SF (ofLength maxChunkSize)) (Prim2SF 0.7))).
  { apply SFmul_not_negative.
    - destruct (ofLength_shape maxChunkSize) as [[_ ->] | (z & m & _ & -> & _)];
        reflexivity.
    - vm_compute. reflexivity. }
  set (x := SF64mul (Prim2SF (ofLength maxChunkSize)) (Prim2SF 0.7)) in *.
  clearbody x.
  assert (Hb : (breakPoint < 0
                /\ exists mb eb, Prim2SF (ofIndex breakPoint) = S754_finite true mb eb)
               \/ (0 <= breakPoint
                   /\ Prim2SF (ofIndex breakPoint)
                      = Prim2SF (ofLength (Z.to_nat breakPoint)))).
  { unfold ofIndex. destruct (breakPoint <? 0) eqn:Hneg.
    - apply Z.ltb_lt in Hneg. left. split; [assumption|].
      rewrite opp_spec.
      destruct (ofLength_shape (Z.to_nat (- breakPoint)))
        as [[Hzero _] | (z & m & _ & -> & _)].
      + unfold maxLength in Hzero. lia.
      + eexists _, _. reflexivity.
    - apply Z.ltb_ge in Hneg. right. split; [assumption | reflexivity]. }
  destruct (ofLength_shape startIndex)
    as [[Hs ->] | (zs & ms & Hs & -> & Hms & Hms_value)].
  - (* the cursor is at 0: the break point is -1 *)
    destruct Hb as [(_ & mb & eb & ->) | [Hnonneg _]];
      [|unfold maxLength in Hs; lia].
    destruct x as [sx|sx| |sx mx ex]; cbn [not_negative] in Hx; subst;
      reflexivity.
  - assert (Hzs : Zpos zs < 2 ^ 53).
    { change (2 ^ 53) with (maxLength + 1). lia. }
    pose proof (digits_le_53 zs Hzs) as Hds.
    destruct (SFadd_lower ms (Zpos (digits2_pos zs) - 53) x Hms ltac:(lia) Hx)
      as [HT | [HT | (mT & eT & HT & Horder)]];
      unfold SF64add; rewrite HT.
    + destruct (Prim2SF (ofIndex breakPoint)); reflexivity.
    + destruct Hb as [(_ & mb & eb & ->) | [Hnonneg ->]]; [reflexivity|].
      destruct (ofLength_shape (Z.to_nat breakPoint))
        as [[_ ->] | (zb & mb & _ & -> & _)]; reflexivity.
    + destruct Hb as [(_ & mb & eb & ->) | [Hnonneg ->]]; [reflexivity|].
      destruct (ofLength_shape (Z.to_nat breakPoint))
        as [[_ ->] | (zb & mb & Hb & -> & Hmb & Hmb_value)]; [reflexivity|].
      destruct (SFltb (S754_finite false mT eT)
                      (S754_finite false mb (Zpos (digits2_pos zb) - 53)))
        eqn:Hltb; [|reflexivity].
      apply SFltb_finite in Hltb. exfalso.
      assert (Hle : (zb <= zs)%positive) by lia.
      pose proof (digits2_pos_le zb zs Hle) as Hdigits.
      assert (Hsame : Zpos (digits2_pos zb) = Zpos (digits2_pos zs) ->
                      (mb <= ms)%positive).
      { intros Heq. rewrite Heq in Hmb_value.
        assert (0 < 2 ^ (53 - Zpos (digits2_pos zs)))
          by (apply Z.pow_pos_nonneg; lia).
        nia. }
      destruct Horder as [Hgt | [-> HmT]], Hltb as [Hlt | [Heq Hlt]]; lia.
Qed.

End Doubles.

(** ** The chunker *)

Module ChunkerProperties.
Import JsString Chunker.

Lemma lastIndexOf_scan_le (rest needle : string) :
  forall (i fromIndex : nat) (best : Z),
    (best <= Z.of_nat fromIndex)%Z ->
    (lastIndexOf_scan rest needle i fromIndex best <= Z.of_nat fromIndex)%Z.
Proof.
  induction rest as [|c r IH]; intros i fromIndex best Hbest;
    cbn [lastIndexOf_scan];
    destruct (fromIndex <? i)%nat eqn:Hpast; try assumption;
    apply Nat.ltb_ge in Hpast.
  - destruct (prefix needle ""); lia.
  - apply IH. destruct (prefix needle (String c r)); lia.
Qed.

Lemma lastIndexOf_le (s needle : string) (fromIndex : nat) :
  (lastIndexOf s needle fromIndex <= Z.of_nat fromIndex)%Z.
Proof. unfold lastIndexOf. apply lastIndexOf_scan_le. lia. Qed.

(** Each pass of the loop moves the cursor forward, and never past the end
    of the text. *)
Lemma cutIndex_advances (text : string) (maxChunkSize startIndex : nat) :
  1 <= maxChunkSize ->
  startIndex < String.length text ->
  startIndex < cutIndex text maxChunkSize startIndex <= String.length text.
Proof.
  intros Hmax Hstart. unfold cutIndex.
  set (endIndex := Nat.min (startIndex + maxChunkSize) (String.length text)).
  assert (Hend : startIndex < endIndex <= String.length text)
    by (unfold endIndex; lia).
  destruct (endIndex <? String.length text)%nat eqn:Hinside; [|exact Hend].
  apply Nat.ltb_lt in Hinside.
  set (breakPoint := Z.max (lastIndexOf text "." endIndex)
                           (lastIndexOf text blank_line endIndex)).
  assert (Hbp : (breakPoint <= Z.of_nat endIndex)%Z).
  { unfold breakPoint.
    pose proof (lastIndexOf_le text "." endIndex).
    pose proof (lastIndexOf_le text blank_line endIndex). lia. }
  destruct (PrimFloat.ltb
              (JsNumber.ofLength startIndex + JsNumber.ofLength maxChunkSize * 0.7)
              (JsNumber.ofIndex breakPoint)) eqn:Hbreak; [|exact Hend].
  destruct (Z_lt_le_dec breakPoint (Z.of_nat startIndex)) as [Hbefore|Hafter].
  - rewrite (Doubles.threshold_not_below_cursor _ maxChunkSize _ Hbefore) in Hbreak.
    discriminate Hbreak.
  - lia.
Qed.

(** With one unit of fuel for every character between the cursor and the
    end of the text, the loop ends. *)
Lemma chunkLoop_ends (text : string) (maxChunkSize : nat) :
  1 <= maxChunkSize ->
  forall (fuel startIndex : nat) (chunks : list string),
    String.length text - startIndex <= fuel ->
    exists result, chunkLoop fuel text maxChunkSize startIndex chunks = Some result.
Proof.
  intros Hmax fuel.
  induction fuel as [|fuel IH]; intros startIndex chunks Hfuel; simpl;
    destruct (startIndex <? String.length text)%nat eqn:Hin;
    try (eexists; reflexivity).
  - apply Nat.ltb_lt in Hin. lia.
  - apply Nat.ltb_lt in Hin.
    pose proof (cutIndex_advances text maxChunkSize startIndex Hmax Hin).
    apply IH. lia.
Qed.

Lemma chunkText_returns (text : string) (maxChunkSize : nat) :
  1 <= maxChunkSize -> exists chunks, chunkText text maxChunkSize = Some chunks.
Proof.
  intros Hmax. unfold chunkText.
  destruct (String.length text <=? maxChunkSize)%nat.
  - eexists; reflexivity.
  - apply chunkLoop_ends; [assumption | lia].
Qed.

(** The threshold is a double.  For the default size 3000 and the size
    3500 of the extractor the product of line 80 is an integer; for a size
    of 90 it is below 63, and the chunker cuts after a full stop at index
    63, where seven tenths of the size taken exactly would not. *)
Example threshold_is_a_double :
  PrimFloat.eqb (3000 * 0.7) 2100 = true
  /\ PrimFloat.eqb (3500 * 0.7) 2450 = true
  /\ PrimFloat.ltb (90 * 0.7) 63 = true
  /\ cutIndex MoreSamples.sentenceOf64 90 0 = 64
  /\ option_map (map String.length) (chunkText MoreSamples.sentenceOf64 90)
     = Some [64; 40].
Proof. repeat split; vm_compute; reflexivity. Qed.

(** Without that bound on the size the cursor can stay where it is: with a
    maximum of [0] the loop never leaves index [0]. *)
Example cutIndex_stuck_at_zero : cutIndex "abc" 0 0 = 0.
Proof. reflexivity. Qed.

(** C9.  For every text and every maximum chunk size of at least one
    character, each pass of the chunker's loop strictly increases the
    cursor, whether it cuts at the raw window edge or just after a break
    point (the two branches of [cutIndex]), and therefore the loop ends:
    started anywhere, with the fuel [chunkText] gives it, it returns.  The
    break-point branch is the comparison of doubles of line 80: a break
    point that passes it is not before the cursor
    ([Doubles.threshold_not_below_cursor]). *)
Theorem chunkText_cursor_advances_and_loop_ends :
  forall (text : string) (maxChunkSize : nat),
    1 <= maxChunkSize ->
    (forall startIndex,
        startIndex < String.length text ->
        startIndex < cutIndex text maxChunkSize startIndex <= String.length text)
    /\ (forall startIndex chunks,
           exists result,
             chunkLoop (String.length text) text maxChunkSize startIndex chunks
             = Some result)
    /\ (exists chunks, chunkText text maxChunkSize = Some chunks).
Proof.
  intros text maxChunkSize Hmax. repeat split.
  - apply cutIndex_advances; assumption.
  - apply cutIndex_advances; assumption.
  - intros startIndex chunks. apply chunkLoop_ends; [assumption | lia].
  - apply chunkText_returns; assumption.
Qed.

Lemma chunkText_cursor_advances_and_loop_ends_witness :
  1 <= 8
  /\ 0 < cutIndex "One. Two. Three." 8 0 <= 16
  /\ exists chunks, chunkText "One. Two. Three." 8 = Some chunks.
Proof.
  assert (Hmax : 1 <= 8) by (apply Nat.leb_le; reflexivity).
  destruct (chunkText_cursor_advances_and_loop_ends "One. Two. Three." 8 Hmax)
    as [Hcut [_ Hreturns]].
  split; [exact Hmax|]. split; [|exact Hreturns].
  apply (Hcut 0). apply Nat.ltb_lt. reflexivity.
Defined.

(** The chunks of that text: with a window of 8 the first cut falls just
    after a full stop, with a window of 6 every cut is at the window edge. *)
Example chunkText_sample :
  cutIndex "One. Two. Three." 8 0 = 9
  /\ chunkText "One. Two. Three." 8 = Some ["One. Two."; "Three."]
  /\ chunkText "One. Two. Three." 6 = Some ["One. T"; "wo. Th"; "ree."].
Proof. repeat split; reflexivity. Qed.

(** A text that fits in one chunk is returned as it is. *)
Lemma chunkText_fits (text : string) (maxChunkSize : nat) :
  String.length text <= maxChunkSize -> chunkText text maxChunkSize = Some [text].
Proof.
  intros Hfits. unfold chunkText.
  apply Nat.leb_le in Hfits. rewrite Hfits. reflexivity.
Qed.

(** C4, as the code has it.  For every text whose length is at most the
    chunk-size threshold, the chunker returns exactly one chunk, and that
    chunk is the input text itself, with the whitespace around it; so it
    is the trimmed text when trimming changes nothing. *)
Theorem chunkText_short_text_single_chunk :
  forall (text : string) (maxChunkSize : nat),
    String.length text <= maxChunkSize ->
    chunkText text maxChunkSize = Some [text]
    /\ (trim text = text -> chunkText text maxChunkSize = Some [trim text]).
Proof.
  intros text maxChunkSize Hfits. split.
  - apply chunkText_fits; assumption.
  - intros Htrim. rewrite Htrim. apply chunkText_fits; assumption.
Qed.

Lemma chunkText_short_text_single_chunk_witness :
  String.length " a short text " <= 20
  /\ chunkText " a short text " 20 = Some [" a short text "]
  /\ trim "a short text" = "a short text"
  /\ chunkText "a short text" 20 = Some [trim "a short text"].
Proof.
  assert (Hfits : String.length " a short text " <= 20)
    by (apply Nat.leb_le; reflexivity).
  assert (Hfits' : String.length "a short text" <= 20)
    by (apply Nat.leb_le; reflexivity).
  split; [exact Hfits|]. split; [|split; [reflexivity|]].
  - exact (proj1 (chunkText_short_text_single_chunk " a short text " 20 Hfits)).
  - exact (proj2 (chunkText_short_text_single_chunk "a short text" 20 Hfits')
             eq_refl).
Defined.

(** C4 as stated fails: a short text that begins with a space comes back
    with the space, which [trim] removes. *)
Lemma chunkText_short_text_not_trimmed :
  String.length " a" <= 10
  /\ chunkText " a" 10 = Some [" a"]
  /\ chunkText " a" 10 <> Some [trim " a"].
Proof.
  split; [simpl; lia|]. split; [reflexivity|]. discriminate.
Qed.

End ChunkerProperties.

(** ** The content-type classifier *)

Module ClassifierProperties.
Import JsString Classifier.

Lemma prefix_toLowerCase (s : string) :
  forall p, prefix p s = true -> prefix (toLowerCase p) (toLowerCase s) = true.
Proof.
  induction s as [|b s IH]; intros [|a p] Hp; simpl in *; try reflexivity;
    try discriminate.
  destruct (ascii_dec a b) as [Hab|]; [|discriminate]. subst a.
  destruct (ascii_dec (toLowerChar b) (toLowerChar b)) as [_|Hne];
    [apply IH; assumption | contradiction Hne; reflexivity].
Qed.

(** A text that contains a word contains it still after [toLowerCase],
    lowered. *)
Lemma includes_toLowerCase (s needle : string) :
  includes s needle = true ->
  includes (toLowerCase s) (toLowerCase needle) = true.
Proof.
  induction s as [|c s IH]; cbn [includes toLowerCase]; intros H;
    apply orb_true_iff in H; apply orb_true_iff.
  - destruct H as [H|H]; [|discriminate]. left.
    apply (prefix_toLowerCase "" needle H).
  - destruct H as [H|H].
    + left. apply (prefix_toLowerCase (String c s) needle H).
    + right. apply IH; assumption.
Qed.

(** [first_match] returns the label of the first rule that holds, and the
    default label when none does. *)
Lemma first_match_first (rs : list ((string -> bool) * string)) (text : string) :
  (exists before holds label after,
      rs = before ++ (holds, label) :: after
      /\ Forall (fun r => fst r text = false) before
      /\ holds text = true
      /\ first_match rs text = label)
  \/ (Forall (fun r => fst r text = false) rs
      /\ first_match rs text = "General Text").
Proof.
  induction rs as [|[holds label] rs IH]; simpl.
  - right. split; [constructor | reflexivity].
  - destruct (holds text) eqn:Hholds.
    + left. exists [], holds, label, rs. repeat split; [constructor | assumption].
    + destruct IH as [(before & h & l & after & -> & Hbefore & Hh & Hl) | [Hnone Hdefault]].
      * left. exists ((holds, label) :: before), h, l, after.
        repeat split; try assumption. constructor; assumption.
      * right. split; [constructor; assumption | assumption].
Qed.

Lemma detectContentType_is_first_match (text : string) :
  detectContentType text = classify_spec text.
Proof. reflexivity. Qed.

Lemma detectContentType_label (text : string) :
  In (detectContentType text) labels.
Proof.
  unfold detectContentType, labels.
  repeat match goal with
         | |- context [if ?b then _ else _] => destruct b
         end; simpl; auto 12.
Qed.

(** The first rule decides as soon as it holds, whatever the later rules
    say. *)
Lemma academic_rule_first (text : string) :
  includes (toLowerCase text) "abstract" = true ->
  includes (toLowerCase text) "introduction" = true ->
  includes (toLowerCase text) "conclusion" = true ->
  detectContentType text = "Academic Paper".
Proof.
  intros Ha Hi Hc. unfold detectContentType. rewrite Ha, Hi, Hc. reflexivity.
Qed.

(** C5.  The classifier is a total function of the text alone that goes
    through the rules of section 4.1 in their order: its result is the
    label of the first rule of the table [rules] that holds, and
    ["General Text"] when none holds, so it is always one of the ten
    labels.  In particular a text that contains "abstract", "introduction"
    and "conclusion" as well as "ingredients" and "recipe" (literally, or
    in any letter case) is an Academic Paper, not a Recipe. *)
Theorem detectContentType_first_rule_wins :
  (forall text, detectContentType text = first_match rules text)
  /\ (forall text,
         (exists before holds after,
             rules = before ++ (holds, detectContentType text) :: after
             /\ Forall (fun r => fst r text = false) before
             /\ holds text = true)
         \/ (Forall (fun r => fst r text = false) rules
             /\ detectContentType text = "General Text"))
  /\ (forall text, In (detectContentType text) labels)
  /\ (forall text,
         includes text "abstract" = true ->
         includes text "introduction" = true ->
         includes text "conclusion" = true ->
         includes text "ingredients" = true ->
         includes text "recipe" = true ->
         detectContentType text = "Academic Paper"
         /\ detectContentType text <> "Recipe")
  /\ (forall text,
         includes (toLowerCase text) "abstract" = true ->
         includes (toLowerCase text) "introduction" = true ->
         includes (toLowerCase text) "conclusion" = true ->
         includes (toLowerCase text) "ingredients" = true ->
         includes (toLowerCase text) "recipe" = true ->
         detectContentType text = "Academic Paper"
         /\ detectContentType text <> "Recipe").
Proof.
  assert (Hlower : forall text,
             includes (toLowerCase text) "abstract" = true ->
             includes (toLowerCase text) "introduction" = true ->
             includes (toLowerCase text) "conclusion" = true ->
             detectContentType text = "Academic Paper"
             /\ detectContentType text <> "Recipe").
  { intros text Ha Hi Hc. rewrite (academic_rule_first text Ha Hi Hc).
    split; [reflexivity | discriminate]. }
  split; [intros text; apply detectContentType_is_first_match|].
  split.
  { intros text. rewrite detectContentType_is_first_match. unfold classify_spec.
    destruct (first_match_first rules text)
      as [(before & holds & label & after & Hrules & Hbefore & Hholds & Hlabel)
         | [Hnone Hdefault]].
    - left. exists before, holds, after. rewrite Hlabel. auto.
    - right. auto. }
  split; [intros text; apply detectContentType_label|].
  split.
  - intros text Ha Hi Hc _ _. apply Hlower.
    + apply (includes_toLowerCase text "abstract" Ha).
    + apply (includes_toLowerCase text "introduction" Hi).
    + apply (includes_toLowerCase text "conclusion" Hc).
  - intros text Ha Hi Hc _ _. apply Hlower; assumption.
Qed.

Lemma detectContentType_first_rule_wins_witness :
  includes (toLowerCase Samples.paperWithRecipe) "ingredients" = true
  /\ includes (toLowerCase Samples.paperWithRecipe) "recipe" = true
  /\ detectContentType Samples.paperWithRecipe = "Academic Paper"
  /\ detectContentType Samples.paperWithRecipe <> "Recipe"
  /\ includes Samples.recipeWithPaper "ingredients" = true
  /\ includes Samples.recipeWithPaper "recipe" = true
  /\ detectContentType Samples.recipeWithPaper = "Academic Paper"
  /\ detectContentType Samples.recipeWithPaper <> "Recipe".
Proof.
  split; [reflexivity|]. split; [reflexivity|].
  split; [|split; [|split; [reflexivity|split; [reflexivity|]]]].
  - apply (proj2 (proj2 (proj2 (proj2 detectContentType_first_rule_wins)))
             Samples.paperWithRecipe); reflexivity.
  - apply (proj2 (proj2 (proj2 (proj2 detectContentType_first_rule_wins)))
             Samples.paperWithRecipe); reflexivity.
  - apply (proj1 (proj2 (proj2 (proj2 detectContentType_first_rule_wins)))
             Samples.recipeWithPaper); reflexivity.
Defined.

(** Every rule can be the first to hold. *)
Example detectContentType_samples :
  detectContentType "Ingredients: flour. Instructions: stir." = "Recipe"
  /\ detectContentType "Experience, education, skills" = "Resume/CV"
  /\ detectContentType "user@example.com password: hunter2" = "Credentials List"
  /\ detectContentType "Due on 2024-03-01" = "Date-based Content"
  /\ detectContentType "Due on 3/1/2024" = "Date-based Content"
  /\ detectContentType "Meeting agenda" = "Meeting Notes"
  /\ detectContentType "A story" = "Narrative/Story"
  /\ detectContentType "Product price" = "Product Information"
  /\ detectContentType "Hello there" = "General Text".
Proof. repeat split; reflexivity. Qed.

End ClassifierProperties.

(** ** The merge of two chunk results *)

Module MergeProperties.
Import Json Merge.

Lemma lookup_replace_same (key : string) (v : JValue) (o : Fields) :
  lookup key o <> None -> lookup key (replace key v o) = Some v.
Proof.
  induction o as [|[k x] r IH]; simpl; intros Hsome; [contradiction|].
  destruct (k =? key) eqn:Hk; simpl; rewrite Hk; [reflexivity | auto].
Qed.

Lemma lookup_replace_other (key key' : string) (v : JValue) (o : Fields) :
  key' <> key -> lookup key' (replace key v o) = lookup key' o.
Proof.
  intros Hne. induction o as [|[k x] r IH]; simpl; [reflexivity|].
  destruct (k =? key) eqn:Hk; simpl.
  - apply String.eqb_eq in Hk. subst k.
    destruct (key =? key') eqn:Hk'; [|reflexivity].
    apply String.eqb_eq in Hk'. congruence.
  - rewrite IH. reflexivity.
Qed.

Lemma lookup_insert_index_same (n : N) (key : string) (v : JValue) (o : Fields) :
  lookup key o = None -> lookup key (insert_index n key v o) = Some v.
Proof.
  induction o as [|[k x] r IH]; simpl; intros Hnone.
  - rewrite String.eqb_refl. reflexivity.
  - destruct (k =? key) eqn:Hk; [discriminate|].
    destruct (array_index k) as [m|]; [destruct (m <? n)%N|]; simpl;
      rewrite ?Hk, ?String.eqb_refl; auto.
Qed.

Lemma lookup_insert_index_other (n : N) (key key' : string) (v : JValue) (o : Fields) :
  key' <> key -> lookup key' (insert_index n key v o) = lookup key' o.
Proof.
  intros Hne.
  assert (Hkey : (key =? key') = false)
    by (apply String.eqb_neq; congruence).
  induction o as [|[k x] r IH]; simpl; [rewrite Hkey; reflexivity|].
  destruct (array_index k) as [m|]; [destruct (m <? n)%N|]; simpl;
    rewrite ?Hkey, ?IH; reflexivity.
Qed.

Lemma lookup_app_last (key key' : string) (v : JValue) (o : Fields) :
  lookup key' (o ++ [(key, v)])
  = match lookup key' o with
    | Some x => Some x
    | None => if key =? key' then Some v else None
    end.
Proof.
  induction o as [|[k x] r IH]; simpl; [reflexivity|].
  destruct (k =? key'); [reflexivity | exact IH].
Qed.

(** [o[key] = v] makes [o[key]] read [v] and leaves the other keys alone. *)
Lemma lookup_set_same (key : string) (v : JValue) (o : Fields) :
  lookup key (set key v o) = Some v.
Proof.
  unfold set. destruct (lookup key o) eqn:Hold.
  - apply lookup_replace_same. congruence.
  - destruct (array_index key).
    + apply lookup_insert_index_same; assumption.
    + rewrite lookup_app_last, Hold, String.eqb_refl. reflexivity.
Qed.

Lemma lookup_set_other (key key' : string) (v : JValue) (o : Fields) :
  key' <> key -> lookup key' (set key v o) = lookup key' o.
Proof.
  intros Hne. unfold set. destruct (lookup key o).
  - apply lookup_replace_other; assumption.
  - destruct (array_index key).
    + apply lookup_insert_index_other; assumption.
    + rewrite lookup_app_last.
      destruct (lookup key' o); [reflexivity|].
      destruct (key =? key') eqn:Hk; [|reflexivity].
      apply String.eqb_eq in Hk. congruence.
Qed.

Lemma mergeValue_object {T : Type} (ops : Ops T) (fs : Fields) (target : T) :
  mergeValue ops (JObj fs) target = forEachKey ops fs target.
Proof.
  cbn [mergeValue]. revert target.
  induction fs as [|[key sv] fs IH]; intros target; [reflexivity|].
  cbn [forEachKey]. unfold recurFor.
  destruct (mergeKey ops _ key sv target); auto.
Qed.

Lemma mergeAnalysisResults_forEachKey (source target : Fields) :
  mergeAnalysisResults target source = forEachKey objectOps source target.
Proof.
  apply mergeValue_object.
Qed.

(** The merge of an array is the merge of its indexed items. *)
Lemma mergeValue_array {T : Type} (ops : Ops T) (items : list JValue) (target : T) :
  mergeValue ops (JArr items) target = forEachKey ops (indexed 0 items) target.
Proof.
  cbn [mergeValue]. generalize 0. revert target.
  induction items as [|sv items IH]; intros target i; [reflexivity|].
  cbn [indexed forEachKey]. unfold recurFor.
  destruct (mergeKey ops _ (decimal (Z.of_nat i)) sv target); auto.
Qed.

(** The callback for one key touches no other key of [target]. *)
Lemma mergeKey_other (recur : JValue -> Run JValue) (key key' : string)
    (sv : JValue) (target target' : Fields) :
  mergeKey objectOps recur key sv target = Ret target' ->
  key' <> key ->
  lookup key' target' = lookup key' target.
Proof.
  unfold mergeKey. cbn [read assign hasLength objectOps andb].
  intros Hrun Hne.
  repeat match type of Hrun with
         | context [if ?b then _ else _] => destruct b
         | context [match ?x with _ => _ end] => destruct x
         end;
    try discriminate; inversion Hrun; subst;
    try reflexivity; apply lookup_set_other; assumption.
Qed.

Lemma forEachKey_other (key' : string) (fs : Fields) :
  forall target target',
    forEachKey objectOps fs target = Ret target' ->
    ~ In key' (keys fs) ->
    lookup key' target' = lookup key' target.
Proof.
  induction fs as [|[key sv] fs IH]; simpl; intros target target' Hrun Hnotin.
  - inversion Hrun. reflexivity.
  - destruct (mergeKey objectOps (recurFor sv) key sv target) as [t1| |] eqn:Hkey;
      try discriminate.
    rewrite (IH t1 target' Hrun) by tauto.
    apply (mergeKey_other _ _ _ _ _ _ Hkey). intros ->. tauto.
Qed.

(** Lines 243-248, when both sides hold an array. *)
Lemma mergeKey_arrays (recur : JValue -> Run JValue) (key : string)
    (ts ss : list JValue) (target : Fields) :
  lookup key target = Some (JArr ts) ->
  mergeKey objectOps recur key (JArr ss) target
  = Ret (set key (JArr (dedupe (ts ++ ss))) target).
Proof.
  intros Htarget. unfold mergeKey. cbn [read assign objectOps]. unfold get.
  rewrite Htarget. reflexivity.
Qed.

(** *** The array filter is first-occurrence deduplication *)

Lemma findIndex_app (p : JValue -> bool) (pre l : list JValue) :
  forall i,
    findIndex p (pre ++ l) i
    = match findIndex p pre i with
      | Some j => Some j
      | None => findIndex p l (i + List.length pre)
      end.
Proof.
  induction pre as [|x pre IH]; intros i; simpl.
  - rewrite Nat.add_0_r. reflexivity.
  - destruct (p x); [reflexivity|]. rewrite IH.
    replace (S i + List.length pre) with (i + S (List.length pre)) by lia.
    reflexivity.
Qed.

Lemma findIndex_bounds (p : JValue -> bool) (l : list JValue) :
  forall i j, findIndex p l i = Some j -> i <= j < i + List.length l.
Proof.
  induction l as [|x l IH]; intros i j; simpl; [discriminate|].
  destruct (p x).
  - intros [= <-]. lia.
  - intros Hj. apply IH in Hj. lia.
Qed.

Lemma findIndex_existsb (p : JValue -> bool) (l : list JValue) :
  forall i, existsb p l = match findIndex p l i with Some _ => true | None => false end.
Proof.
  induction l as [|x l IH]; intros i; simpl; [reflexivity|].
  destruct (p x); [reflexivity | apply IH].
Qed.

Lemma dedupe_from (combined : list JValue) :
  forall l pre seen,
    combined = pre ++ l ->
    seen_of seen pre ->
    filter_indexed
      (fun item index =>
         match findIndex (fun i => stringify i =? stringify item) combined 0 with
         | Some first => (first =? index)%nat
         | None => false
         end) l (List.length pre)
    = dedup_first seen l.
Proof.
  induction l as [|x r IH]; intros pre seen Hcombined Hseen; [reflexivity|].
  cbn [filter_indexed dedup_first].
  assert (Hnext : combined = (pre ++ [x]) ++ r)
    by (rewrite <- app_assoc; exact Hcombined).
  assert (Hlen : List.length (pre ++ [x]) = S (List.length pre))
    by (rewrite length_app; simpl; lia).
  rewrite Hseen, (findIndex_existsb _ pre 0).
  rewrite Hcombined at 1. rewrite findIndex_app.
  destruct (findIndex (fun i => stringify i =? stringify x) pre 0) as [j|] eqn:Hpre.
  - pose proof (findIndex_bounds _ _ _ _ Hpre) as Hj.
    replace (j =? List.length pre)%nat with false
      by (symmetry; apply Nat.eqb_neq; lia).
    rewrite <- Hlen. apply IH; [exact Hnext|].
    intros s. rewrite Hseen, existsb_app. simpl.
    destruct (stringify x =? s) eqn:Hs; rewrite ?orb_false_r; [|reflexivity].
    apply String.eqb_eq in Hs. subst s.
    rewrite (findIndex_existsb _ pre 0), Hpre. reflexivity.
  - simpl. rewrite String.eqb_refl, Nat.eqb_refl.
    f_equal. rewrite <- Hlen. apply IH; [exact Hnext|].
    intros s. simpl. rewrite Hseen, existsb_app. simpl.
    rewrite orb_false_r, (String.eqb_sym s), orb_comm. reflexivity.
Qed.

(** The filter of lines 246-248 keeps the first element of every
    serialization, in order. *)
Lemma dedupe_dedup_first (combined : list JValue) :
  dedupe combined = dedup_first [] combined.
Proof.
  unfold dedupe. apply (dedupe_from combined combined [] []); [reflexivity|].
  intros s. reflexivity.
Qed.

Lemma dedup_first_seen (l : list JValue) :
  forall seen x,
    In x (dedup_first seen l) -> ~ In (stringify x) seen.
Proof.
  induction l as [|y l IH]; intros seen x; simpl; [tauto|].
  destruct (existsb (String.eqb (stringify y)) seen) eqn:Hseen; [apply IH|].
  intros [<- | Hin].
  - intros Hx. apply Bool.not_true_iff_false in Hseen. apply Hseen.
    apply existsb_exists. exists (stringify y).
    split; [assumption | apply String.eqb_refl].
  - intros Hx. apply (IH _ _ Hin). right. assumption.
Qed.

(** No serialization occurs twice in the result. *)
Lemma dedup_first_NoDup (l : list JValue) :
  forall seen, NoDup (map stringify (dedup_first seen l)).
Proof.
  induction l as [|y l IH]; intros seen; simpl; [constructor|].
  destruct (existsb (String.eqb (stringify y)) seen); [apply IH|].
  simpl. constructor; [|apply IH].
  intros Hin. apply in_map_iff in Hin. destruct Hin as (x & Hser & Hx).
  apply dedup_first_seen in Hx. apply Hx. left. symmetry. assumption.
Qed.

(** Every serialization of the input is in the result, or was seen. *)
Lemma dedup_first_complete (l : list JValue) :
  forall seen x,
    In x l ->
    In (stringify x) seen \/ In (stringify x) (map stringify (dedup_first seen l)).
Proof.
  induction l as [|y l IH]; intros seen x; simpl; [tauto|].
  intros [-> | Hin].
  - destruct (existsb (String.eqb (stringify x)) seen) eqn:Hseen.
    + left. apply existsb_exists in Hseen. destruct Hseen as (s & Hs & Heq).
      apply String.eqb_eq in Heq. subst s. assumption.
    + right. left. reflexivity.
  - destruct (existsb (String.eqb (stringify y)) seen) eqn:Hseen.
    + apply IH; assumption.
    + destruct (IH (stringify y :: seen) x Hin) as [[Heq | Hs] | Hr].
      * right. left. assumption.
      * left. assumption.
      * right. right. assumption.
Qed.


(** *** Array indices *)

Lemma digits_value_acc (s : string) :
  forall acc : N,
    digits_value acc s
    = match digits_value 0 s with
      | Some v => Some (acc * 10 ^ N.of_nat (String.length s) + v)%N
      | None => None
      end.
Proof.
  induction s as [|c r IH]; intros acc.
  - cbn. f_equal. lia.
  - cbn [digits_value String.length]. destruct (JsString.is_digit c); [|reflexivity].
    rewrite IH, (IH (10 * 0 + _)%N).
    destruct (digits_value 0 r) as [v|]; [|reflexivity].
    f_equal. rewrite Nat2N.inj_succ, N.pow_succ_r'. lia.
Qed.

Lemma digits_value_cons (c : ascii) (r : string) (v : N) :
  digits_value 0 (String c r) = Some v ->
  JsString.is_digit c = true
  /\ exists w,
       digits_value 0 r = Some w
       /\ v = ((N_of_ascii c - 48) * 10 ^ N.of_nat (String.length r) + w)%N.
Proof.
  cbn [digits_value]. destruct (JsString.is_digit c); [|discriminate].
  rewrite digits_value_acc.
  destruct (digits_value 0 r) as [w|]; [|discriminate].
  intros [= <-]. split; [reflexivity|]. exists w. split; [reflexivity | lia].
Qed.

Lemma digits_value_bound (s : string) :
  forall v, digits_value 0 s = Some v -> (v < 10 ^ N.of_nat (String.length s))%N.
Proof.
  induction s as [|c r IH]; intros v Hv.
  - cbn in Hv. injection Hv as <-. cbn. lia.
  - apply digits_value_cons in Hv. destruct Hv as (Hc & w & Hw & ->).
    specialize (IH w Hw).
    cbn [String.length]. rewrite Nat2N.inj_succ, N.pow_succ_r'.
    unfold JsString.is_digit in Hc. apply andb_true_iff in Hc.
    destruct Hc as [_ Hhigh]. apply N.leb_le in Hhigh. nia.
Qed.

Lemma digit_inj (c c' : ascii) :
  JsString.is_digit c = true ->
  JsString.is_digit c' = true ->
  (N_of_ascii c - 48 = N_of_ascii c' - 48)%N ->
  c = c'.
Proof.
  unfold JsString.is_digit. intros Hc Hc' Heq.
  apply andb_true_iff in Hc, Hc'.
  destruct Hc as [Hc _], Hc' as [Hc' _]. apply N.leb_le in Hc, Hc'.
  rewrite <- (ascii_N_embedding c), <- (ascii_N_embedding c').
  f_equal. lia.
Qed.

Lemma digits_value_inj (s : string) :
  forall s' v,
    String.length s = String.length s' ->
    digits_value 0 s = Some v ->
    digits_value 0 s' = Some v ->
    s = s'.
Proof.
  induction s as [|c r IH]; intros [|c' r'] v Hlen Hs Hs'; try discriminate;
    [reflexivity|].
  cbn [String.length] in Hlen. injection Hlen as Hlen.
  apply digits_value_cons in Hs, Hs'.
  destruct Hs as (Hc & w & Hw & Hv), Hs' as (Hc' & w' & Hw' & Hv').
  pose proof (digits_value_bound r w Hw) as Hbound.
  pose proof (digits_value_bound r' w' Hw') as Hbound'.
  rewrite <- Hlen in Hv', Hbound'.
  set (P := (10 ^ N.of_nat (String.length r))%N) in *.
  set (d := (N_of_ascii c - 48)%N) in *.
  set (d' := (N_of_ascii c' - 48)%N) in *.
  assert (Hq : d = (v / P)%N) by (apply (N.div_unique v P d w); lia).
  assert (Hq' : d' = (v / P)%N) by (apply (N.div_unique v P d' w'); lia).
  assert (Hd : d = d') by congruence.
  assert (Hw_eq : w = w') by nia. subst w'.
  f_equal; [apply digit_inj; assumption | apply (IH r' w); assumption].
Qed.

(** A key that is an array index is [0], or a numeral that begins with a
    digit other than 0. *)
Lemma array_index_numeral (key : string) (i : N) :
  array_index key = Some i ->
  key = "0" /\ i = 0%N
  \/ exists c r,
       key = String c r /\ c <> "0"%char /\ digits_value 0 key = Some i.
Proof.
  destruct key as [|c r]; [discriminate|].
  destruct (ascii_dec c "0") as [->|Hc].
  - destruct r; [intros [= <-]; left; split; reflexivity | discriminate].
  - intros Hindex. right. exists c, r. split; [reflexivity|]. split; [assumption|].
    assert (Hgeneral :
              array_index (String c r)
              = if (String.length (String c r) <=? 10)%nat then
                  match digits_value 0 (String c r) with
                  | Some n => if (n <? 4294967295)%N then Some n else None
                  | None => None
                  end
                else None).
    { destruct c as [[] [] [] [] [] [] [] []]; try reflexivity.
      contradiction Hc. reflexivity. }
    rewrite Hgeneral in Hindex.
    destruct (String.length (String c r) <=? 10)%nat; [|discriminate].
    destruct (digits_value 0 (String c r)) as [n|]; [|discriminate].
    destruct (n <? 4294967295)%N; [congruence | discriminate].
Qed.

Lemma numeral_low (c : ascii) (r : string) (v : N) :
  c <> "0"%char ->
  digits_value 0 (String c r) = Some v ->
  (10 ^ N.of_nat (String.length r) <= v)%N.
Proof.
  intros Hc Hv. apply digits_value_cons in Hv.
  destruct Hv as (Hdigit & w & _ & ->).
  assert (Hnonzero : (N_of_ascii c - 48 <> 0)%N).
  { intros Hzero. apply Hc. apply digit_inj; [assumption | reflexivity|].
    rewrite Hzero. reflexivity. }
  nia.
Qed.

(** Two keys that are the same array index are the same key. *)
Lemma array_index_inj (key key' : string) (i : N) :
  array_index key = Some i -> array_index key' = Some i -> key = key'.
Proof.
  intros Hkey Hkey'.
  apply array_index_numeral in Hkey, Hkey'.
  destruct Hkey as [[-> ->] | (c & r & -> & Hc & Hv)],
           Hkey' as [[-> Hi] | (c' & r' & -> & Hc' & Hv')];
    try reflexivity.
  - pose proof (numeral_low c' r' _ Hc' Hv') as Hlow.
    assert (0 < 10 ^ N.of_nat (String.length r'))%N by (apply N.neq_0_lt_0, N.pow_nonzero; lia).
    lia.
  - subst i. pose proof (numeral_low c r _ Hc Hv) as Hlow.
    assert (0 < 10 ^ N.of_nat (String.length r))%N by (apply N.neq_0_lt_0, N.pow_nonzero; lia).
    lia.
  - apply (digits_value_inj _ _ i); try assumption.
    pose proof (numeral_low c r _ Hc Hv) as Hlow.
    pose proof (numeral_low c' r' _ Hc' Hv') as Hlow'.
    pose proof (digits_value_bound _ _ Hv) as Hhigh.
    pose proof (digits_value_bound _ _ Hv') as Hhigh'.
    cbn [String.length] in *.
    destruct (Nat.lt_trichotomy (String.length r) (String.length r'))
      as [Hlt | [Heq | Hgt]]; [exfalso | congruence | exfalso].
    + assert (10 ^ N.of_nat (S (String.length r)) <= 10 ^ N.of_nat (String.length r'))%N
        by (apply N.pow_le_mono_r; lia).
      lia.
    + assert (10 ^ N.of_nat (S (String.length r')) <= 10 ^ N.of_nat (String.length r))%N
        by (apply N.pow_le_mono_r; lia).
      lia.
Qed.

(** *** The slots of an array *)

Lemma slot_put_same (i : nat) (v : JValue) :
  forall slots, slot i (put i v slots) = Some v.
Proof.
  unfold slot. induction i as [|i IH]; intros [|x r]; cbn; auto.
Qed.

Lemma slot_put_other (i j : nat) (v : JValue) :
  i <> j -> forall slots, slot j (put i v slots) = slot j slots.
Proof.
  unfold slot. revert j.
  induction i as [|i IH]; intros [|j] Hne [|x r]; cbn; try reflexivity;
    try contradiction.
  - destruct j; reflexivity.
  - rewrite (IH j) by congruence. destruct j; reflexivity.
  - apply (IH j); congruence.
Qed.

Lemma getArray_index (a : ArrayTarget) (key : string) (i : N) :
  array_index key = Some i ->
  getArray a key = match slot (N.to_nat i) (fst a) with
                   | Some v => Own v
                   | None => Undefined
                   end.
Proof.
  intros Hkey. unfold getArray, slot. rewrite Hkey.
  destruct (nth_error (fst a) (N.to_nat i)) as [[v|]|]; reflexivity.
Qed.

(** *** The two kinds of target are lawful *)

Lemma reservedKey_length (key : string) :
  reservedKey key = false -> (key =? "length") = false.
Proof.
  unfold reservedKey. intros H. apply orb_false_iff in H. tauto.
Qed.

Lemma objectOps_lawful : Lawful objectOps.
Proof.
  split; cbn [read assign objectOps]; unfold get.
  - intros key v t key' Hne _. rewrite lookup_set_other by assumption. reflexivity.
  - intros t key. destruct (lookup key t); [discriminate|].
    destruct (key =? "__proto__"); [discriminate|].
    destruct (existsb (String.eqb key) prototype_methods); discriminate.
  - intros t key. destruct (lookup key t); [discriminate|].
    destruct (key =? "__proto__") eqn:Hkey; [|destruct (existsb _ _); discriminate].
    intros _. apply String.eqb_eq. assumption.
Qed.

Lemma arrayOps_lawful : Lawful arrayOps.
Proof.
  split; cbn [read assign arrayOps].
  - intros key v [slots props] key' Hne Hreserved.
    apply reservedKey_length in Hreserved.
    unfold setArray. cbn [fst snd].
    destruct (array_index key) as [i|] eqn:Hkey.
    + destruct (array_index key') as [i'|] eqn:Hkey'.
      * rewrite !(getArray_index _ key' i' Hkey'). cbn [fst].
        rewrite slot_put_other; [reflexivity|].
        intros Hsame. apply Hne. apply N2Nat.inj in Hsame. subst i'.
        apply (array_index_inj key' key i); assumption.
      * unfold getArray. rewrite Hkey', Hreserved. reflexivity.
    + destruct (array_index key') as [i'|] eqn:Hkey'.
      * rewrite !(getArray_index _ key' i' Hkey'). reflexivity.
      * unfold getArray. rewrite Hkey', Hreserved. cbn [fst snd].
        rewrite lookup_set_other by assumption. reflexivity.
  - intros a key. unfold getArray, reservedKey.
    destruct (array_index key) as [i|];
      [destruct (nth_error (fst a) (N.to_nat i)) as [[x|]|]; discriminate|].
    destruct (key =? "length"); [discriminate|].
    destruct (lookup key (snd a)); [discriminate|].
    destruct (key =? "__proto__"); [discriminate|].
    destruct (existsb (String.eqb key) (array_methods ++ prototype_methods));
      [discriminate|].
    destruct (existsb (String.eqb key) later_array_methods); [reflexivity | discriminate].
  - intros a key. unfold getArray.
    destruct (array_index key) as [i|];
      [destruct (nth_error (fst a) (N.to_nat i)) as [[x|]|]; discriminate|].
    destruct (key =? "length"); [discriminate|].
    destruct (lookup key (snd a)); [discriminate|].
    destruct (key =? "__proto__") eqn:Hkey.
    + intros _. apply String.eqb_eq. assumption.
    + destruct (existsb (String.eqb key) (array_methods ++ prototype_methods));
        [discriminate|].
      destruct (existsb (String.eqb key) later_array_methods); discriminate.
Qed.

(** *** The keys of an array *)

Lemma to_int_not_nil (z : Z) :
  Z.to_int z <> Decimal.Pos Decimal.Nil /\ Z.to_int z <> Decimal.Neg Decimal.Nil.
Proof.
  destruct z as [|p|p]; cbn [Z.to_int]; split; try discriminate;
    intros [= Hnil]; apply (DecimalPos.Unsigned.to_uint_nonnil p Hnil).
Qed.

Lemma decimal_inj (z z' : Z) : decimal z = decimal z' -> z = z'.
Proof.
  unfold decimal. intros Heq.
  apply (f_equal NilZero.int_of_string) in Heq.
  destruct (to_int_not_nil z) as [Hpos Hneg], (to_int_not_nil z') as [Hpos' Hneg'].
  rewrite !NilZero.isi in Heq by assumption.
  injection Heq as Heq. apply DecimalZ.to_int_inj. assumption.
Qed.

(** The numeral of an index begins with a digit. *)
Lemma decimal_digit (i : nat) :
  exists c r, decimal (Z.of_nat i) = String c r /\ JsString.is_digit c = true.
Proof.
  unfold decimal. destruct (Z.of_nat i) as [|p|p] eqn:Hi; try lia;
    cbn [Z.to_int NilZero.string_of_int].
  - exists "0"%char, "". split; reflexivity.
  - pose proof (DecimalPos.Unsigned.to_uint_nonnil p) as Hnil.
    destruct (Pos.to_uint p) as [|d|d|d|d|d|d|d|d|d|d];
      [contradiction Hnil; reflexivity | | | | | | | | | |];
      cbn; eexists _, _; split; reflexivity.
Qed.

Lemma digit_key_ordinary (c : ascii) (r : string) :
  JsString.is_digit c = true ->
  reservedKey (String c r) = false /\ (String c r =? "__proto__") = false.
Proof.
  intros Hdigit.
  destruct c as [[] [] [] [] [] [] [] []]; try discriminate Hdigit;
    split; reflexivity.
Qed.

Lemma indexed_keys (items : list JValue) :
  forall i key,
    In key (keys (indexed i items)) ->
    exists j, i <= j /\ key = decimal (Z.of_nat j).
Proof.
  induction items as [|x items IH]; intros i key; cbn; [intros []|].
  intros [<- | Hin]; [exists i; split; [lia | reflexivity]|].
  destruct (IH (S i) key Hin) as (j & Hj & ->). exists j. split; [lia | reflexivity].
Qed.

Lemma indexed_NoDup (items : list JValue) :
  forall i, NoDup (keys (indexed i items)).
Proof.
  induction items as [|x items IH]; intros i; cbn; constructor; [|apply IH].
  intros Hin. apply indexed_keys in Hin. destruct Hin as (j & Hj & Heq).
  apply decimal_inj in Heq. lia.
Qed.

Lemma indexed_values (items : list JValue) :
  forall i kv, In kv (indexed i items) -> In (snd kv) items.
Proof.
  induction items as [|x items IH]; intros i kv; cbn; [intros []|].
  intros [<- | Hin]; [left; reflexivity | right; apply (IH (S i)); assumption].
Qed.

(** *** The merge returns *)

Lemma JValue_nested_ind (P : JValue -> Prop) :
  P JNull ->
  (forall b, P (JBool b)) ->
  (forall n, P (JNum n)) ->
  (forall s, P (JStr s)) ->
  (forall items, Forall P items -> P (JArr items)) ->
  (forall fields, Forall (fun kv => P (snd kv)) fields -> P (JObj fields)) ->
  (forall slots props,
      Forall (fun slot => match slot with Some x => P x | None => True end) slots ->
      Forall (fun kv => P (snd kv)) props ->
      P (JArrWith slots props)) ->
  forall v, P v.
Proof.
  intros Hnull Hbool Hnum Hstr Harr Hobj Hwith.
  fix IH 1.
  intros [| b | n | s | items | fields | slots props];
    [apply Hnull | apply Hbool | apply Hnum | apply Hstr | | | ].
  - apply Harr. induction items as [|x r IHr]; constructor; [apply IH | exact IHr].
  - apply Hobj.
    induction fields as [|[k x] r IHr]; constructor; [apply IH | exact IHr].
  - apply Hwith.
    + induction slots as [|[x|] r IHr]; constructor;
        [apply IH | exact IHr | exact I | exact IHr].
    + induction props as [|[k x] r IHr]; constructor; [apply IH | exact IHr].
Qed.

Lemma distinct_NoDup (l : list string) : distinct l = true -> NoDup l.
Proof.
  induction l as [|k r IH]; simpl; intros H; [constructor|].
  apply andb_true_iff in H. destruct H as [Hfresh Hrest].
  constructor; [|apply IH; assumption].
  intros Hin. apply negb_true_iff in Hfresh.
  apply Bool.not_true_iff_false in Hfresh. apply Hfresh.
  apply existsb_exists. exists k. split; [assumption | apply String.eqb_refl].
Qed.

Lemma lookup_In (key : string) (o : Fields) (v : JValue) :
  lookup key o = Some v -> In (key, v) o.
Proof.
  induction o as [|[k x] r IH]; simpl; [discriminate|].
  destruct (k =? key) eqn:Hk.
  - apply String.eqb_eq in Hk. subst k. intros [= ->]. left. reflexivity.
  - intros H. right. apply IH. assumption.
Qed.

(** The callback for one key leaves what the target reads at the other
    keys. *)
Lemma mergeKey_read_other {T : Type} (ops : Ops T) (Hlaw : Lawful ops)
    (recur : JValue -> Run JValue) (key key' : string) (sv : JValue)
    (target target' : T) :
  mergeKey ops recur key sv target = Ret target' ->
  key' <> key ->
  reservedKey key' = false ->
  read ops target' key' = read ops target key'.
Proof.
  unfold mergeKey. intros Hrun Hne Hreserved.
  repeat match type of Hrun with
         | context [if ?b then _ else _] => destruct b
         | context [match ?x with _ => _ end] => destruct x
         end;
    try discriminate; inversion Hrun; subst;
    try reflexivity; apply (read_other ops Hlaw); assumption.
Qed.

(** The callback for one key returns when the key and the value are
    ordinary and the recursive call returns. *)
Lemma mergeKey_total {T : Type} (ops : Ops T) (Hlaw : Lawful ops)
    (recur : JValue -> Run JValue) (key : string) (sv : JValue) (target : T) :
  reservedKey key = false ->
  (key =? "__proto__") && isObjectLike sv = false ->
  wellFormed sv = true ->
  (forall v, read ops target key = Own v -> wellFormed v = true) ->
  (forall v,
      wellFormed v = true -> isObjectLike v = true -> isObjectLike sv = true ->
      exists v', recur v = Ret v') ->
  exists target', mergeKey ops recur key sv target = Ret target'.
Proof.
  intros Hreserved Hproto Hsv Hparsed Hrecur.
  pose proof (reservedKey_length key Hreserved) as Hlength.
  unfold mergeKey. rewrite Hlength, andb_false_r.
  destruct (read ops target key) as [|v| | |] eqn:Hread.
  - cbn [read_isArray read_isObjectLike read_truthy negb].
    rewrite !andb_false_r. eexists; reflexivity.
  - specialize (Hparsed v eq_refl).
    cbn [read_isArray read_isObjectLike read_truthy].
    destruct (isArray sv && isArray v) eqn:Harrays.
    + apply andb_true_iff in Harrays. destruct Harrays as [Hs Hv].
      destruct sv; try discriminate; destruct v; try discriminate.
      eexists; reflexivity.
    + destruct (isObjectLike sv && isObjectLike v) eqn:Hobjects.
      * apply andb_true_iff in Hobjects. destruct Hobjects as [Hs Hv].
        destruct (Hrecur v Hparsed Hv Hs) as [v' ->]. eexists; reflexivity.
      * destruct (negb (truthy v)); eexists; reflexivity.
  - cbn [read_isArray read_isObjectLike read_truthy negb].
    rewrite !andb_false_r. eexists; reflexivity.
  - pose proof (read_proto ops Hlaw _ _ Hread) as ->.
    cbn [String.eqb Ascii.eqb Bool.eqb andb] in Hproto.
    cbn [read_isArray read_isObjectLike read_truthy negb].
    rewrite andb_false_r, andb_true_r, Hproto. eexists; reflexivity.
  - pose proof (read_engine ops Hlaw _ _ Hread). congruence.
Qed.

Lemma forEachKey_total {T : Type} (ops : Ops T) (Hlaw : Lawful ops) (fs : Fields) :
  NoDup (keys fs) ->
  Forall (fun kv =>
            reservedKey (fst kv) = false
            /\ (fst kv =? "__proto__") && isObjectLike (snd kv) = false
            /\ wellFormed (snd kv) = true
            /\ (forall v,
                   wellFormed v = true -> isObjectLike v = true ->
                   isObjectLike (snd kv) = true ->
                   exists v', recurFor (snd kv) v = Ret v')) fs ->
  forall target,
    parsedAt ops (keys fs) target ->
    exists target', forEachKey ops fs target = Ret target'.
Proof.
  induction fs as [|[key sv] fs IH]; intros Hnodup Hentries target Hparsed.
  - exists target. reflexivity.
  - cbn [keys map fst] in Hnodup. inversion Hnodup as [|? ? Hfresh Hrest]; subst.
    inversion Hentries as [|? ? (Hreserved & Hproto & Hsv & Hrecur) Hlater]; subst.
    cbn [fst snd] in *.
    destruct (mergeKey_total ops Hlaw (recurFor sv) key sv target
                Hreserved Hproto Hsv) as [t1 Hkey].
    { intros v Hread. apply (Hparsed key v); [left; reflexivity | assumption]. }
    { exact Hrecur. }
    cbn [forEachKey]. rewrite Hkey. apply IH; try assumption.
    intros key' v Hin Hread.
    assert (Hne : key' <> key) by (intros ->; contradiction).
    assert (Hreserved' : reservedKey key' = false).
    { rewrite Forall_forall in Hlater. unfold keys in Hin.
      apply in_map_iff in Hin. destruct Hin as (kv & <- & Hkv).
      apply (Hlater kv Hkv). }
    rewrite (mergeKey_read_other ops Hlaw _ _ _ _ _ _ Hkey Hne Hreserved') in Hread.
    apply (Hparsed key' v); [right; assumption | assumption].
Qed.

Lemma parsedAt_object (sub : Fields) (ks : list string) :
  wellFormed (JObj sub) = true -> parsedAt objectOps ks sub.
Proof.
  cbn [wellFormed]. intros Hwf key v _.
  apply andb_true_iff in Hwf. destruct Hwf as [_ Hvalues].
  rewrite forallb_forall in Hvalues.
  cbn [read objectOps]. unfold get.
  destruct (lookup key sub) as [x|] eqn:Hx.
  - intros [= <-]. apply (Hvalues (key, x)). apply lookup_In. assumption.
  - destruct (key =? "__proto__"); [discriminate|].
    destruct (existsb (String.eqb key) prototype_methods); discriminate.
Qed.

Lemma parsedAt_array (items : list JValue) (ks : list string) :
  wellFormed (JArr items) = true ->
  (forall key, In key ks -> reservedKey key = false) ->
  parsedAt arrayOps ks (map Some items, []).
Proof.
  cbn [wellFormed]. intros Hwf Hkeys key v Hin.
  rewrite forallb_forall in Hwf.
  pose proof (reservedKey_length key (Hkeys key Hin)) as Hlength.
  cbn [read arrayOps]. unfold getArray. cbn [fst snd lookup].
  destruct (array_index key) as [i|].
  - destruct (nth_error (map Some items) (N.to_nat i)) as [[x|]|] eqn:Hnth;
      try discriminate.
    intros [= <-]. apply Hwf.
    apply nth_error_In in Hnth. apply in_map_iff in Hnth.
    destruct Hnth as (y & [= ->] & Hy). assumption.
  - rewrite Hlength.
    destruct (key =? "__proto__"); [discriminate|].
    destruct (existsb (String.eqb key) (array_methods ++ prototype_methods));
      [discriminate|].
    destruct (existsb (String.eqb key) later_array_methods); discriminate.
Qed.

(** The recursive call for a value of [source] that can be merged returns,
    on whatever parsed object or array [target] holds at the key. *)
Lemma recurFor_total (sv : JValue) :
  mergeable sv ->
  (forall key, In key (Object_keys sv) -> reservedKey key = false) ->
  forall v,
    wellFormed v = true -> isObjectLike v = true ->
    exists v', recurFor sv v = Ret v'.
Proof.
  intros Hmergeable Hkeys v Hwf Hobject. unfold recurFor, intoWith.
  destruct v as [| | | |items|sub|slots props]; try discriminate.
  - destruct (Hmergeable _ arrayOps arrayOps_lawful (map Some items, []))
      as [a' ->]; [|eexists; reflexivity].
    apply parsedAt_array; assumption.
  - destruct (Hmergeable _ objectOps objectOps_lawful sub) as [sub' ->];
      [|eexists; reflexivity].
    apply parsedAt_object; assumption.
Qed.

Lemma ordinary_keys (fields : Fields) :
  ordinary (JObj fields) = true ->
  forall key, In key (keys fields) -> reservedKey key = false.
Proof.
  cbn [ordinary]. intros Hordinary key Hin.
  rewrite forallb_forall in Hordinary.
  unfold keys in Hin. apply in_map_iff in Hin. destruct Hin as (kv & <- & Hkv).
  specialize (Hordinary kv Hkv).
  apply andb_true_iff in Hordinary. destruct Hordinary as [Hordinary _].
  apply andb_true_iff in Hordinary. destruct Hordinary as [Hreserved _].
  apply negb_true_iff. assumption.
Qed.

Lemma array_keys (items : list JValue) :
  forall key,
    In key (Object_keys (JArr items)) ->
    reservedKey key = false /\ (key =? "__proto__") = false.
Proof.
  intros key Hin. unfold Object_keys in Hin. cbn [Object_entries] in Hin.
  apply (indexed_keys items 0) in Hin. destruct Hin as (j & _ & ->).
  destruct (decimal_digit j) as (c & r & -> & Hdigit).
  apply digit_key_ordinary. assumption.
Qed.

Lemma value_keys (sv : JValue) :
  wellFormed sv = true -> ordinary sv = true ->
  forall key, In key (Object_keys sv) -> reservedKey key = false.
Proof.
  intros Hwf Hordinary key Hin.
  destruct sv as [| | | |items|fields|slots props]; try (destruct Hin; fail);
    try discriminate.
  - apply (array_keys items key Hin).
  - apply (ordinary_keys fields Hordinary key Hin).
Qed.

(** The merge of a document that [JSON.parse] returned and that has
    ordinary keys returns, into every target of parsed values. *)
Lemma mergeValue_total (source : JValue) :
  wellFormed source = true ->
  ordinary source = true ->
  isObjectLike source = true ->
  mergeable source.
Proof.
  induction source as [| b | n | s | items IH | fields IH | slots props _ _]
    using JValue_nested_ind; intros Hwf Hordinary Hobject; try discriminate.
  - (* an array *)
    intros T ops Hlaw target Hparsed.
    rewrite mergeValue_array.
    apply (forEachKey_total ops Hlaw); [apply indexed_NoDup | | exact Hparsed].
    apply Forall_forall. intros [key sv] Hin. cbn [fst snd].
    pose proof (indexed_values items 0 _ Hin) as Hsv. cbn [snd] in Hsv.
    assert (Hkey : In key (Object_keys (JArr items))).
    { unfold Object_keys. cbn [Object_entries].
      apply in_map_iff. exists (key, sv). split; [reflexivity | assumption]. }
    destruct (array_keys items key Hkey) as [Hreserved Hproto].
    cbn [wellFormed ordinary] in Hwf, Hordinary.
    rewrite forallb_forall in Hwf, Hordinary.
    rewrite Forall_forall in IH.
    split; [assumption|]. split; [rewrite Hproto; reflexivity|].
    split; [apply Hwf; assumption|].
    intros v Hv Hvobject Hsvobject.
    apply recurFor_total; try assumption.
    + apply IH; auto.
    + apply value_keys; auto.
  - (* a plain object *)
    intros T ops Hlaw target Hparsed.
    rewrite mergeValue_object.
    pose proof Hwf as Hwf'. pose proof Hordinary as Hordinary'.
    cbn [wellFormed ordinary] in Hwf', Hordinary'.
    apply andb_true_iff in Hwf'. destruct Hwf' as [Hdistinct Hvalues].
    rewrite forallb_forall in Hvalues, Hordinary'.
    rewrite Forall_forall in IH.
    apply (forEachKey_total ops Hlaw);
      [apply distinct_NoDup; assumption | | exact Hparsed].
    apply Forall_forall. intros [key sv] Hin. cbn [fst snd].
    specialize (Hordinary' (key, sv) Hin). cbn [fst snd] in Hordinary'.
    apply andb_true_iff in Hordinary'. destruct Hordinary' as [Hkey Hsv].
    apply andb_true_iff in Hkey. destruct Hkey as [Hreserved Hproto].
    apply negb_true_iff in Hreserved, Hproto.
    specialize (Hvalues (key, sv) Hin). cbn [snd] in Hvalues.
    repeat split; try assumption.
    intros v Hv Hvobject Hsvobject.
    apply recurFor_total; try assumption.
    + apply (IH (key, sv) Hin); assumption.
    + apply value_keys; assumption.
Qed.

(** [mergeAnalysisResults] returns on two documents that [JSON.parse]
    returned, when the keys of [source] are ordinary. *)
Lemma mergeAnalysisResults_returns (target source : Fields) :
  wellFormed (JObj target) = true ->
  wellFormed (JObj source) = true ->
  ordinary (JObj source) = true ->
  exists target', mergeAnalysisResults target source = Ret target'.
Proof.
  intros Htarget Hsource Hordinary.
  apply (mergeValue_total (JObj source) Hsource Hordinary eq_refl
           _ objectOps objectOps_lawful target).
  apply parsedAt_object. assumption.
Qed.

Lemma mergeInto_returns (target source : JValue) :
  wellFormed target = true -> isObjectLike target = true ->
  wellFormed source = true -> ordinary source = true ->
  isObjectLike source = true ->
  exists target', mergeInto target source = Ret target'.
Proof.
  intros Htarget Htobject Hsource Hordinary Hsobject.
  apply (recurFor_total source); try assumption.
  - apply mergeValue_total; assumption.
  - apply value_keys; assumption.
Qed.

(** *** Into a plain object *)

(** What [plainMerge] asks of each entry of [source]. *)
Lemma plainMerge_entries (source : JValue) (o : Fields) :
  wellFormed source = true ->
  plainMerge source (JObj o) = true ->
  forall key sv,
    In (key, sv) (Object_entries source) ->
    match lookup key o with
    | Some tv => meets sv tv = true -> plainMerge sv tv = true
    | None => (key =? "__proto__") && isObjectLike sv = false
    end.
Proof.
  destruct source as [| | | |items|fields|slots props]; try discriminate.
  - intros _. cbn [plainMerge Object_entries]. generalize 0.
    induction items as [|x rest IH]; intros i Hplain key sv Hin; [destruct Hin|].
    apply andb_true_iff in Hplain. destruct Hplain as [Hhere Hlater].
    destruct Hin as [[= <- <-] | Hin]; [|apply (IH (S i)); assumption].
    destruct (lookup (decimal (Z.of_nat i)) o) as [tv|].
    + intros Hmeets. rewrite Hmeets in Hhere. exact Hhere.
    + destruct (decimal_digit i) as (c & r & -> & Hdigit).
      rewrite (proj2 (digit_key_ordinary c r Hdigit)). reflexivity.
  - intros _. cbn [plainMerge Object_entries].
    induction fields as [|[k x] rest IH]; intros Hplain key sv Hin;
      [destruct Hin|].
    apply andb_true_iff in Hplain. destruct Hplain as [Hhere Hlater].
    destruct Hin as [[= <- <-] | Hin]; [|apply IH; assumption].
    destruct (lookup k o) as [tv|].
    + intros Hmeets. rewrite Hmeets in Hhere. exact Hhere.
    + apply negb_true_iff. exact Hhere.
Qed.

(** The callback for one key returns on a plain object. *)
Lemma mergeKey_object_total (recur : JValue -> Run JValue) (key : string)
    (sv : JValue) (o : Fields) :
  wellFormed sv = true ->
  (forall tv, lookup key o = Some tv -> wellFormed tv = true) ->
  (lookup key o = None -> (key =? "__proto__") && isObjectLike sv = false) ->
  (forall tv, lookup key o = Some tv -> meets sv tv = true ->
              exists v', recur tv = Ret v') ->
  exists o', mergeKey objectOps recur key sv o = Ret o'.
Proof.
  intros Hsv Hparsed Hproto Hrecur.
  unfold mergeKey. cbn [read assign hasLength objectOps andb]. unfold get.
  destruct (lookup key o) as [tv|].
  - specialize (Hparsed tv eq_refl). specialize (Hrecur tv eq_refl).
    unfold meets in Hrecur.
    cbn [read_isArray read_isObjectLike read_truthy].
    destruct (isArray sv && isArray tv) eqn:Harrays.
    + apply andb_true_iff in Harrays. destruct Harrays as [Hs Ht].
      destruct sv; try discriminate; destruct tv; try discriminate.
      eexists; reflexivity.
    + destruct (isObjectLike sv && isObjectLike tv) eqn:Hobjects.
      * destruct (Hrecur eq_refl) as [v' ->]. eexists; reflexivity.
      * destruct (negb (truthy tv)); eexists; reflexivity.
  - specialize (Hproto eq_refl).
    destruct (key =? "__proto__").
    + cbn [andb] in Hproto.
      cbn [read_isArray read_isObjectLike read_truthy negb].
      rewrite andb_false_r, andb_true_r, Hproto. eexists; reflexivity.
    + destruct (existsb (String.eqb key) prototype_methods);
        cbn [read_isArray read_isObjectLike read_truthy negb];
        rewrite !andb_false_r; eexists; reflexivity.
Qed.

Lemma forEachKey_object_total (o : Fields) (fs : Fields) :
  NoDup (keys fs) ->
  (forall key tv, lookup key o = Some tv -> wellFormed tv = true) ->
  (forall key sv,
      In (key, sv) fs ->
      wellFormed sv = true
      /\ (lookup key o = None -> (key =? "__proto__") && isObjectLike sv = false)
      /\ (forall tv, lookup key o = Some tv -> meets sv tv = true ->
                     exists v', recurFor sv tv = Ret v')) ->
  forall current,
    (forall key, In key (keys fs) -> lookup key current = lookup key o) ->
    exists o', forEachKey objectOps fs current = Ret o'.
Proof.
  intros Hnodup Hparsed.
  induction fs as [|[key sv] fs IH]; intros Hentries current Hsame.
  - exists current. reflexivity.
  - cbn [keys map fst] in Hnodup. inversion Hnodup as [|? ? Hfresh Hrest]; subst.
    destruct (Hentries key sv (or_introl eq_refl)) as (Hsv & Hproto & Hrecur).
    pose proof (Hsame key (or_introl eq_refl)) as Hkey.
    destruct (mergeKey_object_total (recurFor sv) key sv current Hsv)
      as [next Hnext].
    { intros tv Htv. rewrite Hkey in Htv. apply (Hparsed key tv Htv). }
    { rewrite Hkey. exact Hproto. }
    { rewrite Hkey. exact Hrecur. }
    cbn [forEachKey]. rewrite Hnext. apply (IH Hrest).
    + intros key' sv' Hin. apply Hentries. right. exact Hin.
    + intros key' Hin.
      rewrite (mergeKey_other _ _ key' _ _ _ Hnext)
        by (intros ->; contradiction).
      apply Hsame. right. exact Hin.
Qed.

Lemma entries_NoDup (source : JValue) :
  wellFormed source = true -> NoDup (keys (Object_entries source)).
Proof.
  destruct source as [| | | |items|fields|slots props]; cbn [Object_entries];
    try (intros _; constructor); try discriminate.
  - intros _. apply indexed_NoDup.
  - cbn [wellFormed]. intros Hformed. apply andb_true_iff in Hformed.
    apply distinct_NoDup. apply Hformed.
Qed.

Lemma entries_wellFormed (source : JValue) (key : string) (sv : JValue) :
  wellFormed source = true ->
  In (key, sv) (Object_entries source) ->
  wellFormed sv = true.
Proof.
  destruct source as [| | | |items|fields|slots props]; cbn [Object_entries];
    try (intros _ []); try discriminate.
  - cbn [wellFormed]. intros Hformed Hin. rewrite forallb_forall in Hformed.
    apply Hformed. apply (indexed_values items 0 _ Hin).
  - cbn [wellFormed]. intros Hformed Hin. apply andb_true_iff in Hformed.
    destruct Hformed as [_ Hvalues]. rewrite forallb_forall in Hvalues.
    apply (Hvalues (key, sv) Hin).
Qed.

Lemma mergeValue_entries (source : JValue) (o : Fields) :
  isObjectLike source = true ->
  wellFormed source = true ->
  mergeValue objectOps source o = forEachKey objectOps (Object_entries source) o.
Proof.
  destruct source as [| | | |items|fields|slots props]; try discriminate;
    intros _ _; [apply mergeValue_array | apply mergeValue_object].
Qed.

(** The merge of two documents that [JSON.parse] returned returns, when it
    is a [plainMerge]. *)
Lemma plainMerge_total (source : JValue) :
  forall target,
    isObjectLike source = true ->
    wellFormed source = true ->
    wellFormed target = true ->
    isObjectLike target = true ->
    plainMerge source target = true ->
    exists target', mergeInto target source = Ret target'.
Proof.
  induction source as [| b | n | s | items IH | fields IH | slots props _ _]
    using JValue_nested_ind; intros target Hobject Hsource Htarget Htobject Hplain;
    try discriminate.
  - destruct target as [| | | |ts|o|slots props]; try discriminate.
    + apply mergeInto_returns; assumption.
    + unfold mergeInto, intoWith.
      rewrite (mergeValue_entries (JArr items) o Hobject Hsource).
      destruct (forEachKey_object_total o (Object_entries (JArr items)))
        with (current := o) as [o' ->];
        [apply entries_NoDup; assumption | | | reflexivity
         | eexists; reflexivity].
      * intros key tv Htv. cbn [wellFormed] in Htarget.
        apply andb_true_iff in Htarget. destruct Htarget as [_ Hvalues].
        rewrite forallb_forall in Hvalues.
        apply (Hvalues (key, tv) (lookup_In key o tv Htv)).
      * intros key sv Hin.
        pose proof (plainMerge_entries (JArr items) o Hsource Hplain key sv Hin)
          as Hentry.
        pose proof (entries_wellFormed (JArr items) key sv Hsource Hin) as Hsv.
        split; [exact Hsv|]. split.
        -- intros Hnone. rewrite Hnone in Hentry. exact Hentry.
        -- intros tv Htv Hmeets. rewrite Htv in Hentry.
           rewrite Forall_forall in IH.
           pose proof Hmeets as Hsides. unfold meets in Hsides.
           apply andb_true_iff in Hsides. destruct Hsides as [Hsides _].
           apply andb_true_iff in Hsides. destruct Hsides as [Hs Ht].
           apply (IH sv (indexed_values items 0 _ Hin) tv); auto.
           cbn [wellFormed] in Htarget.
           apply andb_true_iff in Htarget. destruct Htarget as [_ Hvalues].
           rewrite forallb_forall in Hvalues.
           apply (Hvalues (key, tv) (lookup_In key o tv Htv)).
  - destruct target as [| | | |ts|o|slots props]; try discriminate.
    + apply mergeInto_returns; assumption.
    + unfold mergeInto, intoWith.
      rewrite (mergeValue_entries (JObj fields) o Hobject Hsource).
      destruct (forEachKey_object_total o (Object_entries (JObj fields)))
        with (current := o) as [o' ->];
        [apply entries_NoDup; assumption | | | reflexivity
         | eexists; reflexivity].
      * intros key tv Htv. cbn [wellFormed] in Htarget.
        apply andb_true_iff in Htarget. destruct Htarget as [_ Hvalues].
        rewrite forallb_forall in Hvalues.
        apply (Hvalues (key, tv) (lookup_In key o tv Htv)).
      * intros key sv Hin.
        pose proof (plainMerge_entries (JObj fields) o Hsource Hplain key sv Hin)
          as Hentry.
        pose proof (entries_wellFormed (JObj fields) key sv Hsource Hin) as Hsv.
        split; [exact Hsv|]. split.
        -- intros Hnone. rewrite Hnone in Hentry. exact Hentry.
        -- intros tv Htv Hmeets. rewrite Htv in Hentry.
           rewrite Forall_forall in IH.
           pose proof Hmeets as Hsides. unfold meets in Hsides.
           apply andb_true_iff in Hsides. destruct Hsides as [Hsides _].
           apply andb_true_iff in Hsides. destruct Hsides as [Hs Ht].
           apply (IH (key, sv) Hin tv); auto.
           cbn [wellFormed] in Htarget.
           apply andb_true_iff in Htarget. destruct Htarget as [_ Hvalues].
           rewrite forallb_forall in Hvalues.
           apply (Hvalues (key, tv) (lookup_In key o tv Htv)).
Qed.

(** A document with [ordinary] keys merges plainly into every target. *)
Lemma ordinary_plainMerge (source : JValue) :
  forall target,
    isObjectLike source = true ->
    ordinary source = true ->
    plainMerge source target = true.
Proof.
  induction source as [| b | n | s | items IH | fields IH | slots props _ _]
    using JValue_nested_ind; intros target Hobject Hordinary; try discriminate.
  - destruct target as [| | | |ts|o|slots props]; try exact Hordinary.
    cbn [plainMerge]. cbn [ordinary] in Hordinary. clear Hobject. generalize 0.
    induction items as [|x rest IHrest]; intros i; [reflexivity|].
    cbn [forallb] in Hordinary. apply andb_true_iff in Hordinary.
    destruct Hordinary as [Hx Hrest].
    rewrite (IHrest (Forall_inv_tail IH) Hrest (S i)), andb_true_r.
    destruct (lookup (decimal (Z.of_nat i)) o) as [tv|]; [|reflexivity].
    destruct (meets x tv) eqn:Hmeets; [|reflexivity].
    apply (Forall_inv IH); [|exact Hx].
    unfold meets in Hmeets. apply andb_true_iff in Hmeets.
    destruct Hmeets as [Hmeets _]. apply andb_true_iff in Hmeets. apply Hmeets.
  - destruct target as [| | | |ts|o|slots props]; try exact Hordinary.
    cbn [plainMerge]. cbn [ordinary] in Hordinary. clear Hobject.
    induction fields as [|[k x] rest IHrest]; [reflexivity|].
    cbn [forallb fst snd] in Hordinary. apply andb_true_iff in Hordinary.
    destruct Hordinary as [Hx Hrest].
    apply andb_true_iff in Hx. destruct Hx as [Hkey Hx].
    apply andb_true_iff in Hkey. destruct Hkey as [_ Hproto].
    rewrite (IHrest (Forall_inv_tail IH) Hrest), andb_true_r.
    destruct (lookup k o) as [tv|]; [|exact Hproto].
    destruct (meets x tv) eqn:Hmeets; [|reflexivity].
    apply (Forall_inv IH); [|exact Hx].
    unfold meets in Hmeets. apply andb_true_iff in Hmeets.
    destruct Hmeets as [Hmeets _]. apply andb_true_iff in Hmeets. apply Hmeets.
Qed.

(** [mergeAnalysisResults] returns on two documents that [JSON.parse]
    returned, when their merge is a [plainMerge]. *)
Lemma mergeAnalysisResults_plain (target source : Fields) :
  wellFormed (JObj target) = true ->
  wellFormed (JObj source) = true ->
  plainMerge (JObj source) (JObj target) = true ->
  exists target', mergeAnalysisResults target source = Ret target'.
Proof.
  intros Htarget Hsource Hplain.
  destruct (plainMerge_total (JObj source) (JObj target)
              eq_refl Hsource Htarget eq_refl Hplain) as [merged Hmerged].
  unfold mergeInto, intoWith, runMap in Hmerged. unfold mergeAnalysisResults.
  destruct (mergeValue objectOps (JObj source) target) as [target'| |];
    try discriminate.
  exists target'. reflexivity.
Qed.

(** *** No exception *)

Lemma mergeKey_throws_nothing {T : Type} (ops : Ops T)
    (recur : JValue -> Run JValue) (key : string) (sv : JValue) (target : T)
    (e : Exn) :
  (forall v, recur v <> Throw e) ->
  mergeKey ops recur key sv target <> Throw e.
Proof.
  intros Hrecur. unfold mergeKey.
  destruct (read ops target key) as [|tv| | |]; try discriminate;
    repeat match goal with
           | |- context [if ?b then _ else _] => destruct b
           | |- context [match recur ?v with _ => _ end] =>
               let H := fresh "Hcall" in destruct (recur v) eqn:H
           | |- context [match ?x with _ => _ end] => destruct x
           end; try discriminate.
  intros Heq. injection Heq as ->. apply (Hrecur tv). assumption.
Qed.

Lemma forEachKey_throws_nothing {T : Type} (ops : Ops T) (e : Exn) (fs : Fields) :
  Forall (fun kv => forall v, recurFor (snd kv) v <> Throw e) fs ->
  forall target, forEachKey ops fs target <> Throw e.
Proof.
  induction fs as [|[key sv] fs IH]; intros Hall target; [discriminate|].
  cbn [forEachKey].
  pose proof (mergeKey_throws_nothing ops (recurFor sv) key sv target e
                (Forall_inv Hall)) as Hkey.
  destruct (mergeKey ops (recurFor sv) key sv target) as [target'| e' |];
    [apply IH; exact (Forall_inv_tail Hall) | congruence | discriminate].
Qed.

(** Where the embedding describes the merge, it throws nothing. *)
Lemma mergeValue_throws_nothing {T : Type} (ops : Ops T) (source : JValue)
    (target : T) (e : Exn) :
  mergeValue ops source target <> Throw e.
Proof.
  revert T ops target.
  induction source as [| b | n | s | items IH | fields IH | slots props _ _]
    using JValue_nested_ind; intros T ops target; try discriminate.
  - rewrite mergeValue_array. apply forEachKey_throws_nothing.
    apply Forall_forall. intros kv Hin v.
    rewrite Forall_forall in IH.
    pose proof (IH (snd kv) (indexed_values items 0 kv Hin)) as Hsv.
    unfold recurFor, intoWith, runMap.
    destruct v; try discriminate;
      match goal with
      | |- context [mergeValue ?o (snd kv) ?t] =>
          pose proof (Hsv _ o t); destruct (mergeValue o (snd kv) t)
      end; congruence.
  - rewrite mergeValue_object. apply forEachKey_throws_nothing.
    apply Forall_forall. intros kv Hin v.
    rewrite Forall_forall in IH.
    pose proof (IH kv Hin) as Hsv.
    unfold recurFor, intoWith, runMap.
    destruct v; try discriminate;
      match goal with
      | |- context [mergeValue ?o (snd kv) ?t] =>
          pose proof (Hsv _ o t); destruct (mergeValue o (snd kv) t)
      end; congruence.
Qed.

(** *** What the merge leaves at a key *)


(** What the merge leaves at a key of [source] is what the callback for
    that key left there, run on a target that still had its original value
    at the key. *)
Lemma forEachKey_at (key : string) (sv : JValue) (fs : Fields) :
  forall target target',
    NoDup (keys fs) ->
    lookup key fs = Some sv ->
    forEachKey objectOps fs target = Ret target' ->
    exists before after,
      lookup key before = lookup key target
      /\ mergeKey objectOps (recurFor sv) key sv before = Ret after
      /\ lookup key target' = lookup key after.
Proof.
  induction fs as [|[k v] fs IH]; intros target target' Hnodup Hsource Hrun;
    [discriminate|].
  simpl in Hsource, Hrun, Hnodup. inversion Hnodup as [|? ? Hfresh Hrest]; subst.
  destruct (mergeKey objectOps (recurFor v) k v target) as [t1| |] eqn:Hkey;
    try discriminate.
  destruct (k =? key) eqn:Hk.
  - apply String.eqb_eq in Hk. subst k. injection Hsource as ->.
    exists target, t1. repeat split; [assumption|].
    apply (forEachKey_other key fs _ _ Hrun Hfresh).
  - destruct (IH t1 target' Hrest Hsource Hrun) as (before & after & Hb & Hm & Ha).
    exists before, after. repeat split; try assumption.
    rewrite Hb. apply (mergeKey_other _ _ key _ _ _ Hkey).
    intros <-. rewrite String.eqb_refl in Hk. discriminate.
Qed.

(** The same for two parsed documents, with the merge shown to return. *)
Lemma merge_at (target source : Fields) (key : string) (sv : JValue) :
  wellFormed (JObj target) = true ->
  wellFormed (JObj source) = true ->
  plainMerge (JObj source) (JObj target) = true ->
  lookup key source = Some sv ->
  exists target' before after,
    mergeAnalysisResults target source = Ret target'
    /\ lookup key before = lookup key target
    /\ mergeKey objectOps (recurFor sv) key sv before = Ret after
    /\ lookup key target' = lookup key after.
Proof.
  intros Htarget Hsource Hordinary Hkey.
  destruct (mergeAnalysisResults_plain target source Htarget Hsource Hordinary)
    as [target' Hrun].
  assert (Hnodup : NoDup (keys source)).
  { cbn [wellFormed] in Hsource. apply andb_true_iff in Hsource.
    apply distinct_NoDup. apply Hsource. }
  pose proof Hrun as Hloop. rewrite mergeAnalysisResults_forEachKey in Hloop.
  destruct (forEachKey_at key sv source target target' Hnodup Hkey Hloop)
    as (before & after & Hb & Hm & Ha).
  exists target', before, after. auto.
Qed.



(** Elements that differ only in the order of their keys serialize
    differently, and both stay. *)
Example dedupe_is_by_serialization :
  dedupe [ JObj [("x", int 1); ("y", int 2)]; JObj [("y", int 2); ("x", int 1)];
           JObj [("x", int 1); ("y", int 2)]; JStr "1"; int 1 ]
  = [ JObj [("x", int 1); ("y", int 2)]; JObj [("y", int 2); ("x", int 1)];
      JStr "1"; int 1 ].
Proof. reflexivity. Qed.

(** *** Scalar conflicts *)

(** On a scalar of [target] the callback tests [!target[key]]: a truthy
    value stays, a falsy one is replaced by the value of [source]. *)
Lemma mergeKey_scalar (recur : JValue -> Run JValue) (key : string)
    (tv sv : JValue) (target : Fields) :
  lookup key target = Some tv ->
  isObjectLike tv = false ->
  exists after,
    mergeKey objectOps recur key sv target = Ret after
    /\ lookup key after = Some (if truthy tv then tv else sv).
Proof.
  intros Htarget Hscalar. unfold mergeKey. cbn [read assign hasLength objectOps].
  unfold get. rewrite Htarget.
  assert (Harr : isArray tv = false) by (destruct tv; auto; discriminate).
  cbn [read_isArray read_isObjectLike read_truthy andb].
  rewrite Harr, Hscalar, !andb_false_r.
  destruct (truthy tv); cbn [negb].
  - exists target. auto.
  - eexists. split; [reflexivity | apply lookup_set_same].
Qed.

(** The part of C1 that the code keeps: a truthy scalar of [target] is
    never overwritten; a falsy one always is. *)
Lemma merge_scalar_conflict (target source : Fields) (key : string)
    (tv sv : JValue) :
  wellFormed (JObj target) = true ->
  wellFormed (JObj source) = true ->
  plainMerge (JObj source) (JObj target) = true ->
  lookup key target = Some tv ->
  isObjectLike tv = false ->
  lookup key source = Some sv ->
  exists target',
    mergeAnalysisResults target source = Ret target'
    /\ lookup key target' = Some (if truthy tv then tv else sv).
Proof.
  intros Htarget Hsource Hordinary Htv Hscalar Hsv.
  destruct (merge_at target source key sv Htarget Hsource Hordinary Hsv)
    as (target' & before & after & Hrun & Hbefore & Hkey & Hafter).
  exists target'. split; [exact Hrun|].
  rewrite Htv in Hbefore.
  destruct (mergeKey_scalar (recurFor sv) key tv sv before Hbefore Hscalar)
    as (after' & Hkey' & Hvalue).
  rewrite Hkey in Hkey'. injection Hkey' as <-. congruence.
Qed.

(** C1, on the code.  [target] holds the scalar [0] at "count" and [source]
    the scalar [5]: the merge overwrites the [0].  The same happens to
    [""], [false] and [null]; only a truthy scalar of [target] wins. *)
Theorem merge_overwrites_falsy_scalar :
  mergeAnalysisResults [("count", int 0)] [("count", int 5)]
  = Ret [("count", int 5)]
  /\ mergeAnalysisResults [("title", JStr "")] [("title", JStr "Notes")]
     = Ret [("title", JStr "Notes")]
  /\ mergeAnalysisResults [("draft", JBool false)] [("draft", JBool true)]
     = Ret [("draft", JBool true)]
  /\ mergeAnalysisResults [("author", JNull)] [("author", JStr "Ann")]
     = Ret [("author", JStr "Ann")]
  /\ mergeAnalysisResults [("count", int 3)] [("count", int 5)]
     = Ret [("count", int 3)].
Proof. repeat split; reflexivity. Qed.

End MergeProperties.

(** ** Words, sentences and the validation of the input *)

Module TextProperties.
Import JsString TextStats Json Service Pipeline.

Lemma split_runs_from_not_nil (sep : ascii -> bool) (s : string) :
  forall in_run, split_runs_from sep in_run s <> [].
Proof.
  induction s as [|c r IH]; intros in_run; simpl; [discriminate|].
  destruct (sep c); [destruct in_run; [apply IH | discriminate]|].
  destruct (split_runs_from sep false r); discriminate.
Qed.

(** A text without separators is its own single fragment. *)
Lemma split_runs_repeat_char (sep : ascii -> bool) (c : ascii) (n : nat) :
  sep c = false -> split_runs sep (repeat_char c n) = [repeat_char c n].
Proof.
  intros Hc. unfold split_runs.
  induction n as [|n IH]; simpl; [reflexivity|]. rewrite Hc, IH. reflexivity.
Qed.

Lemma trimEnd_keeps_first (c : ascii) (r : string) :
  is_whitespace c = false -> exists r', trimEnd (String c r) = String c r'.
Proof.
  intros Hc. simpl. destruct (trimEnd r); [rewrite Hc|]; eexists; reflexivity.
Qed.

Lemma trim_repeat_char (c : ascii) (n : nat) :
  is_whitespace c = false -> (trim (repeat_char c (S n)) =? "") = false.
Proof.
  intros Hc. unfold trim. simpl trimStart. rewrite Hc.
  destruct (trimEnd_keeps_first c (repeat_char c n) Hc) as [r' ->]. reflexivity.
Qed.

Lemma countWords_repeat_char (c : ascii) (n : nat) :
  is_whitespace c = false -> countWords (repeat_char c (S n)) = 1.
Proof.
  intros Hc. unfold countWords, words.
  rewrite (split_runs_repeat_char is_whitespace c (S n) Hc). reflexivity.
Qed.

(** One character other than whitespace, however often it is repeated, is
    one word, and [analyzeText] counts the words before it looks at the
    length. *)
Lemma analyzeText_one_word (rt : Runtime) (c : ascii) (n : nat) (st : State rt) :
  is_whitespace c = false ->
  1 <= n ->
  analyzeText rt (repeat_char c n) st
  = (Ret (failure "Text is too short for meaningful analysis"), st).
Proof.
  intros Hc Hn. destruct n as [|n]; [lia|].
  unfold analyzeText, try_catch.
  rewrite (trim_repeat_char c n Hc), (countWords_repeat_char c n Hc).
  reflexivity.
Qed.

(** The message about the length needs five words first. *)
Lemma analyzeText_too_long (rt : Runtime) (inputText : string) (st : State rt) :
  (trim inputText =? "") = false ->
  5 <= countWords inputText ->
  50000 < String.length inputText ->
  analyzeText rt inputText st
  = (Ret (failure "Text is too long. Please limit to 50,000 characters or less."),
     st).
Proof.
  intros Htrim Hwords Hlength. unfold analyzeText, try_catch.
  rewrite Htrim.
  apply Nat.ltb_ge in Hwords. rewrite Hwords.
  apply Nat.ltb_lt in Hlength. rewrite Hlength.
  reflexivity.
Qed.

(** C2, as the code has it.  A single character other than whitespace
    repeated 60,000 times is one word: [analyzeText] returns
    [{success: false}] with the message "Text is too short for meaningful
    analysis", because the word count is checked before the length.  The
    length-limit message is what every input of at least five words and
    more than 50,000 characters gets. *)
Theorem analyzeText_repeated_character :
  forall (rt : Runtime) (st : State rt),
    (forall c : ascii,
        is_whitespace c = false ->
        analyzeText rt (repeat_char c 60000) st
        = (Ret (failure "Text is too short for meaningful analysis"), st))
    /\ (forall inputText : string,
           (trim inputText =? "") = false ->
           5 <= countWords inputText ->
           50000 < String.length inputText ->
           analyzeText rt inputText st
           = (Ret (failure
                     "Text is too long. Please limit to 50,000 characters or less."),
              st)).
Proof.
  intros rt st. split.
  - intros c Hc. apply analyzeText_one_word; [assumption|].
    apply Nat.leb_le. vm_compute. reflexivity.
  - intros inputText. apply analyzeText_too_long.
Qed.

Lemma analyzeText_repeated_character_witness :
  is_whitespace "a" = false
  /\ analyzeText Runtimes.offline (repeat_char "a" 60000)
                 (start (rt := Runtimes.offline) tt)
     = (Ret (failure "Text is too short for meaningful analysis"),
        start (rt := Runtimes.offline) tt)
  /\ 5 <= countWords Samples.longInput
  /\ 50000 < String.length Samples.longInput
  /\ analyzeText Runtimes.offline Samples.longInput
                 (start (rt := Runtimes.offline) tt)
     = (Ret (failure
               "Text is too long. Please limit to 50,000 characters or less."),
        start (rt := Runtimes.offline) tt).
Proof.
  assert (Hwords : 5 <= countWords Samples.longInput)
    by (apply Nat.leb_le; vm_compute; reflexivity).
  assert (Hlength : 50000 < String.length Samples.longInput)
    by (apply Nat.ltb_lt; vm_compute; reflexivity).
  split; [reflexivity|]. split; [|split; [exact Hwords | split; [exact Hlength|]]].
  - apply (proj1 (analyzeText_repeated_character
                    Runtimes.offline (start (rt := Runtimes.offline) tt))
             "a"%char).
    reflexivity.
  - apply (proj2 (analyzeText_repeated_character
                    Runtimes.offline (start (rt := Runtimes.offline) tt))
             Samples.longInput);
      [vm_compute; reflexivity | exact Hwords | exact Hlength].
Defined.

(** C2 as stated fails: on 60,000 times the letter [a] the result is not
    the length-limit message. *)
Lemma analyzeText_repeated_character_not_too_long :
  is_whitespace "a" = false
  /\ fst (analyzeText Runtimes.offline (repeat_char "a" 60000)
            (start (rt := Runtimes.offline) tt))
     <> Ret (failure
               "Text is too long. Please limit to 50,000 characters or less.").
Proof.
  split; [reflexivity|].
  rewrite (analyzeText_one_word Runtimes.offline "a"%char 60000);
    [discriminate | reflexivity | apply Nat.leb_le; vm_compute; reflexivity].
Qed.

(** *** Sentences *)

Lemma any_char_cons_first (p : ascii -> bool) (c : ascii) (frags : list string) :
  (p c = true \/ exists frag, In frag frags /\ any_char p frag = true) ->
  exists frag, In frag (cons_first c frags) /\ any_char p frag = true.
Proof.
  intros [Hc | (frag & Hin & Hfrag)]; destruct frags as [|f frags]; simpl.
  - exists (String c ""). simpl. rewrite Hc. auto.
  - exists (String c f). simpl. rewrite Hc. auto.
  - contradiction.
  - destruct Hin as [<- | Hin].
    + exists (String c f). simpl. rewrite Hfrag, orb_true_r. auto.
    + exists frag. auto.
Qed.

(** A character that is not a separator ends up in some fragment. *)
Lemma split_runs_from_keeps (sep p : ascii -> bool) (s : string) :
  (forall c, p c = true -> sep c = false) ->
  any_char p s = true ->
  forall in_run,
    exists frag, In frag (split_runs_from sep in_run s) /\ any_char p frag = true.
Proof.
  intros Hsep. induction s as [|c r IH]; simpl; intros Hany in_run;
    [discriminate|].
  destruct (p c) eqn:Hc.
  - rewrite (Hsep c Hc).
    apply (any_char_cons_first p c (split_runs_from sep false r)). auto.
  - simpl in Hany. destruct (sep c).
    + destruct (IH Hany true) as (frag & Hin & Hfrag).
      exists frag. destruct in_run; simpl; auto.
    + apply (any_char_cons_first p c (split_runs_from sep false r)).
      right. apply IH. assumption.
Qed.

Lemma any_char_trimStart (p : ascii -> bool) (s : string) :
  (forall c, p c = true -> is_whitespace c = false) ->
  any_char p s = true -> any_char p (trimStart s) = true.
Proof.
  intros Hp. induction s as [|c r IH]; simpl; intros Hany; [discriminate|].
  destruct (is_whitespace c) eqn:Hws; [|simpl; assumption].
  destruct (p c) eqn:Hc; [rewrite (Hp c Hc) in Hws; discriminate|].
  apply IH. assumption.
Qed.

Lemma trimEnd_not_empty (p : ascii -> bool) (s : string) :
  (forall c, p c = true -> is_whitespace c = false) ->
  any_char p s = true -> trimEnd s <> "".
Proof.
  intros Hp. induction s as [|c r IH]; simpl; intros Hany; [discriminate|].
  destruct (trimEnd r) eqn:Hr; [|discriminate].
  destruct (p c) eqn:Hc.
  - rewrite (Hp c Hc). discriminate.
  - simpl in Hany. contradiction (IH Hany). reflexivity.
Qed.

(** A fragment with a character other than whitespace survives the filter
    [s => s.trim().length > 0]. *)
Lemma nonBlank_any_char (p : ascii -> bool) (s : string) :
  (forall c, p c = true -> is_whitespace c = false) ->
  any_char p s = true -> nonBlank s = true.
Proof.
  intros Hp Hany. unfold nonBlank, trim.
  pose proof (trimEnd_not_empty p (trimStart s) Hp
                (any_char_trimStart p s Hp Hany)) as Hne.
  destruct (trimEnd (trimStart s)); [contradiction Hne; reflexivity | reflexivity].
Qed.

Lemma sentence_char_not_whitespace (c : ascii) :
  sentence_char c = true -> is_whitespace c = false.
Proof.
  unfold sentence_char. intros H. apply andb_true_iff in H.
  destruct H as [H _]. apply negb_true_iff in H. exact H.
Qed.

Lemma sentence_char_not_terminator (c : ascii) :
  sentence_char c = true -> is_terminator c = false.
Proof.
  unfold sentence_char. intros H. apply andb_true_iff in H.
  destruct H as [_ H]. apply negb_true_iff in H. exact H.
Qed.

Lemma sentences_not_empty (text : string) :
  any_char sentence_char text = true -> 0 < List.length (sentences text).
Proof.
  intros Hany. unfold sentences, split_runs.
  destruct (split_runs_from_keeps is_terminator sentence_char text
              sentence_char_not_terminator Hany false) as (frag & Hin & Hfrag).
  assert (Hkept : In frag (filter nonBlank (split_runs_from is_terminator false text))).
  { apply filter_In. split; [assumption|].
    apply (nonBlank_any_char sentence_char frag sentence_char_not_whitespace Hfrag). }
  destruct (filter nonBlank (split_runs_from is_terminator false text));
    [contradiction | simpl; lia].
Qed.

(** C10, as the code has it.  For every input that the validation accepts
    and that has at least one character other than whitespace and the
    terminators [.], [!] and [?], the fallback analyzer counts at least one
    sentence, and the [average_sentence_length] of its document is the
    finite number words / sentences, rounded. *)
Theorem fallback_sentence_count_positive :
  forall (rt : Runtime) (text contentType timestamp : string),
    accepted text = true ->
    any_char sentence_char text = true ->
    0 < List.length (sentences text)
    /\ at_path ["content_analysis"; "sentence_count"]
               (fallbackDocument rt text contentType timestamp)
       = Some (int (Z.of_nat (List.length (sentences text))))
    /\ at_path ["content_analysis"; "average_sentence_length"]
               (fallbackDocument rt text contentType timestamp)
       = Some (int ((2 * Z.of_nat (List.length (words text))
                     + Z.of_nat (List.length (sentences text)))
                    / (2 * Z.of_nat (List.length (sentences text))))).
Proof.
  intros rt text contentType timestamp _ Hany.
  pose proof (sentences_not_empty text Hany) as Hpos.
  split; [exact Hpos|]. split; [reflexivity|].
  unfold fallbackDocument. cbn [at_path lookup String.eqb Ascii.eqb Bool.eqb].
  unfold round_div, int.
  destruct (List.length (sentences text)); [lia | reflexivity].
Qed.

Lemma fallback_sentence_count_positive_witness :
  accepted "The quick brown fox jumps. Twice!" = true
  /\ any_char sentence_char "The quick brown fox jumps. Twice!" = true
  /\ 0 < List.length (sentences "The quick brown fox jumps. Twice!").
Proof.
  split; [vm_compute; reflexivity|]. split; [reflexivity|].
  exact (proj1 (fallback_sentence_count_positive Runtimes.offline
                  "The quick brown fox jumps. Twice!" "General Text" ""
                  ltac:(vm_compute; reflexivity) eq_refl)).
Defined.

(** C10 as stated fails: five groups of full stops are five words, so the
    validation accepts them, and they hold no sentence; the average is
    [Infinity]. *)
Lemma fallback_sentence_count_zero :
  accepted Samples.fiveDots = true
  /\ ~ 0 < List.length (sentences Samples.fiveDots)
  /\ at_path ["content_analysis"; "average_sentence_length"]
             (fallbackDocument Runtimes.offline Samples.fiveDots "General Text" "")
     = Some (JNum Infinity).
Proof.
  split; [vm_compute; reflexivity|]. split; [|reflexivity].
  apply Nat.lt_irrefl.
Qed.

End TextProperties.

(** ** The confidence score *)

Module ConfidenceProperties.
Import Json Confidence Service Pipeline.

(** Whatever conditions fire, the clamped sum is between 0.3 and 0.95. *)
Lemma clamped_score_range (b1 b2 b3 b4 b5 b6 b7 : bool) :
  let confidence :=
    bump b7 (bump b6 (bump b5 (bump b4 (bump b3 (bump b2 (bump b1
      0.5 0.1) 0.1) 0.1) 0.1) 0.1) 0.1) 0.2 in
  PrimFloat.leb 0.3 (Math_min 0.95 (Math_max 0.3 confidence)) = true
  /\ PrimFloat.leb (Math_min 0.95 (Math_max 0.3 confidence)) 0.95 = true.
Proof.
  destruct b1, b2, b3, b4, b5, b6, b7; vm_compute; split; reflexivity.
Qed.

(** Whenever the scorer returns, its value is in [0.30, 0.95]. *)
Lemma calculateConfidence_range (data : JValue) (originalText : string) (r : float) :
  calculateConfidence data originalText = Ret r ->
  PrimFloat.leb 0.3 r = true /\ PrimFloat.leb r 0.95 = true.
Proof.
  unfold calculateConfidence.
  destruct (includesFallback data) as [marked| |]; try discriminate.
  intros [= <-]. apply clamped_score_range.
Qed.

(** It returns whenever the chain [metadata?.analysis_method?.includes]
    can be evaluated. *)
Lemma calculateConfidence_returns (data : JValue) (originalText : string)
    (marked : option bool) :
  includesFallback data = Ret marked ->
  exists r, calculateConfidence data originalText = Ret r.
Proof.
  intros Hmarked. unfold calculateConfidence. rewrite Hmarked.
  eexists; reflexivity.
Qed.

(** That is the case of every document without [metadata], and of every
    document whose [metadata.analysis_method] is missing, null, a string or
    an array. *)
Lemma includesFallback_returns (o : Fields) :
  match lookup "metadata" o with
  | Some (JObj metadata) | Some (JArrWith _ metadata) =>
      match lookup "analysis_method" metadata with
      | None | Some JNull | Some (JStr _) | Some (JArr _)
      | Some (JArrWith _ _) => True
      | _ => False
      end
  | _ => True
  end ->
  exists marked, includesFallback (JObj o) = Ret marked.
Proof.
  unfold includesFallback, member.
  destruct (lookup "metadata" o) as [[| | | | |metadata|slots metadata]|];
    try (intros _; eexists; reflexivity);
    destruct (lookup "analysis_method" metadata) as [[| | | | | |]|];
    intros H; try contradiction; eexists; reflexivity.
Qed.

(** C8, on the code.  The document [numberedMethod] has the number 2 at
    [metadata.analysis_method], the document [describedMethod] an object;
    neither has a method [includes], so the scorer throws a [TypeError]
    instead of returning a value, and [analyzeText] reports "Analysis
    failed" for a text whose extraction gave such a document. *)
Theorem calculateConfidence_throws_on_numbered_method :
  calculateConfidence Samples.numberedMethod "The report of the second quarter."
  = Throw TypeError
  /\ calculateConfidence Samples.describedMethod "The report of the second quarter."
     = Throw TypeError
  /\ fst (analyzeText Samples.numberedMethodService
            "The report of the second quarter."
            (start (rt := Samples.numberedMethodService) 0))
     = Ret (failure "Analysis failed: not a function").
Proof. split; [|split]; vm_compute; reflexivity. Qed.

(** The lowest and the highest score a document can get. *)
Example calculateConfidence_samples :
  calculateConfidence
    (JObj [("metadata", JObj [("analysis_method", JStr "fallback")])])
    (JsString.repeat_char "x" 1000)
  = Ret 0.6%float
  /\ calculateConfidence (JObj [("a", JArr []); ("b", JObj [])]) "x"
     = Ret 0.95%float.
Proof. split; vm_compute; reflexivity. Qed.

End ConfidenceProperties.

(** ** The structured extractor *)

Module ExtractorProperties.
Import Json Service Pipeline.

Section WithRuntime.

Variable rt : Runtime.

(** *** The recovery path *)

(** Lines 212-224: a response that only parses between its braces is kept
    for the first chunk and dropped for every later one. *)
Lemma absorb_recovered (i : nat) (combinedAnalysis response : JValue)
    (text jsonMatch : string) (parsed : JValue) :
  resultResponse response = Ret (Some (JStr text)) ->
  text <> "" ->
  JSON_parse rt (ResponseText.cleanJson text) = None ->
  ResponseText.matchBraces text = Some jsonMatch ->
  JSON_parse rt jsonMatch = Some parsed ->
  absorb rt i combinedAnalysis response
  = Ret (if (i =? 0)%nat then parsed else combinedAnalysis).
Proof.
  intros Hresponse Htext Hstrict Hmatch Hparsed. unfold absorb.
  rewrite Hresponse. cbn [truthy].
  apply String.eqb_neq in Htext. rewrite Htext. cbn [negb].
  rewrite Hstrict, Hmatch, Hparsed. destruct (i =? 0)%nat; reflexivity.
Qed.

(** Lines 202-211: a response that parses as it is, is merged when it
    belongs to a later chunk. *)
Lemma absorb_parsed (i : nat) (combinedAnalysis response : JValue)
    (text : string) (parsed : JValue) :
  resultResponse response = Ret (Some (JStr text)) ->
  text <> "" ->
  JSON_parse rt (ResponseText.cleanJson text) = Some parsed ->
  isObjectLike parsed = true ->
  absorb rt (S i) combinedAnalysis response = mergeDocuments combinedAnalysis parsed.
Proof.
  intros Hresponse Htext Hstrict Hobject. unfold absorb.
  rewrite Hresponse. cbn [truthy].
  apply String.eqb_neq in Htext. rewrite Htext. cbn [negb].
  rewrite Hstrict, Hobject. reflexivity.
Qed.

(** *** The requests that are sent *)

Lemma callCloudflareAI_sent (request : Request) (st : State rt) :
  sent (snd (callCloudflareAI rt request st)) = sent st
  \/ sent (snd (callCloudflareAI rt request st)) = sent st ++ [request].
Proof.
  unfold callCloudflareAI, throw. destruct (credentials rt); cbn [negb].
  - right. destruct (fetch rt request (world st)) as [[| |] w]; reflexivity.
  - left. reflexivity.
Qed.

(** The loop sends the requests of its chunks in order, and stops sending
    at the first call that throws. *)
Lemma forChunks_sent (contentType : string) (chunks : list string) :
  forall (i : nat) (combinedAnalysis : JValue) (st : State rt),
  exists k,
    k <= List.length chunks
    /\ sent (snd (forChunks rt i chunks contentType combinedAnalysis st))
       = sent st ++ map (extractionRequest contentType) (firstn k chunks).
Proof.
  induction chunks as [|chunk rest IH]; intros i combinedAnalysis st.
  - exists 0. split; [lia|]. simpl. rewrite app_nil_r. reflexivity.
  - cbn [forChunks]. unfold bind at 1.
    unfold callCloudflareAI, throw.
    destruct (credentials rt); cbn [negb].
    + destruct (fetch rt (extractionRequest contentType chunk) (world st))
        as [[message|status statusText errorText|response] w].
      * exists 1. split; [simpl; lia | reflexivity].
      * exists 1. split; [simpl; lia | reflexivity].
      * unfold bind at 1. unfold lift.
        destruct (absorb rt i combinedAnalysis response) as [combined'| |].
        -- match goal with
           | |- context [forChunks rt (S i) rest contentType combined' ?st'] =>
               destruct (IH (S i) combined' st') as (k & Hk & Hsent)
           end.
           exists (S k). split; [simpl; lia|].
           rewrite Hsent. cbn [sent firstn map]. rewrite <- app_assoc. reflexivity.
        -- exists 1. split; [simpl; lia | reflexivity].
        -- exists 1. split; [simpl; lia | reflexivity].
    + exists 0. split; [lia|]. simpl. rewrite app_nil_r. reflexivity.
Qed.

Lemma chunksOf_returns (text : string) :
  exists chunks,
    Chunker.chunkText text extractionChunkSize = Some chunks
    /\ chunksOf text extractionChunkSize = Ret chunks.
Proof.
  destruct (ChunkerProperties.chunkText_returns text extractionChunkSize)
    as [chunks Hchunks].
  - apply Nat.leb_le. reflexivity.
  - exists chunks. split; [assumption|]. unfold chunksOf. rewrite Hchunks.
    reflexivity.
Qed.

(** Only the first two chunks are ever sent to the service. *)
Lemma analyzeTextWithAI_sent (text contentType : string) (st : State rt)
    (chunks : list string) :
  Chunker.chunkText text extractionChunkSize = Some chunks ->
  exists k,
    k <= 2
    /\ sent (snd (analyzeTextWithAI rt text contentType st))
       = sent st ++ map (extractionRequest contentType) (firstn k chunks).
Proof.
  intros Hchunks. unfold analyzeTextWithAI, try_catch, chunksOf.
  rewrite Hchunks. unfold bind at 1. unfold lift at 1. unfold bind at 1.
  set (visited := firstn (Nat.min (List.length chunks) 2) chunks).
  destruct (forChunks_sent contentType visited 0 (JObj []) st)
    as (k & Hk & Hsent).
  assert (Hvisited : List.length visited
                     = Nat.min (Nat.min (List.length chunks) 2) (List.length chunks))
    by (unfold visited; apply length_firstn).
  exists k. split; [lia|].
  assert (Hfirst : firstn k visited = firstn k chunks).
  { unfold visited. rewrite firstn_firstn. f_equal. lia. }
  rewrite Hfirst in Hsent.
  destruct (forChunks rt 0 visited contentType (JObj []) st)
    as [[combinedAnalysis|e|] st'] eqn:Hloop; cbn [snd] in Hsent.
  - destruct (0 <? List.length (Object_keys combinedAnalysis))%nat;
      unfold ret, throw, fallbackAnalysis; exact Hsent.
  - unfold fallbackAnalysis. exact Hsent.
  - exact Hsent.
Qed.

(** *** Falling back *)

Lemma resultResponse_not_beyond (response : JValue) :
  resultResponse response <> Beyond.
Proof.
  unfold resultResponse, member.
  destruct response as [| | | | |o|slots o]; try discriminate;
    destruct (lookup "result" o) as [[| | | | |result|slots' result]|];
    discriminate.
Qed.

(** A response without a parseable document leaves the accumulator as it
    is, or throws. *)
Lemma absorb_silent (i : nat) (combinedAnalysis response : JValue) :
  yieldsDocument rt (HttpOk response) = false ->
  absorb rt i combinedAnalysis response = Ret combinedAnalysis
  \/ exists e, absorb rt i combinedAnalysis response = Throw e.
Proof.
  pose proof (resultResponse_not_beyond response) as Hreads.
  unfold yieldsDocument, absorb, parsedDocument.
  destruct (resultResponse response) as [[v|]| |]; eauto; [|contradiction].
  destruct v as [| b | n | text | items | fields | slots props];
    cbn [truthy]; eauto.
  - destruct b; eauto.
  - destruct (truthy (JNum n)) eqn:Hn; cbn [truthy] in Hn; rewrite Hn; eauto.
  - destruct (negb (text =? "")); cbn [andb]; eauto.
    destruct (JSON_parse rt (ResponseText.cleanJson text)) as [parsed|].
    + destruct (isObjectLike parsed); [intros H; discriminate H | eauto].
    + destruct (ResponseText.matchBraces text) as [jsonMatch|]; eauto.
      destruct (JSON_parse rt jsonMatch); [intros H; discriminate H | eauto].
Qed.

(** A response that lines 195-225 get through throws nothing. *)
Lemma absorb_answered (i : nat) (combinedAnalysis response : JValue) (e : Exn) :
  answered (HttpOk response) = true ->
  absorb rt i combinedAnalysis response <> Throw e.
Proof.
  unfold answered, absorb.
  destruct (resultResponse response) as [[v|]| |]; try discriminate.
  destruct v as [| b | n | text | items | fields | slots props];
    cbn [truthy negb orb]; try discriminate.
  - destruct b; discriminate.
  - destruct (truthy (JNum n)) eqn:Hn; cbn [truthy] in Hn; rewrite Hn;
      discriminate.
  - intros _. destruct (negb (text =? "")); [|discriminate].
    destruct (JSON_parse rt (ResponseText.cleanJson text)) as [parsed|].
    + destruct (isObjectLike parsed); [|discriminate].
      destruct (i =? 0)%nat; [discriminate|].
      unfold mergeDocuments, Merge.mergeInto, Merge.intoWith, Merge.runMap.
      destruct combinedAnalysis; try discriminate;
        match goal with
        | |- context [Merge.mergeValue ?ops ?source ?target] =>
            pose proof (MergeProperties.mergeValue_throws_nothing
                          ops source target e) as Hnone;
            destruct (Merge.mergeValue ops source target)
        end; congruence.
    + destruct (ResponseText.matchBraces text) as [jsonMatch|]; [|discriminate].
      destruct (JSON_parse rt jsonMatch); [|discriminate].
      destruct (i =? 0)%nat; discriminate.
Qed.

(** For the first chunk nothing is merged. *)
Lemma absorb_first_not_beyond (combinedAnalysis response : JValue) :
  absorb rt 0 combinedAnalysis response <> Beyond.
Proof.
  pose proof (resultResponse_not_beyond response) as Hreads.
  unfold absorb.
  destruct (resultResponse response) as [[v|]| |]; try discriminate;
    [|contradiction].
  destruct (truthy v); [|discriminate].
  destruct v; try discriminate.
  destruct (JSON_parse rt (ResponseText.cleanJson s)) as [parsed|].
  - destruct (isObjectLike parsed); discriminate.
  - destruct (ResponseText.matchBraces s) as [jsonMatch|]; [|discriminate].
    destruct (JSON_parse rt jsonMatch); discriminate.
Qed.

(** The loop over the chunks it visits: what it sends and receives, and
    how it ends.  It sends the requests of its chunks in order, one for
    each result it receives; it stops only where a call or a response
    throws; and results without a parseable document leave the accumulator
    as it was. *)
Lemma forChunks_log (contentType : string) (chunks : list string) :
  forall (i : nat) (combinedAnalysis : JValue) (st : State rt)
         (outcome : Run JValue) (st' : State rt),
    forChunks rt i chunks contentType combinedAnalysis st = (outcome, st') ->
    exists results,
      received st' = received st ++ results
      /\ sent st'
         = sent st
           ++ map (extractionRequest contentType)
                (firstn (List.length results) chunks)
      /\ List.length results <= List.length chunks
      /\ (credentials rt = false ->
          chunks = [] \/ exists e, outcome = Throw e)
      /\ (credentials rt = true ->
          forallb answered results = true ->
          List.length results = List.length chunks
          \/ 2 <= i + List.length results)
      /\ (noneYields rt results = true ->
          outcome = Ret combinedAnalysis \/ exists e, outcome = Throw e).
Proof.
  induction chunks as [|chunk rest IH];
    intros i combinedAnalysis st outcome st' Hrun.
  - cbn [forChunks] in Hrun. unfold ret in Hrun. injection Hrun as <- <-.
    exists []. cbn [List.length firstn map]. rewrite !app_nil_r.
    repeat split; auto.
  - cbn [forChunks] in Hrun. unfold bind at 1 in Hrun.
    unfold callCloudflareAI, throw in Hrun.
    destruct (credentials rt) eqn:Hcredentials; cbn [negb] in Hrun.
    + destruct (fetch rt (extractionRequest contentType chunk) (world st))
        as [result w].
      assert (Hstop :
                forall st1 : State rt,
                  received st1 = received st ++ [result] ->
                  sent st1 = sent st ++ [extractionRequest contentType chunk] ->
                  (forallb answered [result] = true ->
                   List.length [result] = List.length (chunk :: rest)
                   \/ 2 <= i + List.length [result]) ->
                  (noneYields rt [result] = true ->
                   outcome = Ret combinedAnalysis
                   \/ exists e, outcome = Throw e) ->
                  exists results,
                    received st1 = received st ++ results
                    /\ sent st1
                       = sent st
                         ++ map (extractionRequest contentType)
                              (firstn (List.length results) (chunk :: rest))
                    /\ List.length results <= List.length (chunk :: rest)
                    /\ (true = false ->
                        chunk :: rest = [] \/ exists e, outcome = Throw e)
                    /\ (true = true ->
                        forallb answered results = true ->
                        List.length results = List.length (chunk :: rest)
                        \/ 2 <= i + List.length results)
                    /\ (noneYields rt results = true ->
                        outcome = Ret combinedAnalysis
                        \/ exists e, outcome = Throw e)).
      { intros st1 Hreceived Hsent Hall Hnone.
        exists [result]. cbn [List.length firstn map].
        repeat split; try assumption; try (simpl; lia); try discriminate.
        intros _. exact Hall. }
      destruct result as [message|status statusText errorText|response].
      * injection Hrun as <- <-.
        apply Hstop; [reflexivity | reflexivity | |].
        -- intros Hanswered. discriminate Hanswered.
        -- intros _. right. eexists. reflexivity.
      * injection Hrun as <- <-.
        apply Hstop; [reflexivity | reflexivity | |].
        -- intros Hanswered. discriminate Hanswered.
        -- intros _. right. eexists. reflexivity.
      * unfold bind at 1 in Hrun. unfold lift in Hrun.
        destruct (absorb rt i combinedAnalysis response)
          as [combined'|e|] eqn:Habsorb.
        -- clear Hstop.
           destruct (IH _ _ _ _ _ Hrun)
             as (results & Hreceived & Hsent & Hlength & _ & Hall & Hnone).
           exists (HttpOk response :: results).
           rewrite Hreceived, Hsent. cbn [received sent List.length firstn map].
           rewrite <- !app_assoc. cbn [app].
           split; [reflexivity|]. split; [reflexivity|]. split; [lia|].
           split; [intros Hfalse; discriminate Hfalse|]. split.
           ++ intros _ Hanswered. cbn [forallb] in Hanswered.
              apply andb_true_iff in Hanswered.
              destruct (Hall eq_refl (proj2 Hanswered)); [left|right]; lia.
           ++ unfold noneYields. cbn [forallb]. intros Hsilent.
              apply andb_true_iff in Hsilent. destruct Hsilent as [Hhere Hlater].
              apply negb_true_iff in Hhere.
              destruct (absorb_silent i combinedAnalysis response Hhere)
                as [Hsame | [e He]]; [|congruence].
              assert (combined' = combinedAnalysis) as -> by congruence.
              apply Hnone. exact Hlater.
        -- injection Hrun as <- <-.
           apply Hstop; [reflexivity | reflexivity | |].
           ++ intros Hanswered. cbn [forallb] in Hanswered.
              apply andb_true_iff in Hanswered.
              contradiction (absorb_answered i combinedAnalysis response e
                               (proj1 Hanswered) Habsorb).
           ++ intros _. right. eexists. reflexivity.
        -- injection Hrun as <- <-.
           apply Hstop; [reflexivity | reflexivity | |].
           ++ intros _. right. cbn [List.length].
              destruct i as [|i']; [|lia].
              contradiction (absorb_first_not_beyond combinedAnalysis response
                               Habsorb).
           ++ unfold noneYields. cbn [forallb]. intros Hsilent.
              apply andb_true_iff in Hsilent. destruct Hsilent as [Hhere _].
              apply negb_true_iff in Hhere.
              destruct (absorb_silent i combinedAnalysis response Hhere)
                as [Hsame | [e He]]; congruence.
    + injection Hrun as <- <-.
      exists []. cbn [List.length firstn map]. rewrite !app_nil_r.
      split; [reflexivity|]. split; [reflexivity|]. split; [simpl; lia|].
      split; [intros _; right; eexists; reflexivity|].
      split; [intros Htrue; discriminate Htrue|].
      intros _. right. eexists. reflexivity.
Qed.

Lemma receivedSince_app (st st' : State rt) (results : list FetchResult) :
  received st' = received st ++ results ->
  receivedSince rt st st' = results.
Proof.
  intros Hreceived. unfold receivedSince. rewrite Hreceived.
  rewrite skipn_app, skipn_all, Nat.sub_diag. reflexivity.
Qed.

(** Lines 159-238 as a whole: the requests of the first two chunks, as far
    as the loop gets; and with nothing in the accumulator, or after an
    exception, the document of [fallbackAnalysis]. *)
Lemma analyzeTextWithAI_log (text contentType : string) (st : State rt)
    (chunks : list string) (outcome : Run JValue) (st' : State rt) :
  Chunker.chunkText text extractionChunkSize = Some chunks ->
  analyzeTextWithAI rt text contentType st = (outcome, st') ->
  exists results,
    received st' = received st ++ results
    /\ sent st'
       = sent st
         ++ map (extractionRequest contentType) (firstn (List.length results) chunks)
    /\ List.length results <= Nat.min 2 (List.length chunks)
    /\ (credentials rt = true ->
        forallb answered results = true ->
        List.length results = Nat.min 2 (List.length chunks))
    /\ (credentials rt = false \/ noneYields rt results = true ->
        outcome = Ret (fallbackDocument rt text contentType (clock rt (world st')))).
Proof.
  intros Hchunks Hrun. unfold analyzeTextWithAI, try_catch, chunksOf in Hrun.
  rewrite Hchunks in Hrun. unfold bind at 1 in Hrun. unfold lift at 1 in Hrun.
  unfold bind at 1 in Hrun.
  set (visited := firstn (Nat.min (List.length chunks) 2) chunks) in Hrun.
  assert (Hvisited : List.length visited = Nat.min 2 (List.length chunks)).
  { unfold visited. rewrite length_firstn. lia. }
  destruct (forChunks rt 0 visited contentType (JObj []) st)
    as [loop st1] eqn:Hloop.
  destruct (forChunks_log contentType visited 0 (JObj []) st loop st1 Hloop)
    as (results & Hreceived & Hsent & Hlength & Hnocred & Hall & Hnone).
  assert (Hfirst : firstn (List.length results) visited
                   = firstn (List.length results) chunks).
  { unfold visited. rewrite firstn_firstn. f_equal. lia. }
  rewrite Hfirst in Hsent.
  assert (Hsilent : credentials rt = false \/ noneYields rt results = true ->
                    loop = Ret (JObj []) \/ exists e, loop = Throw e).
  { intros [Hfalse | Hsilent]; [|apply Hnone; exact Hsilent].
    destruct (Hnocred Hfalse) as [Hempty | Hthrows]; [|right; exact Hthrows].
    left. rewrite Hempty in Hloop. cbn [forChunks] in Hloop. unfold ret in Hloop.
    congruence. }
  assert (Hstate : st' = st1).
  { destruct loop as [combinedAnalysis|e|];
      [destruct (0 <? List.length (Object_keys combinedAnalysis))%nat|..];
      unfold ret, throw, fallbackAnalysis in Hrun; congruence. }
  subst st'. exists results.
  split; [exact Hreceived|]. split; [exact Hsent|]. split; [lia|]. split.
  - intros Hcredentials Hanswered.
    destruct (Hall Hcredentials Hanswered); lia.
  - intros Hcase. destruct (Hsilent Hcase) as [-> | [e ->]].
    + cbn in Hrun. unfold fallbackAnalysis in Hrun. congruence.
    + unfold fallbackAnalysis in Hrun. congruence.
Qed.

(** *** The fallback document *)

Lemma fallbackDocument_method (text contentType timestamp : string) :
  at_path ["metadata"; "analysis_method"]
          (fallbackDocument rt text contentType timestamp)
  = Some (JStr "fallback_rule_based").
Proof. reflexivity. Qed.

Lemma fallbackDocument_fields (text contentType timestamp : string) :
  In "content_analysis.word_count"
     (FieldExtractor.extractFields
        (fallbackDocument rt text contentType timestamp) "").
Proof.
  unfold fallbackDocument. simpl. right. right. left. reflexivity.
Qed.

(** *** Without credentials, from end to end *)

Lemma analyzeTextWithAI_no_credentials (text contentType : string) (st : State rt) :
  credentials rt = false ->
  analyzeTextWithAI rt text contentType st
  = (Ret (fallbackDocument rt text contentType (clock rt (world st))), st).
Proof.
  intros Hnone. unfold analyzeTextWithAI, try_catch.
  destruct (chunksOf_returns text) as (chunks & _ & ->).
  unfold bind at 1. unfold lift at 1. unfold bind at 1.
  destruct (firstn (Nat.min (List.length chunks) 2) chunks) as [|chunk rest].
  - reflexivity.
  - cbn [forChunks]. unfold bind at 1. unfold callCloudflareAI.
    rewrite Hnone. reflexivity.
Qed.

Lemma generateSummary_no_credentials (text : string) (st : State rt) :
  credentials rt = false ->
  generateSummary rt text st = (Ret "Unable to generate summary", st).
Proof.
  intros Hnone. unfold generateSummary, try_catch, bind, callCloudflareAI.
  rewrite Hnone. reflexivity.
Qed.

Lemma includesFallback_fallbackDocument (text contentType timestamp : string) :
  Confidence.includesFallback (fallbackDocument rt text contentType timestamp)
  = Ret (Some true).
Proof. reflexivity. Qed.

(** Scenario 4 for every accepted input: without credentials [analyzeText]
    succeeds with the document of the fallback analyzer. *)
Lemma analyzeText_no_credentials (inputText : string) (st : State rt) :
  credentials rt = false ->
  accepted inputText = true ->
  exists score,
    analyzeText rt inputText st
    = (Ret {| success := true;
              data :=
                Some {| structuredData :=
                          fallbackDocument rt inputText
                            (Classifier.detectContentType inputText)
                            (clock rt (world st));
                        fields :=
                          FieldExtractor.extractFields
                            (fallbackDocument rt inputText
                               (Classifier.detectContentType inputText)
                               (clock rt (world st))) "";
                        inputType := Classifier.detectContentType inputText;
                        confidence := score;
                        summary := "Unable to generate summary";
                        wordCount := countWords inputText |};
              error := None |}, st)
    /\ PrimFloat.leb 0.3 score = true /\ PrimFloat.leb score 0.95 = true.
Proof.
  intros Hnone Haccepted. unfold accepted in Haccepted.
  apply andb_true_iff in Haccepted. destruct Haccepted as [Haccepted Hlength].
  apply andb_true_iff in Haccepted. destruct Haccepted as [Htrim Hwords].
  apply negb_true_iff in Htrim, Hwords, Hlength.
  destruct (ConfidenceProperties.calculateConfidence_returns
              (fallbackDocument rt inputText
                 (Classifier.detectContentType inputText) (clock rt (world st)))
              inputText (Some true)
              (includesFallback_fallbackDocument _ _ _)) as [score Hscore].
  exists score. split.
  - unfold analyzeText. unfold try_catch at 1. rewrite Htrim, Hwords, Hlength.
    unfold try_catch at 1. unfold bind at 1.
    rewrite (generateSummary_no_credentials inputText st Hnone).
    unfold bind at 1.
    rewrite (analyzeTextWithAI_no_credentials inputText _ st Hnone).
    unfold bind at 1. unfold lift. rewrite Hscore. reflexivity.
  - apply (ConfidenceProperties.calculateConfidence_range _ _ _ Hscore).
Qed.

End WithRuntime.

(** C7.  The extractor chunks the text at 3500 characters and sends the
    service the requests of the first two chunks, in order, one for each
    result it receives, and never a later chunk; with credentials it stops
    before the second of them only where the call or the response of the
    first throws.  Whenever the credentials are missing, or none of the
    results the run received holds a parseable document, it returns the
    document of the fallback analyzer, whose [metadata.analysis_method] is
    "fallback_rule_based" and whose fields include
    "content_analysis.word_count"; without credentials [analyzeText]
    succeeds on every accepted input with that document and those fields. *)
Theorem analyzeTextWithAI_two_chunks_then_fallback :
  forall (rt : Runtime) (text contentType : string) (st : State rt),
    let run := analyzeTextWithAI rt text contentType st in
    let results := receivedSince rt st (snd run) in
    extractionChunkSize = 3500
    /\ (exists chunks,
           Chunker.chunkText text extractionChunkSize = Some chunks
           /\ received (snd run) = received st ++ results
           /\ sent (snd run)
              = sent st
                ++ map (extractionRequest contentType)
                     (firstn (List.length results) chunks)
           /\ List.length results <= Nat.min 2 (List.length chunks)
           /\ (credentials rt = true ->
               forallb answered results = true ->
               List.length results = Nat.min 2 (List.length chunks)))
    /\ (credentials rt = false \/ noneYields rt results = true ->
        let document :=
          fallbackDocument rt text contentType (clock rt (world (snd run))) in
        fst run = Ret document
        /\ at_path ["metadata"; "analysis_method"] document
           = Some (JStr "fallback_rule_based")
        /\ In "content_analysis.word_count"
              (FieldExtractor.extractFields document ""))
    /\ (credentials rt = false ->
        accepted text = true ->
        exists result,
          analyzeText rt text st
          = (Ret {| success := true; data := Some result; error := None |}, st)
          /\ at_path ["metadata"; "analysis_method"] (structuredData result)
             = Some (JStr "fallback_rule_based")
          /\ In "content_analysis.word_count" (fields result)).
Proof.
  intros rt text contentType st run results.
  destruct (chunksOf_returns text) as (chunks & Hchunks & _).
  destruct (analyzeTextWithAI_log rt text contentType st chunks (fst run) (snd run)
              Hchunks (surjective_pairing run))
    as (results' & Hreceived & Hsent & Hlength & Hall & Hfallback).
  assert (Hresults : results = results')
    by (apply receivedSince_app; exact Hreceived).
  rewrite <- Hresults in *. clear Hresults results'.
  split; [reflexivity|]. split; [|split].
  - exists chunks. auto.
  - intros Hcase. cbv zeta. split; [exact (Hfallback Hcase)|]. split.
    + apply fallbackDocument_method.
    + apply fallbackDocument_fields.
  - intros Hnone Haccepted.
    destruct (analyzeText_no_credentials rt text st Hnone Haccepted)
      as (score & Hrun & _).
    eexists. split; [exact Hrun|]. split.
    + apply fallbackDocument_method.
    + apply fallbackDocument_fields.
Qed.

Lemma analyzeTextWithAI_two_chunks_then_fallback_witness :
  (List.length
     (sent (snd (analyzeTextWithAI MoreSamples.proseOnly Samples.twoChunkText
                   "General Text" (start (rt := MoreSamples.proseOnly) 0))))
   = 2
   /\ at_path ["metadata"; "analysis_method"]
        (match fst (analyzeTextWithAI MoreSamples.proseOnly Samples.twoChunkText
                      "General Text" (start (rt := MoreSamples.proseOnly) 0)) with
         | Ret document => document
         | _ => JNull
         end)
      = Some (JStr "fallback_rule_based"))
  /\ (exists document,
        fst (analyzeTextWithAI Runtimes.offline Samples.narrative "Narrative/Story"
               (start (rt := Runtimes.offline) tt)) = Ret document
        /\ In "content_analysis.word_count"
              (FieldExtractor.extractFields document ""))
  /\ accepted Samples.narrative = true
  /\ (exists result,
        analyzeText Runtimes.offline Samples.narrative
                    (start (rt := Runtimes.offline) tt)
        = (Ret {| success := true; data := Some result; error := None |},
           start (rt := Runtimes.offline) tt)).
Proof.
  assert (Haccepted : accepted Samples.narrative = true)
    by (vm_compute; reflexivity).
  split; [|split; [|split; [exact Haccepted|]]].
  - pose proof (analyzeTextWithAI_two_chunks_then_fallback
                  MoreSamples.proseOnly Samples.twoChunkText "General Text"
                  (start (rt := MoreSamples.proseOnly) 0))
      as (_ & (chunks & Hchunks & _ & Hsent & _ & Hall) & Hfallback & _).
    assert (Hanswered :
              forallb answered
                (receivedSince MoreSamples.proseOnly
                   (start (rt := MoreSamples.proseOnly) 0)
                   (snd (analyzeTextWithAI MoreSamples.proseOnly
                           Samples.twoChunkText "General Text"
                           (start (rt := MoreSamples.proseOnly) 0)))) = true)
      by (vm_compute; reflexivity).
    assert (Hsilent :
              noneYields MoreSamples.proseOnly
                (receivedSince MoreSamples.proseOnly
                   (start (rt := MoreSamples.proseOnly) 0)
                   (snd (analyzeTextWithAI MoreSamples.proseOnly
                           Samples.twoChunkText "General Text"
                           (start (rt := MoreSamples.proseOnly) 0)))) = true)
      by (vm_compute; reflexivity).
    assert (Htwo : option_map (@List.length string)
                     (Chunker.chunkText Samples.twoChunkText extractionChunkSize)
                   = Some 2) by (vm_compute; reflexivity).
    rewrite Hchunks in Htwo. injection Htwo as Htwo.
    specialize (Hall eq_refl Hanswered). rewrite Htwo in Hall.
    destruct (Hfallback (or_intror Hsilent)) as (Hrun & Hmethod & _).
    split.
    + rewrite Hsent, Hall. cbn [sent start app]. rewrite length_map, length_firstn.
      rewrite Htwo. reflexivity.
    + rewrite Hrun. exact Hmethod.
  - pose proof (analyzeTextWithAI_two_chunks_then_fallback
                  Runtimes.offline Samples.narrative "Narrative/Story"
                  (start (rt := Runtimes.offline) tt))
      as (_ & _ & Hfallback & _).
    destruct (Hfallback (or_introl eq_refl)) as (Hrun & _ & Hfields).
    eexists. split; [exact Hrun | exact Hfields].
  - pose proof (analyzeTextWithAI_two_chunks_then_fallback
                  Runtimes.offline Samples.narrative "Narrative/Story"
                  (start (rt := Runtimes.offline) tt))
      as (_ & _ & _ & Haccept).
    destruct (Haccept eq_refl Haccepted) as (result & Hrun & _).
    exists result. exact Hrun.
Defined.

(** The service answers both chunks with a sentence: both requests are
    sent, no document is found, and the fallback answers. *)
Example analyzeTextWithAI_prose_answers :
  map (fun request => List.length (messages request))
      (sent (snd (analyzeTextWithAI MoreSamples.proseOnly Samples.twoChunkText
                    "General Text" (start (rt := MoreSamples.proseOnly) 0))))
  = [2; 2]
  /\ noneYields MoreSamples.proseOnly
       (received (snd (analyzeTextWithAI MoreSamples.proseOnly Samples.twoChunkText
                         "General Text" (start (rt := MoreSamples.proseOnly) 0))))
     = true
  /\ match fst (analyzeTextWithAI MoreSamples.proseOnly Samples.twoChunkText
                  "General Text" (start (rt := MoreSamples.proseOnly) 0)) with
     | Ret document =>
         at_path ["metadata"; "analysis_method"] document
         = Some (JStr "fallback_rule_based")
     | _ => False
     end.
Proof. vm_compute. auto. Qed.

(** Scenario 4 of the specification, from end to end: without credentials a
    narrative of fifty words is analysed by the fallback. *)
Example analyzeText_offline_scenario :
  match fst (analyzeText Runtimes.offline Samples.narrative
               (start (rt := Runtimes.offline) tt)) with
  | Ret {| success := true; data := Some result |} =>
      at_path ["metadata"; "analysis_method"] (structuredData result)
      = Some (JStr "fallback_rule_based")
      /\ In "content_analysis.word_count" (fields result)
      /\ wordCount result = 50
      /\ summary result = "Unable to generate summary"
  | _ => False
  end.
Proof. vm_compute. intuition. Qed.

(** Six chunks, two requests. *)
Example analyzeTextWithAI_sends_two :
  option_map (@List.length string)
    (Chunker.chunkText (Samples.twoChunkText ++ Samples.twoChunkText
                        ++ Samples.twoChunkText) extractionChunkSize) = Some 4
  /\ List.length
       (sent (snd (analyzeTextWithAI Samples.bothStrict
                     (Samples.twoChunkText ++ Samples.twoChunkText
                      ++ Samples.twoChunkText)
                     "General Text" (start (rt := Samples.bothStrict) 0)))) = 2.
Proof. split; vm_compute; reflexivity. Qed.

(** C3, on the code.  The text has two chunks.  When the service answers
    the second with a sentence in front of the document, so that it parses
    only between its braces, the document is dropped and the result is the
    first chunk's alone; answered without the sentence, the same document
    is merged.  [absorb_recovered] shows that this holds for every chunk
    after the first and every response. *)
Theorem recovered_second_chunk_is_dropped :
  option_map (@List.length string)
    (Chunker.chunkText Samples.twoChunkText extractionChunkSize) = Some 2
  /\ fst (analyzeTextWithAI Samples.secondRecovered Samples.twoChunkText
            "General Text" (start (rt := Samples.secondRecovered) 0))
     = Ret (JObj Samples.firstChunkResult)
  /\ fst (analyzeTextWithAI Samples.bothStrict Samples.twoChunkText
            "General Text" (start (rt := Samples.bothStrict) 0))
     = Ret (JObj Samples.mergedResult).
Proof. split; [|split]; vm_compute; reflexivity. Qed.

End ExtractorProperties.

(* ================================================================== *)

(** ** More on the chunker *)

Module ChunkerBounds.
Import JsString Chunker.

Lemma trimStart_length (s : string) : String.length (trimStart s) <= String.length s.
Proof.
  induction s as [|c r IH]; simpl; [lia|].
  destruct (is_whitespace c); simpl; lia.
Qed.

Lemma trimEnd_length (s : string) : String.length (trimEnd s) <= String.length s.
Proof.
  induction s as [|c r IH]; simpl; [lia|].
  destruct (trimEnd r); [destruct (is_whitespace c)|]; simpl in *; lia.
Qed.

Lemma trim_length (s : string) : String.length (trim s) <= String.length s.
Proof.
  unfold trim. pose proof (trimEnd_length (trimStart s)).
  pose proof (trimStart_length s). lia.
Qed.

Lemma String_substring_length (s : string) :
  forall n m, String.length (String.substring n m s) <= m.
Proof.
  induction s as [|c r IH]; intros [|n] [|m]; simpl; try lia.
  - specialize (IH 0 m). lia.
  - apply (IH n 0).
  - apply (IH n (S m)).
Qed.

Lemma substring_length (a b : nat) (s : string) :
  a <= b -> String.length (substring a b s) <= b - a.
Proof.
  intros Hab. unfold substring.
  pose proof (String_substring_length s (Nat.min a b) (Nat.max a b - Nat.min a b)).
  lia.
Qed.

(** A cut is never before the cursor and at most one character past the
    window. *)
Lemma cutIndex_window (text : string) (maxChunkSize startIndex : nat) :
  startIndex < String.length text ->
  startIndex <= cutIndex text maxChunkSize startIndex <= startIndex + maxChunkSize + 1.
Proof.
  intros Hstart. unfold cutIndex.
  set (endIndex := Nat.min (startIndex + maxChunkSize) (String.length text)).
  assert (Hend : startIndex <= endIndex <= startIndex + maxChunkSize)
    by (unfold endIndex; lia).
  destruct (endIndex <? String.length text)%nat; [|lia].
  pose proof (ChunkerProperties.lastIndexOf_le text "." endIndex).
  pose proof (ChunkerProperties.lastIndexOf_le text blank_line endIndex).
  destruct (PrimFloat.ltb
              (JsNumber.ofLength startIndex + JsNumber.ofLength maxChunkSize * 0.7)
              (JsNumber.ofIndex (Z.max (lastIndexOf text "." endIndex)
                                       (lastIndexOf text blank_line endIndex))))
    eqn:Hbreak; [|lia].
  destruct (Z_lt_le_dec (Z.max (lastIndexOf text "." endIndex)
                               (lastIndexOf text blank_line endIndex))
                        (Z.of_nat startIndex)) as [Hbefore|Hafter].
  - rewrite (Doubles.threshold_not_below_cursor _ maxChunkSize _ Hbefore) in Hbreak.
    discriminate Hbreak.
  - lia.
Qed.

Lemma chunkLoop_lengths (text : string) (maxChunkSize : nat) :
  forall fuel startIndex chunks result,
    Forall (fun chunk => String.length chunk <= maxChunkSize + 1) chunks ->
    chunkLoop fuel text maxChunkSize startIndex chunks = Some result ->
    Forall (fun chunk => String.length chunk <= maxChunkSize + 1) result.
Proof.
  induction fuel as [|fuel IH]; intros startIndex chunks result Hchunks; simpl;
    destruct (startIndex <? String.length text)%nat eqn:Hin;
    try discriminate; try (intros [= <-]; assumption).
  apply Nat.ltb_lt in Hin. apply IH.
  apply Forall_app. split; [assumption|]. constructor; [|constructor].
  pose proof (cutIndex_window text maxChunkSize startIndex Hin) as Hcut.
  pose proof (trim_length
                (substring startIndex (cutIndex text maxChunkSize startIndex) text)).
  pose proof (substring_length startIndex
                (cutIndex text maxChunkSize startIndex) text (proj1 Hcut)).
  lia.
Qed.

Lemma chunkLoop_grows (text : string) (maxChunkSize : nat) :
  forall fuel startIndex chunks result,
    chunkLoop fuel text maxChunkSize startIndex chunks = Some result ->
    List.length chunks <= List.length result.
Proof.
  induction fuel as [|fuel IH]; intros startIndex chunks result; simpl;
    destruct (startIndex <? String.length text)%nat;
    try discriminate; try (intros [= <-]; lia).
  intros Hrun. apply IH in Hrun. rewrite length_app in Hrun. simpl in Hrun. lia.
Qed.

(** Whatever [chunkText] returns, no chunk is longer than the maximum size
    plus one, and there is at least one chunk.  The bound is reached: a
    full stop just after the window is taken into the chunk. *)
Theorem chunkText_chunk_lengths :
  (forall (text : string) (maxChunkSize : nat) (chunks : list string),
      chunkText text maxChunkSize = Some chunks ->
      1 <= List.length chunks
      /\ Forall (fun chunk => String.length chunk <= maxChunkSize + 1) chunks)
  /\ (exists text maxChunkSize chunks chunk,
         chunkText text maxChunkSize = Some chunks
         /\ In chunk chunks
         /\ String.length chunk = maxChunkSize + 1).
Proof.
  split.
  - intros text maxChunkSize chunks. unfold chunkText.
    destruct (String.length text <=? maxChunkSize)%nat eqn:Hfits.
    + intros [= <-]. apply Nat.leb_le in Hfits. split; [simpl; lia|].
      constructor; [lia | constructor].
    + intros Hloop. apply Nat.leb_gt in Hfits. split.
      * destruct (String.length text) as [|n] eqn:Hlen; [lia|].
        simpl in Hloop. rewrite Hlen in Hloop. simpl in Hloop.
        apply chunkLoop_grows in Hloop. simpl in Hloop. lia.
      * apply (chunkLoop_lengths text maxChunkSize (String.length text) 0 [] chunks);
          [constructor | assumption].
  - exists "One. Two. Three.", 8, ["One. Two."; "Three."], "One. Two.".
    split; [reflexivity|]. split; [left; reflexivity | reflexivity].
Qed.

Lemma chunkText_chunk_lengths_witness :
  chunkText "One. Two. Three." 8 = Some ["One. Two."; "Three."]
  /\ Forall (fun chunk => String.length chunk <= 8 + 1) ["One. Two."; "Three."].
Proof.
  split; [reflexivity|].
  exact (proj2 (proj1 chunkText_chunk_lengths "One. Two. Three." 8
                  ["One. Two."; "Three."] eq_refl)).
Defined.

(** *** Chunks of the loop are trimmed *)

Lemma trimEnd_idempotent (s : string) : trimEnd (trimEnd s) = trimEnd s.
Proof.
  induction s as [|c r IH]; [reflexivity|]. simpl.
  destruct (trimEnd r) as [|c' r'] eqn:Hr.
  - destruct (is_whitespace c) eqn:Hc; [reflexivity|]. simpl. rewrite Hc.
    reflexivity.
  - change (trimEnd (String c (String c' r')))
      with (match trimEnd (String c' r') with
            | "" => if is_whitespace c then "" else String c ""
            | kept => String c kept
            end).
    rewrite IH. reflexivity.
Qed.

Lemma trimStart_starts_clean (s : string) : Shapes.starts_clean (trimStart s).
Proof.
  induction s as [|c r IH]; simpl; [exact I|].
  destruct (is_whitespace c) eqn:Hc; [exact IH | exact Hc].
Qed.

Lemma trimEnd_starts_clean (s : string) :
  Shapes.starts_clean s -> Shapes.starts_clean (trimEnd s).
Proof.
  destruct s as [|c r]; simpl; [auto|]. intros Hc.
  destruct (trimEnd r); [rewrite Hc|]; exact Hc.
Qed.

Lemma trimStart_clean (s : string) : Shapes.starts_clean s -> trimStart s = s.
Proof.
  destruct s as [|c r]; simpl; [reflexivity|]. intros ->. reflexivity.
Qed.

Lemma trim_idempotent (s : string) : trim (trim s) = trim s.
Proof.
  unfold trim.
  rewrite (trimStart_clean (trimEnd (trimStart s))).
  - apply trimEnd_idempotent.
  - apply trimEnd_starts_clean, trimStart_starts_clean.
Qed.

Lemma chunkLoop_trimmed (text : string) (maxChunkSize : nat) :
  forall fuel startIndex chunks result,
    Forall (fun chunk => trim chunk = chunk) chunks ->
    chunkLoop fuel text maxChunkSize startIndex chunks = Some result ->
    Forall (fun chunk => trim chunk = chunk) result.
Proof.
  induction fuel as [|fuel IH]; intros startIndex chunks result Hchunks; simpl;
    destruct (startIndex <? String.length text)%nat;
    try discriminate; try (intros [= <-]; assumption).
  apply IH. apply Forall_app. split; [assumption|].
  constructor; [apply trim_idempotent | constructor].
Qed.

(** When the text is longer than the maximum size, every chunk comes out of
    the loop trimmed: it neither begins nor ends with whitespace.  A chunk
    can be empty, when its window holds whitespace only. *)
Theorem chunkText_long_text_chunks_trimmed :
  (forall (text : string) (maxChunkSize : nat) (chunks : list string),
      maxChunkSize < String.length text ->
      chunkText text maxChunkSize = Some chunks ->
      Forall (fun chunk => trim chunk = chunk) chunks)
  /\ chunkText "ab      cd" 3 = Some ["ab"; ""; "c"; "d"].
Proof.
  split; [|reflexivity].
  intros text maxChunkSize chunks Hlong. unfold chunkText.
  apply Nat.leb_gt in Hlong. rewrite Hlong.
  apply chunkLoop_trimmed. constructor.
Qed.

Lemma chunkText_long_text_chunks_trimmed_witness :
  3 < String.length "ab      cd"
  /\ Forall (fun chunk => trim chunk = chunk) ["ab"; ""; "c"; "d"].
Proof.
  assert (Hlong : 3 < String.length "ab      cd")
    by (apply Nat.ltb_lt; reflexivity).
  split; [exact Hlong|].
  exact (proj1 chunkText_long_text_chunks_trimmed "ab      cd" 3
           ["ab"; ""; "c"; "d"] Hlong eq_refl).
Defined.

End ChunkerBounds.

(* ================================================================== *)

(** ** More on the classifier *)

Module ClassifierCase.
Import JsString Classifier.

Lemma toLowerChar_idempotent (c : ascii) :
  toLowerChar (toLowerChar c) = toLowerChar c.
Proof. destruct c as [[] [] [] [] [] [] [] []]; reflexivity. Qed.

Lemma toLowerCase_idempotent (s : string) :
  toLowerCase (toLowerCase s) = toLowerCase s.
Proof.
  induction s as [|c r IH]; simpl; [reflexivity|].
  rewrite toLowerChar_idempotent, IH. reflexivity.
Qed.

(** A full stop, a comma and a line feed are neither changed by
    [toLowerCase] nor the lower case of another character. *)
Lemma toLowerChar_punctuation (c : ascii) :
  Ascii.eqb (toLowerChar c) "." = Ascii.eqb c "."
  /\ Ascii.eqb (toLowerChar c) "," = Ascii.eqb c ","
  /\ Ascii.eqb (toLowerChar c) Chunker.newline = Ascii.eqb c Chunker.newline.
Proof. destruct c as [[] [] [] [] [] [] [] []]; repeat split. Qed.

Lemma split_char_cons_length (sep c : ascii) (r : string) :
  List.length (split_char sep (String c r))
  = (if Ascii.eqb c sep then 1 else 0) + List.length (split_char sep r).
Proof.
  simpl. destruct (Ascii.eqb c sep); [reflexivity|].
  destruct (split_char sep r) eqn:Hr; [|reflexivity].
  destruct r; simpl in Hr; [discriminate|].
  destruct (Ascii.eqb a sep); [discriminate|].
  destruct (split_char sep r); discriminate.
Qed.

Lemma split_char_toLowerCase (sep : ascii) (s : string) :
  (forall c, Ascii.eqb (toLowerChar c) sep = Ascii.eqb c sep) ->
  List.length (split_char sep (toLowerCase s)) = List.length (split_char sep s).
Proof.
  intros Hsep. induction s as [|c r IH]; [reflexivity|].
  cbn [toLowerCase]. rewrite !split_char_cons_length, Hsep, IH. reflexivity.
Qed.

(** [s.includes(c)] for a single character. *)
Lemma includes_char (s : string) (k : ascii) :
  includes s (String k "") = any_char (Ascii.eqb k) s.
Proof.
  induction s as [|c r IH]; simpl; [reflexivity|].
  rewrite IH. destruct (ascii_dec k c) as [->|Hne].
  - rewrite Ascii.eqb_refl. destruct r; reflexivity.
  - apply Ascii.eqb_neq in Hne. rewrite Hne. reflexivity.
Qed.

Lemma any_char_toLowerCase (k : ascii) (s : string) :
  (forall c, Ascii.eqb (toLowerChar c) k = Ascii.eqb c k) ->
  any_char (Ascii.eqb k) (toLowerCase s) = any_char (Ascii.eqb k) s.
Proof.
  intros Hk. induction s as [|c r IH]; simpl; [reflexivity|].
  rewrite IH, (Ascii.eqb_sym k), Hk, (Ascii.eqb_sym c). reflexivity.
Qed.

(** The label does not depend on the letter case of the text: the keyword
    and date rules read the lowered text, and the line, comma and full-stop
    counts of the other two rules are the same in both. *)
Theorem detectContentType_ignores_case :
  forall text : string,
    detectContentType (toLowerCase text) = detectContentType text.
Proof.
  intros text. unfold detectContentType.
  rewrite toLowerCase_idempotent.
  rewrite (split_char_toLowerCase Chunker.newline text)
    by (intros c; apply (toLowerChar_punctuation c)).
  rewrite (split_char_toLowerCase "." text)
    by (intros c; apply (toLowerChar_punctuation c)).
  rewrite !(includes_char _ ",").
  rewrite (any_char_toLowerCase "," text)
    by (intros c; apply (toLowerChar_punctuation c)).
  reflexivity.
Qed.

End ClassifierCase.

(* ================================================================== *)

(** ** More on the merge *)

Module MergeKeys.
Import Json Merge.

(** The callback for one key keeps every property that [target] has. *)
Lemma mergeKey_keeps (recur : JValue -> Run JValue) (key key' : string)
    (sv : JValue) (target target' : Fields) :
  mergeKey objectOps recur key sv target = Ret target' ->
  lookup key' target <> None ->
  lookup key' target' <> None.
Proof.
  unfold mergeKey. cbn [read assign hasLength objectOps]. intros Hrun Hhas.
  assert (Hset : forall v, lookup key' (set key v target) <> None).
  { intros v. destruct (String.eqb_spec key' key) as [->|Hne].
    - rewrite MergeProperties.lookup_set_same. discriminate.
    - rewrite MergeProperties.lookup_set_other by assumption. assumption. }
  repeat match type of Hrun with
         | context [if ?b then _ else _] => destruct b
         | context [match ?x with _ => _ end] => destruct x
         end;
    try discriminate; inversion Hrun; subst; auto.
Qed.

Lemma forEachKey_keeps (key' : string) (fs : Fields) :
  forall target target',
    forEachKey objectOps fs target = Ret target' ->
    lookup key' target <> None ->
    lookup key' target' <> None.
Proof.
  induction fs as [|[key sv] fs IH]; simpl; intros target target' Hrun Hhas.
  - inversion Hrun; subst. assumption.
  - destruct (mergeKey objectOps (recurFor sv) key sv target) as [t1| |] eqn:Hkey;
      try discriminate.
    apply (IH t1 target' Hrun).
    apply (mergeKey_keeps _ _ _ _ _ _ Hkey Hhas).
Qed.

(** A key of [source] that [target] lacks is not [__proto__] with an
    object or an array. *)
Lemma plainMerge_proto (target source : Fields) (key : string) (sv : JValue) :
  wellFormed (JObj source) = true ->
  plainMerge (JObj source) (JObj target) = true ->
  lookup key target = None ->
  lookup key source = Some sv ->
  (key =? "__proto__") && isObjectLike sv = false.
Proof.
  intros Hsource Hplain Hlacks Hhas.
  pose proof (MergeProperties.plainMerge_entries (JObj source) target
                Hsource Hplain key sv
                (MergeProperties.lookup_In key source sv Hhas)) as Hentry.
  rewrite Hlacks in Hentry. exact Hentry.
Qed.

(** The merge of two documents that [JSON.parse] returned returns, when it
    writes into no prototype and into no [length] of an array
    ([plainMerge]).  It never
    removes a property of [target], it leaves alone the properties whose
    key [source] does not have, and whatever is in the result comes under a
    key of [target] or of [source]. *)
Theorem merge_keeps_and_bounds_keys :
  forall (target source : Fields),
    wellFormed (JObj target) = true ->
    wellFormed (JObj source) = true ->
    plainMerge (JObj source) (JObj target) = true ->
    exists target',
      mergeAnalysisResults target source = Ret target'
      /\ forall key : string,
           (lookup key target <> None -> lookup key target' <> None)
           /\ (~ In key (keys source) -> lookup key target' = lookup key target)
           /\ (lookup key target' <> None ->
               lookup key target <> None \/ In key (keys source)).
Proof.
  intros target source Htarget Hsource Hordinary.
  destruct (MergeProperties.mergeAnalysisResults_plain target source
              Htarget Hsource Hordinary) as [target' Hrun].
  exists target'. split; [exact Hrun|]. intros key.
  rewrite MergeProperties.mergeAnalysisResults_forEachKey in Hrun.
  split; [|split].
  - apply (forEachKey_keeps key source target target' Hrun).
  - apply (MergeProperties.forEachKey_other key source target target' Hrun).
  - intros Hhas. destruct (in_dec string_dec key (keys source)) as [Hin|Hout];
      [right; assumption | left].
    rewrite <- (MergeProperties.forEachKey_other key source target target' Hrun Hout).
    assumption.
Qed.

Lemma merge_keeps_and_bounds_keys_witness :
  exists target',
    mergeAnalysisResults Samples.firstChunkResult Samples.secondChunkResult
    = Ret target'
    /\ lookup "b" target' <> None
    /\ lookup "zz" target' = lookup "zz" Samples.firstChunkResult.
Proof.
  destruct (merge_keeps_and_bounds_keys Samples.firstChunkResult
              Samples.secondChunkResult eq_refl eq_refl eq_refl)
    as (target' & Hrun & H).
  exists target'. split; [exact Hrun|]. split.
  - apply (proj1 (H "b")). discriminate.
  - apply (proj1 (proj2 (H "zz"))). simpl. intuition discriminate.
Defined.

(** Where both documents hold a value under a key and the one of [target]
    is a scalar, the merge returns and a truthy scalar of [target] stays; a
    falsy one ([0], [""], [false], [null]) is replaced by the value of
    [source], whatever that is. *)
Theorem merge_scalar_conflict_by_truthiness :
  forall (target source : Fields) (key : string) (tv sv : JValue),
    wellFormed (JObj target) = true ->
    wellFormed (JObj source) = true ->
    plainMerge (JObj source) (JObj target) = true ->
    lookup key target = Some tv ->
    isObjectLike tv = false ->
    lookup key source = Some sv ->
    exists target',
      mergeAnalysisResults target source = Ret target'
      /\ lookup key target' = Some (if truthy tv then tv else sv).
Proof.
  intros target source key tv sv.
  apply MergeProperties.merge_scalar_conflict.
Qed.

Lemma merge_scalar_conflict_by_truthiness_witness :
  exists target',
    mergeAnalysisResults Samples.firstChunkResult Samples.secondChunkResult
    = Ret target'
    /\ lookup "b" target' = Some (JStr "x").
Proof.
  apply (merge_scalar_conflict_by_truthiness
           Samples.firstChunkResult Samples.secondChunkResult
           "b" (JStr "x") (JStr "y")
           eq_refl eq_refl eq_refl eq_refl eq_refl eq_refl).
Defined.

(** A key that [target] lacks gets the value of [source] as it is, unless
    the key names a member that every object inherits from
    [Object.prototype] ([constructor], [toString], ...), or is [__proto__]
    with a scalar as its value: [target[key]] then reads the inherited
    member, which is truthy, and the value of [source] is dropped.  (An
    object or an array under [__proto__] is not dropped: it is merged into
    [Object.prototype]; [plainMerge] leaves such a [source] out.) *)
Theorem merge_missing_key :
  forall (target source : Fields) (key : string) (sv : JValue),
    wellFormed (JObj target) = true ->
    wellFormed (JObj source) = true ->
    plainMerge (JObj source) (JObj target) = true ->
    lookup key target = None ->
    lookup key source = Some sv ->
    exists target',
      mergeAnalysisResults target source = Ret target'
      /\ lookup key target'
         = if (key =? "__proto__") || existsb (String.eqb key) prototype_methods
           then None else Some sv.
Proof.
  intros target source key sv Htarget Hsource Hordinary Hlacks Hhas.
  destruct (MergeProperties.merge_at target source key sv
              Htarget Hsource Hordinary Hhas)
    as (target' & before & after & Hrun & Hbefore & Hkey & Hafter).
  exists target'. split; [exact Hrun|].
  pose proof (plainMerge_proto target source key sv Hsource Hordinary
                Hlacks Hhas) as Hproto.
  rewrite Hlacks in Hbefore. rewrite Hafter. clear Hafter Hrun.
  unfold mergeKey in Hkey. cbn [read assign hasLength objectOps] in Hkey.
  unfold get in Hkey. rewrite Hbefore in Hkey.
  destruct (key =? "__proto__"); cbn [orb andb] in *.
  - rewrite Hproto in Hkey.
    cbn [read_isArray read_isObjectLike read_truthy negb andb] in Hkey.
    rewrite andb_false_r in Hkey.
    injection Hkey as <-. assumption.
  - destruct (existsb (String.eqb key) prototype_methods);
      cbn [read_isArray read_isObjectLike read_truthy negb andb] in Hkey;
      rewrite !andb_false_r in Hkey; injection Hkey as <-.
    + assumption.
    + apply MergeProperties.lookup_set_same.
Qed.

Lemma merge_missing_key_witness :
  (exists target',
      mergeAnalysisResults Samples.firstChunkResult Samples.secondChunkResult
      = Ret target'
      /\ lookup "c" target' = Some (int 5))
  /\ (exists target',
         mergeAnalysisResults [("title", JStr "t")] [("constructor", JStr "Ann")]
         = Ret target'
         /\ lookup "constructor" target' = None)
  /\ exists target',
       mergeAnalysisResults [("title", JStr "t")] [("__proto__", JStr "Ann")]
       = Ret target'
       /\ lookup "__proto__" target' = None.
Proof.
  split; [|split].
  - apply (merge_missing_key
             Samples.firstChunkResult Samples.secondChunkResult "c" (int 5)
             eq_refl eq_refl eq_refl eq_refl eq_refl).
  - apply (merge_missing_key
             [("title", JStr "t")] [("constructor", JStr "Ann")]
             "constructor" (JStr "Ann")
             eq_refl eq_refl eq_refl eq_refl eq_refl).
  - apply (merge_missing_key
             [("title", JStr "t")] [("__proto__", JStr "Ann")]
             "__proto__" (JStr "Ann")
             eq_refl eq_refl eq_refl eq_refl eq_refl).
Defined.

(** Where both documents hold an object or an array under a key, and not
    an array each, the value of [target] is merged with the one of [source]
    by the same function, and the result takes its place: two plain
    objects, an array into a plain object (its indices become keys), or a
    plain object into an array. *)
Theorem merge_nested_objects :
  (forall (target source : Fields) (key : string) (tv sv : JValue),
      wellFormed (JObj target) = true ->
      wellFormed (JObj source) = true ->
      plainMerge (JObj source) (JObj target) = true ->
      lookup key target = Some tv ->
      lookup key source = Some sv ->
      isObjectLike tv = true ->
      isObjectLike sv = true ->
      isArray sv && isArray tv = false ->
      exists target' tv',
        mergeAnalysisResults target source = Ret target'
        /\ mergeInto tv sv = Ret tv'
        /\ lookup key target' = Some tv')
  /\ (forall sub ssub : Fields,
         mergeInto (JObj sub) (JObj ssub)
         = runMap JObj (mergeAnalysisResults sub ssub))
  /\ mergeAnalysisResults
       [ ("k", JObj [ ("a", JObj [ ("x", int 1) ]) ]) ]
       [ ("k", JObj [ ("a", JArr [ int 1 ]) ]) ]
     = Ret [ ("k", JObj [ ("a", JObj [ ("0", int 1); ("x", int 1) ]) ]) ]
  /\ mergeAnalysisResults
       [ ("k", JArr [ int 7 ]) ]
       [ ("k", JObj [ ("0", int 8); ("1", int 9); ("x", int 1) ]) ]
     = Ret [ ("k", JArrWith [ Some (int 7); Some (int 9) ] [ ("x", int 1) ]) ].
Proof.
  split; [|split; [|split]]; [| reflexivity | vm_compute; reflexivity
                              | vm_compute; reflexivity].
  intros target source key tv sv Htarget Hsource Hordinary Hthere Hhas
         Htv Hsv Harrays.
  destruct (MergeProperties.merge_at target source key sv
              Htarget Hsource Hordinary Hhas)
    as (target' & before & after & Hrun & Hbefore & Hkey & Hafter).
  rewrite Hthere in Hbefore.
  unfold mergeKey in Hkey. cbn [read assign hasLength objectOps] in Hkey.
  unfold get in Hkey. rewrite Hbefore in Hkey.
  cbn [read_isArray read_isObjectLike] in Hkey.
  rewrite Harrays, Hsv, Htv in Hkey. cbn [andb] in Hkey.
  change (recurFor sv tv) with (mergeInto tv sv) in Hkey.
  destruct (mergeInto tv sv) as [tv'| |]; try discriminate.
  injection Hkey as <-. exists target', tv'.
  split; [exact Hrun|]. split; [reflexivity|].
  rewrite Hafter. apply MergeProperties.lookup_set_same.
Qed.

Lemma merge_nested_objects_witness :
  exists target' tv',
    mergeAnalysisResults
      [ ("meta", JObj [ ("n", int 1) ]) ]
      [ ("meta", JObj [ ("n", int 2); ("m", int 3) ]) ] = Ret target'
    /\ mergeInto (JObj [ ("n", int 1) ]) (JObj [ ("n", int 2); ("m", int 3) ])
       = Ret tv'
    /\ lookup "meta" target' = Some tv'.
Proof.
  apply (proj1 merge_nested_objects
           [ ("meta", JObj [ ("n", int 1) ]) ]
           [ ("meta", JObj [ ("n", int 2); ("m", int 3) ]) ]
           "meta" (JObj [ ("n", int 1) ]) (JObj [ ("n", int 2); ("m", int 3) ])
           eq_refl eq_refl eq_refl eq_refl eq_refl eq_refl eq_refl eq_refl).
Defined.

(** *** The array filter, applied twice *)

Lemma dedup_first_fixed (l : list JValue) :
  forall seen,
    NoDup (map stringify l) ->
    (forall x, In x l -> ~ In (stringify x) seen) ->
    dedup_first seen l = l.
Proof.
  induction l as [|x l IH]; intros seen Hnodup Hfresh; [reflexivity|].
  simpl. simpl in Hnodup. inversion Hnodup as [|? ? Hx Hrest]; subst.
  destruct (existsb (String.eqb (stringify x)) seen) eqn:Hseen.
  - apply existsb_exists in Hseen. destruct Hseen as (s & Hs & Heq).
    apply String.eqb_eq in Heq. subst s.
    contradiction (Hfresh x (or_introl eq_refl)).
  - f_equal. apply IH; [assumption|].
    intros y Hy [Heq | Hin].
    + apply Hx. rewrite Heq. apply in_map. assumption.
    + apply (Hfresh y (or_intror Hy) Hin).
Qed.

(** Filtering an array a second time changes nothing, and an array whose
    elements all serialize differently is left as it is. *)
Theorem dedupe_idempotent :
  (forall combined, dedupe (dedupe combined) = dedupe combined)
  /\ (forall combined,
         NoDup (map stringify combined) -> dedupe combined = combined).
Proof.
  split.
  - intros combined. rewrite !MergeProperties.dedupe_dedup_first.
    apply dedup_first_fixed.
    + apply MergeProperties.dedup_first_NoDup.
    + intros x _ [].
  - intros combined Hnodup. rewrite MergeProperties.dedupe_dedup_first.
    apply dedup_first_fixed; [assumption | intros x _ []].
Qed.

Lemma dedupe_idempotent_witness :
  dedupe [int 1; JStr "1"; JNull] = [int 1; JStr "1"; JNull].
Proof.
  apply (proj2 dedupe_idempotent [int 1; JStr "1"; JNull]).
  repeat constructor; simpl; intuition discriminate.
Defined.

End MergeKeys.

(* ================================================================== *)

(** ** More on the field extractor *)

Module FieldPaths.
Import Json FieldExtractor.

Lemma extractFields_cons (key : string) (v : JValue) (rest : Fields) (prefix : string) :
  extractFields (JObj ((key, v) :: rest)) prefix
  = (fullKeyOf prefix key
     :: (if isPlainObject v && (segments prefix <? 3)%nat
         then extractFields v (fullKeyOf prefix key) else []))
    ++ extractFields (JObj rest) prefix.
Proof. reflexivity. Qed.

Lemma fullKeyOf_top (key : string) : fullKeyOf "" key = key.
Proof. reflexivity. Qed.

(** There are at least as many fields as the document has keys, for an
    object as for an array. *)
Lemma extractFields_keys_bound (document : JValue) (prefix : string) :
  List.length (Object_keys document)
  <= List.length (extractFields document prefix).
Proof.
  unfold Object_keys. destruct document as [| | | |items|fields|slots props];
    cbn [Object_entries map List.length extractFields]; try lia.
  - generalize 0 at 1 3. induction items as [|v rest IH]; intros i;
      cbn [indexed map List.length]; [lia|].
    rewrite length_app. cbn [List.length]. specialize (IH (S i)). lia.
  - induction fields as [|[k v] rest IH]; cbn [map List.length]; [lia|].
    rewrite length_app. cbn [List.length]. lia.
  - generalize 0 at 1 4. induction slots as [|[v|] rest IH]; intros i;
      cbn [present app map List.length].
    + induction props as [|[k v] later IH]; [simpl; lia|].
      simpl. rewrite length_app. simpl in IH. lia.
    + simpl. rewrite length_app. specialize (IH (S i)). simpl in IH. lia.
    + apply IH.
Qed.

(** From top to bottom the fields list every key of the document, in the
    order of [Object.keys]; when no value is a plain object they are
    exactly its keys. *)
Theorem extractFields_top_level_keys :
  (forall (fields : Fields) (key : string),
      In key (keys fields) -> In key (extractFields (JObj fields) ""))
  /\ (forall fields : Fields,
         List.length (keys fields) <= List.length (extractFields (JObj fields) ""))
  /\ (forall fields : Fields,
         Shapes.flat fields = true -> extractFields (JObj fields) "" = keys fields).
Proof.
  split; [|split].
  - induction fields as [|[k v] rest IH]; intros key; [intros []|].
    rewrite extractFields_cons, fullKeyOf_top. simpl.
    intros [-> | Hin]; [left; reflexivity | right].
    apply in_or_app. right. apply IH. assumption.
  - induction fields as [|[k v] rest IH]; [simpl; lia|].
    rewrite extractFields_cons. simpl. rewrite length_app. simpl in IH. lia.
  - induction fields as [|[k v] rest IH]; [reflexivity|].
    unfold Shapes.flat. cbn [forallb snd]. intros Hflat.
    apply andb_true_iff in Hflat. destruct Hflat as [Hv Hrest].
    apply negb_true_iff in Hv.
    rewrite extractFields_cons, fullKeyOf_top, Hv. cbn [andb app keys map fst].
    f_equal. apply IH. exact Hrest.
Qed.

Lemma extractFields_top_level_keys_witness :
  In "metadata" (extractFields Samples.numberedMethod "")
  /\ extractFields (JObj Samples.mergedResult) "" = ["a"; "b"; "c"].
Proof.
  split.
  - apply (proj1 extractFields_top_level_keys). simpl. auto.
  - apply (proj2 (proj2 extractFields_top_level_keys) Samples.mergedResult).
    reflexivity.
Defined.

(** *** The depth of the paths *)

Lemma split_char_app_length (sep : ascii) (a b : string) :
  List.length (JsString.split_char sep (a ++ b)) + 1
  = List.length (JsString.split_char sep a) + List.length (JsString.split_char sep b).
Proof.
  induction a as [|c a IH]; [simpl; lia|].
  change (String c a ++ b)%string with (String c (a ++ b)%string).
  rewrite !ClassifierCase.split_char_cons_length. lia.
Qed.

Lemma segments_dotted (prefix key : string) :
  segments (prefix ++ "." ++ key) = segments prefix + segments key.
Proof.
  unfold segments.
  pose proof (split_char_app_length "." prefix ("." ++ key)) as Happ.
  change ("." ++ key)%string with (String "." key) in *.
  rewrite ClassifierCase.split_char_cons_length in Happ. simpl in Happ. lia.
Qed.

Lemma segments_plain_key (key : string) :
  JsString.includes key "." = false -> segments key = 1.
Proof.
  rewrite ClassifierCase.includes_char. unfold segments.
  induction key as [|c r IH]; [reflexivity|].
  cbn [JsString.any_char]. intros Hnone.
  apply orb_false_iff in Hnone. destruct Hnone as [Hc Hr].
  rewrite ClassifierCase.split_char_cons_length, (Ascii.eqb_sym c), Hc, (IH Hr).
  reflexivity.
Qed.

Lemma segments_positive (s : string) : 1 <= segments s.
Proof.
  unfold segments. destruct s as [|c r]; [simpl; lia|].
  rewrite ClassifierCase.split_char_cons_length.
  destruct r as [|c' r']; [simpl; lia|].
  rewrite ClassifierCase.split_char_cons_length.
  destruct (JsString.split_char "." r') eqn:Hr; simpl; try lia.
  destruct r'; simpl in Hr; [discriminate|].
  destruct (Ascii.eqb a "."); [discriminate|].
  destruct (JsString.split_char "." r'); discriminate.
Qed.

(** The number of segments that a prefix contributes to a path. *)
Lemma fullKeyOf_segments (prefix key : string) :
  JsString.includes key "." = false ->
  segments (fullKeyOf prefix key)
  = if prefix =? "" then 1 else segments prefix + 1.
Proof.
  intros Hkey. unfold fullKeyOf. destruct (prefix =? "").
  - apply segments_plain_key. assumption.
  - rewrite segments_dotted, (segments_plain_key key Hkey). reflexivity.
Qed.

Lemma extractFields_depth (v : JValue) :
  isPlainObject v = true ->
  forall prefix,
    Shapes.dotFree v = true ->
    Forall (fun field => segments field <= Nat.max (segments prefix + 1) 4)
           (extractFields v prefix).
Proof.
  induction v as [| b | n | s | items _ | fields IH | slots props _ _]
    using MergeProperties.JValue_nested_ind; try discriminate.
  intros _ prefix. revert IH.
  induction fields as [|[k x] rest IHrest]; intros IH Hfree; [constructor|].
  pose proof (Forall_inv IH) as Hx. cbn [snd] in Hx.
  pose proof (Forall_inv_tail IH) as Hrest.
  cbn [Shapes.dotFree forallb fst snd] in Hfree.
  apply andb_true_iff in Hfree. destruct Hfree as [Hhere Hlater].
  apply andb_true_iff in Hhere. destruct Hhere as [Hk Hxfree].
  apply negb_true_iff in Hk.
  rewrite extractFields_cons. apply Forall_app. split; [|apply IHrest; assumption].
  pose proof (fullKeyOf_segments prefix k Hk) as Hfull.
  pose proof (segments_positive prefix) as Hpos.
  assert (Hkey : segments (fullKeyOf prefix k) <= segments prefix + 1)
    by (destruct (prefix =? ""); lia).
  constructor; [lia|].
  destruct (isPlainObject x) eqn:Hobject; [|constructor].
  destruct (segments prefix <? 3)%nat eqn:Hdepth; [|constructor].
  apply Nat.ltb_lt in Hdepth. cbn [andb].
  specialize (Hx eq_refl (fullKeyOf prefix k) Hxfree).
  apply (Forall_impl _ (P := fun field =>
           segments field <= Nat.max (segments (fullKeyOf prefix k) + 1) 4));
    [|exact Hx].
  intros field Hfield. lia.
Qed.

(** When no key has a full stop in it, no path has more than four
    segments, however deep the document is: below a prefix of three segments
    the keys are still listed, and their values are not entered. *)
Theorem extractFields_at_most_four_segments :
  (forall fields : Fields,
      Shapes.dotFree (JObj fields) = true ->
      Forall (fun field => segments field <= 4) (extractFields (JObj fields) ""))
  /\ extractFields MoreSamples.deepDocument ""
     = ["a"; "a.b"; "a.b.c"; "a.b.c.d"; "z"].
Proof.
  split; [|reflexivity].
  intros fields Hfree.
  apply (Forall_impl _ (P := fun field => segments field <= Nat.max (segments "" + 1) 4)).
  - intros field Hfield. simpl in Hfield. lia.
  - apply (extractFields_depth (JObj fields) eq_refl "" Hfree).
Qed.

Lemma extractFields_at_most_four_segments_witness :
  Forall (fun field => segments field <= 4)
         (extractFields MoreSamples.deepDocument "").
Proof.
  apply (proj1 extractFields_at_most_four_segments). reflexivity.
Defined.

End FieldPaths.

(* ================================================================== *)

(** ** More on the confidence score *)

Module ConfidenceBounds.
Import Json Confidence.

(** With the bonus for a document that is not a fallback, or with the step
    for a nested document or for an array, the clamped sum is at least
    0.6. *)
Lemma clamped_score_floor (b1 b2 b3 b4 b5 b6 b7 : bool) :
  b7 = true \/ b4 = true \/ b3 = true ->
  PrimFloat.leb 0.6
    (Math_min 0.95 (Math_max 0.3
       (bump b7 (bump b6 (bump b5 (bump b4 (bump b3 (bump b2 (bump b1
          0.5 0.1) 0.1) 0.1) 0.1) 0.1) 0.1) 0.2))) = true.
Proof.
  destruct b1, b2, b3, b4, b5, b6, b7; intros [H|[H|H]]; try discriminate H;
    vm_compute; reflexivity.
Qed.

Lemma lookup_value (key : string) (o : Fields) (v : JValue) :
  lookup key o = Some v -> In v (map snd o).
Proof.
  induction o as [|[k x] r IH]; simpl; [discriminate|].
  destruct (k =? key); [intros [= ->]; left; reflexivity | auto].
Qed.

(** A document marked as a fallback has its [metadata] among its values:
    a plain object, or an array with a named property. *)
Lemma includesFallback_marked (data : JValue) :
  includesFallback data = Ret (Some true) ->
  existsb isPlainObject (Object_values data) = true
  \/ existsb isArray (Object_values data) = true.
Proof.
  unfold includesFallback, member.
  destruct data as [| | | | |o|slots o]; try discriminate;
    (destruct (lookup "metadata" o) as [metadata|] eqn:Hmetadata;
     [|discriminate]);
    intros Hmarked;
    pose proof (lookup_value "metadata" o metadata Hmetadata) as Hin;
    destruct metadata; try discriminate Hmarked;
    [left | right | left | right]; apply existsb_exists; eexists;
    (split; [unfold Object_values; cbn [Object_entries];
             rewrite ?map_app, ?in_app_iff; eauto
            | reflexivity]).
Qed.

Lemma calculateConfidence_floor (data : JValue) (originalText : string)
    (score : float) :
  calculateConfidence data originalText = Ret score ->
  PrimFloat.leb 0.6 score = true.
Proof.
  intros Hscore. unfold calculateConfidence in Hscore.
  destruct (includesFallback data) as [marked| |] eqn:Hmarked; try discriminate.
  injection Hscore as <-. apply clamped_score_floor.
  destruct marked as [[|]|]; [right | left; reflexivity | left; reflexivity].
  destruct (includesFallback_marked data Hmarked); auto.
Qed.



End ConfidenceBounds.

(* ================================================================== *)

(** ** More on the fallback analyzer *)

Module FallbackCounts.
Import JsString TextStats Json Service Pipeline.

Lemma blank_gap_blank (r : string) :
  forall taken last gap,
    blank_gap r taken last = Some gap ->
    last = Some gap \/ (taken < gap /\ Shapes.blank_prefix (gap - taken) r).
Proof.
  induction r as [|c r IH]; intros taken last gap; simpl; [auto|].
  destruct (is_whitespace c) eqn:Hc; [|auto].
  intros Hgap. apply IH in Hgap. destruct Hgap as [Hlast | [Hlt Hblank]].
  - destruct (Ascii.eqb c Chunker.newline); [|auto].
    injection Hlast as <-. right. split; [lia|].
    replace (S taken - taken) with 1 by lia. simpl. auto.
  - right. split; [lia|].
    replace (gap - taken) with (S (gap - S taken)) by lia. simpl. auto.
Qed.

(** A character that is not whitespace ends up in some paragraph
    fragment. *)
Lemma split_blank_lines_keeps (p : ascii -> bool) (s : string) :
  (forall c, p c = true -> is_whitespace c = false) ->
  forall skip,
    Shapes.blank_prefix skip s ->
    any_char p s = true ->
    exists frag, In frag (split_blank_lines skip s) /\ any_char p frag = true.
Proof.
  intros Hp. induction s as [|c r IH]; intros skip Hskip Hany;
    [discriminate|].
  cbn [any_char] in Hany. destruct skip as [|skip].
  - cbn [split_blank_lines].
    destruct (Ascii.eqb c Chunker.newline) eqn:Hnl.
    + apply Ascii.eqb_eq in Hnl. subst c.
      destruct (p Chunker.newline) eqn:Hpn;
        [apply Hp in Hpn; discriminate|].
      cbn [orb] in Hany.
      destruct (blank_gap r 0 None) as [gap|] eqn:Hgap.
      * destruct (blank_gap_blank r 0 None gap Hgap) as [Hnone | [_ Hblank]];
          [discriminate|].
        rewrite Nat.sub_0_r in Hblank.
        destruct (IH gap Hblank Hany) as (frag & Hin & Hfrag).
        exists frag. split; [right; assumption | assumption].
      * apply TextProperties.any_char_cons_first. right.
        apply (IH 0 I Hany).
    + apply TextProperties.any_char_cons_first.
      destruct (p c); [left; reflexivity | right].
      apply (IH 0 I Hany).
  - cbn [split_blank_lines]. destruct Hskip as [Hc Hskip].
    destruct (p c) eqn:Hpc; [apply Hp in Hpc; congruence|].
    apply (IH skip Hskip Hany).
Qed.

Lemma visible_not_whitespace (c : ascii) :
  Shapes.visible c = true -> is_whitespace c = false.
Proof. unfold Shapes.visible. apply negb_true_iff. Qed.

Lemma trimStart_blank (s : string) :
  any_char Shapes.visible s = false -> trimStart s = "".
Proof.
  induction s as [|c r IH]; simpl; [reflexivity|]. unfold Shapes.visible at 1.
  intros Hnone. apply orb_false_iff in Hnone. destruct Hnone as [Hc Hr].
  apply negb_false_iff in Hc. rewrite Hc. apply IH. assumption.
Qed.

Lemma accepted_visible (text : string) :
  accepted text = true -> any_char Shapes.visible text = true.
Proof.
  unfold accepted. intros Haccepted.
  apply andb_true_iff in Haccepted. destruct Haccepted as [Haccepted _].
  apply andb_true_iff in Haccepted. destruct Haccepted as [Htrim _].
  destruct (any_char Shapes.visible text) eqn:Hany; [reflexivity|].
  unfold trim in Htrim. rewrite (trimStart_blank text Hany) in Htrim.
  discriminate Htrim.
Qed.

Lemma paragraphs_not_empty (text : string) :
  any_char Shapes.visible text = true -> 1 <= List.length (paragraphs text).
Proof.
  intros Hany. unfold paragraphs.
  destruct (split_blank_lines_keeps Shapes.visible text visible_not_whitespace 0 I Hany)
    as (frag & Hin & Hfrag).
  assert (Hkept : In frag (filter nonBlank (split_blank_lines 0 text))).
  { apply filter_In. split; [assumption|].
    apply (TextProperties.nonBlank_any_char Shapes.visible frag
             visible_not_whitespace Hfrag). }
  destruct (filter nonBlank (split_blank_lines 0 text));
    [contradiction | simpl; lia].
Qed.

(** For every input that the validation accepts, the fallback document
    counts at least five words, at least one paragraph and at least one
    minute of reading time. *)
Theorem fallback_counts_of_accepted_input :
  forall (rt : Runtime) (text contentType timestamp : string),
    accepted text = true ->
    exists wordCount paragraphCount minutes,
      at_path ["content_analysis"; "word_count"]
              (fallbackDocument rt text contentType timestamp)
      = Some (int wordCount)
      /\ at_path ["content_analysis"; "paragraph_count"]
                 (fallbackDocument rt text contentType timestamp)
         = Some (int paragraphCount)
      /\ at_path ["content_analysis"; "reading_time_minutes"]
                 (fallbackDocument rt text contentType timestamp)
         = Some (int minutes)
      /\ (5 <= wordCount)%Z /\ (1 <= paragraphCount)%Z /\ (1 <= minutes)%Z.
Proof.
  intros rt text contentType timestamp Haccepted.
  pose proof (paragraphs_not_empty text (accepted_visible text Haccepted))
    as Hparagraphs.
  assert (Hwords : 5 <= List.length (words text)).
  { unfold accepted in Haccepted.
    apply andb_true_iff in Haccepted. destruct Haccepted as [Haccepted _].
    apply andb_true_iff in Haccepted. destruct Haccepted as [_ Hcount].
    apply negb_true_iff, Nat.ltb_ge in Hcount. exact Hcount. }
  exists (Z.of_nat (List.length (words text))),
         (Z.of_nat (List.length (paragraphs text))),
         (ceil_div_200 (List.length (words text))).
  split; [reflexivity|]. split; [reflexivity|]. split; [reflexivity|].
  split; [lia|]. split; [lia|].
  unfold ceil_div_200. apply Z.div_le_lower_bound; lia.
Qed.

Lemma fallback_counts_of_accepted_input_witness :
  accepted Samples.narrative = true
  /\ exists wordCount,
       at_path ["content_analysis"; "word_count"]
               (fallbackDocument Runtimes.offline Samples.narrative "" "")
       = Some (int wordCount)
       /\ (5 <= wordCount)%Z.
Proof.
  assert (Haccepted : accepted Samples.narrative = true)
    by (vm_compute; reflexivity).
  split; [exact Haccepted|].
  destruct (fallback_counts_of_accepted_input Runtimes.offline Samples.narrative
              "" "" Haccepted)
    as (wordCount & _ & _ & Hw & _ & _ & Hfive & _).
  exists wordCount. split; assumption.
Defined.

(** *** The paragraph entries *)

Lemma append_length (a b : string) :
  String.length (a ++ b) = String.length a + String.length b.
Proof. induction a as [|c a IH]; simpl; [reflexivity | rewrite IH; reflexivity]. Qed.

Lemma paragraphEntries_length (paragraphs : list string) :
  forall index,
    List.length (paragraphEntries index paragraphs) = List.length paragraphs.
Proof.
  induction paragraphs as [|para rest IH]; intros index; simpl;
    [reflexivity | rewrite IH; reflexivity].
Qed.

Lemma paragraphEntries_nth (paragraphs : list string) :
  forall index i entry,
    nth_error (paragraphEntries index paragraphs) i = Some entry ->
    Shapes.paragraphEntry (Z.of_nat (index + i + 1)) entry.
Proof.
  induction paragraphs as [|para rest IH]; intros index [|i] entry; simpl;
    try discriminate.
  - intros [= <-]. unfold Shapes.paragraphEntry.
    eexists _, _. rewrite Nat.add_0_r. split; [reflexivity|]. split.
    + pose proof (TextProperties.split_runs_from_not_nil is_whitespace para false).
      unfold split_runs.
      destruct (split_runs_from is_whitespace false para); [contradiction|].
      simpl. lia.
    + rewrite append_length.
      pose proof (ChunkerBounds.substring_length 0 100 para).
      destruct (100 <? String.length para)%nat; simpl; lia.
  - intros Hnth. apply IH in Hnth.
    replace (index + S i + 1) with (S index + i + 1) by lia. exact Hnth.
Qed.

(** [structure.paragraphs] has one entry per counted paragraph, numbered
    from 1 in order, each with a word count of at least one and a preview
    of at most 103 characters. *)
Theorem fallback_paragraph_entries :
  forall (rt : Runtime) (text contentType timestamp : string),
    exists entries,
      at_path ["structure"; "paragraphs"]
              (fallbackDocument rt text contentType timestamp)
      = Some (JArr entries)
      /\ at_path ["content_analysis"; "paragraph_count"]
                 (fallbackDocument rt text contentType timestamp)
         = Some (int (Z.of_nat (List.length entries)))
      /\ forall i entry,
           nth_error entries i = Some entry ->
           Shapes.paragraphEntry (Z.of_nat (i + 1)) entry.
Proof.
  intros rt text contentType timestamp.
  exists (paragraphEntries 0 (paragraphs text)).
  split; [reflexivity|]. split.
  - rewrite paragraphEntries_length. reflexivity.
  - intros i entry Hnth.
    apply (paragraphEntries_nth (paragraphs text) 0 i entry Hnth).
Qed.

Lemma fallback_paragraph_entries_witness :
  exists entry,
    nth_error (paragraphEntries 0
                 (paragraphs MoreSamples.twoParagraphs)) 1 = Some entry
    /\ Shapes.paragraphEntry 2 entry.
Proof.
  destruct (fallback_paragraph_entries Runtimes.offline MoreSamples.twoParagraphs
              "" "") as (entries & Hentries & _ & Hnth).
  cbn [fallbackDocument at_path lookup String.eqb Ascii.eqb Bool.eqb] in Hentries.
  injection Hentries as <-.
  destruct (nth_error (paragraphEntries 0
                         (paragraphs MoreSamples.twoParagraphs)) 1)
    as [entry|] eqn:Hentry; [|vm_compute in Hentry; discriminate Hentry].
  exists entry. split; [reflexivity|]. apply (Hnth 1 entry Hentry).
Defined.

End FallbackCounts.

(* ================================================================== *)

(** ** Cleaning and recovering a response *)

Module ResponseCleaning.
Import JsString ResponseText Json Service Pipeline.

Lemma prefix_backtick (c : ascii) (p r : string) :
  Shapes.plain_char c = true -> prefix (String "`" p) (String c r) = false.
Proof.
  unfold Shapes.plain_char. intros Hc. apply negb_true_iff in Hc.
  cbn [prefix]. destruct (ascii_dec "`" c) as [<-|]; [discriminate | reflexivity].
Qed.

(** Before a character that is not a backtick, and at the end of the
    text, no fence begins, with or without a line feed in front. *)
Lemma prefix_newline_fence (c : ascii) (r tail : string) :
  Shapes.all_chars Shapes.plain_char (String c r) = true ->
  prefix (nl ++ "```") (String c (r ++ nl ++ tail)) = false.
Proof.
  cbn [Shapes.all_chars]. intros Hplain.
  apply andb_true_iff in Hplain. destruct Hplain as [Hc Hr].
  unfold nl. cbn [append prefix].
  destruct (ascii_dec Chunker.newline c); [|reflexivity].
  destruct r as [|c' r']; [reflexivity|].
  cbn [Shapes.all_chars] in Hr. apply andb_true_iff in Hr.
  apply (prefix_backtick c' _ _ (proj1 Hr)).
Qed.

Lemma prefix_newline_fence_end (c : ascii) (r : string) :
  Shapes.all_chars Shapes.plain_char (String c r) = true ->
  prefix (nl ++ "```") (String c r) = false.
Proof.
  cbn [Shapes.all_chars]. intros Hplain.
  apply andb_true_iff in Hplain. destruct Hplain as [Hc Hr].
  unfold nl. cbn [append prefix].
  destruct (ascii_dec Chunker.newline c); [|reflexivity].
  destruct r as [|c' r']; [reflexivity|].
  cbn [Shapes.all_chars] in Hr. apply andb_true_iff in Hr.
  apply (prefix_backtick c' _ _ (proj1 Hr)).
Qed.

(** The first replacement drops a closing fence and the line feed before
    it, and nothing of a body without backticks. *)
Lemma stripJsonFences_closing (body : string) :
  Shapes.all_chars Shapes.plain_char body = true ->
  stripJsonFences 0 (body ++ nl ++ "```") = body.
Proof.
  induction body as [|c r IH]; intros Hplain; [reflexivity|].
  pose proof (prefix_newline_fence c r "```" Hplain) as Hfence.
  cbn [Shapes.all_chars] in Hplain.
  apply andb_true_iff in Hplain. destruct Hplain as [Hc Hr].
  change (String c r ++ nl ++ "```")%string with (String c (r ++ nl ++ "```")).
  cbn [stripJsonFences]. unfold nl in *. cbn [append] in *.
  rewrite !(prefix_backtick c _ _ Hc), Hfence, (IH Hr). reflexivity.
Qed.

Lemma stripJsonFences_plain (body : string) :
  Shapes.all_chars Shapes.plain_char body = true ->
  stripJsonFences 0 body = body.
Proof.
  induction body as [|c r IH]; intros Hplain; [reflexivity|].
  pose proof (prefix_newline_fence_end c r Hplain) as Hfence.
  cbn [Shapes.all_chars] in Hplain.
  apply andb_true_iff in Hplain. destruct Hplain as [Hc Hr].
  cbn [stripJsonFences]. unfold nl in *. cbn [append] in *.
  rewrite !(prefix_backtick c _ _ Hc), Hfence, (IH Hr). reflexivity.
Qed.

Lemma stripFences_plain (body : string) :
  Shapes.all_chars Shapes.plain_char body = true ->
  stripFences 0 body = body.
Proof.
  induction body as [|c r IH]; intros Hplain; [reflexivity|].
  pose proof (prefix_newline_fence_end c r Hplain) as Hfence.
  cbn [Shapes.all_chars] in Hplain.
  apply andb_true_iff in Hplain. destruct Hplain as [Hc Hr].
  cbn [stripFences]. unfold nl in *. cbn [append] in *.
  rewrite !(prefix_backtick c _ _ Hc), Hfence, (IH Hr). reflexivity.
Qed.

Lemma prefix_app (p rest : string) : prefix p (p ++ rest) = true.
Proof.
  induction p as [|a p IH]; [destruct rest; reflexivity|].
  cbn [append prefix]. destruct (ascii_dec a a) as [_|Hne];
    [exact IH | contradiction Hne; reflexivity].
Qed.

Lemma stripJsonFences_opening (rest : string) :
  stripJsonFences 0 ("```json" ++ nl ++ rest) = stripJsonFences 0 rest.
Proof.
  pose proof (prefix_app ("```json" ++ nl) rest) as Hopening.
  unfold nl. cbn [append]. cbn [stripJsonFences].
  unfold nl in *. cbn [append] in *. rewrite Hopening. reflexivity.
Qed.

Lemma trimStart_newline (s : string) : trimStart (nl ++ s) = trimStart s.
Proof. reflexivity. Qed.

(** A body without backticks comes out of the cleaning trimmed and
    otherwise unchanged, whether it is bare or stands in a fenced block,
    with or without the [json] tag; so a document sent in a fenced block is
    taken as the result of the first chunk. *)
Theorem cleanJson_unwraps_fenced_block :
  forall body : string,
    Shapes.all_chars Shapes.plain_char body = true ->
    cleanJson body = trim body
    /\ cleanJson ("```json" ++ nl ++ body ++ nl ++ "```") = trim body
    /\ cleanJson ("```" ++ nl ++ body ++ nl ++ "```") = trim body
    /\ forall (rt : Runtime) (combinedAnalysis document : JValue),
         JSON_parse rt (trim body) = Some document ->
         isObjectLike document = true ->
         absorb rt 0 combinedAnalysis
                (Shapes.reply ("```json" ++ nl ++ body ++ nl ++ "```"))
         = Ret document.
Proof.
  intros body Hplain.
  assert (Hjson : cleanJson ("```json" ++ nl ++ body ++ nl ++ "```") = trim body).
  { unfold cleanJson.
    rewrite stripJsonFences_opening, (stripJsonFences_closing body Hplain),
      (stripFences_plain body Hplain). reflexivity. }
  split; [|split; [exact Hjson | split]].
  - unfold cleanJson.
    rewrite (stripJsonFences_plain body Hplain), (stripFences_plain body Hplain).
    reflexivity.
  - unfold cleanJson.
    change (stripJsonFences 0 ("```" ++ nl ++ body ++ nl ++ "```"))
      with (stripJsonFences 0 (nl ++ body ++ nl ++ "```")).
    change (nl ++ body ++ nl ++ "```")%string
      with (String Chunker.newline body ++ nl ++ "```")%string.
    rewrite (stripJsonFences_closing (String Chunker.newline body)),
      (stripFences_plain (String Chunker.newline body));
      [reflexivity | exact Hplain | exact Hplain].
  - intros rt combinedAnalysis document Hparse Hobject.
    assert (Hfilled : (("```json" ++ nl ++ body ++ nl ++ "```") =? "") = false)
      by reflexivity.
    unfold absorb, Shapes.reply.
    cbn [resultResponse member lookup String.eqb Ascii.eqb Bool.eqb truthy].
    rewrite Hfilled, Hjson, Hparse, Hobject. reflexivity.
Qed.

Lemma cleanJson_unwraps_fenced_block_witness :
  Shapes.all_chars Shapes.plain_char MoreSamples.fencedBody = true
  /\ cleanJson MoreSamples.fencedResponse = MoreSamples.fencedBody
  /\ absorb (Runtimes.scripted [] [JObj [("a", int 1)]]) 0 (JObj [])
            (Shapes.reply MoreSamples.fencedResponse)
     = Ret (JObj [("a", int 1)]).
Proof.
  pose proof (cleanJson_unwraps_fenced_block MoreSamples.fencedBody eq_refl)
    as (_ & Hjson & _ & Habsorb).
  split; [reflexivity|]. split; [exact Hjson|].
  apply (Habsorb (Runtimes.scripted [] [JObj [("a", int 1)]]));
    reflexivity.
Defined.

(** *** The text between the braces *)

Lemma fromFirstBrace_skips (before rest : string) :
  Shapes.all_chars Shapes.not_open before = true ->
  fromFirstBrace (before ++ String "{" rest) = Some (String "{" rest).
Proof.
  induction before as [|c r IH]; [reflexivity|].
  cbn [Shapes.all_chars append fromFirstBrace]. unfold Shapes.not_open at 1.
  intros Hplain. apply andb_true_iff in Hplain. destruct Hplain as [Hc Hr].
  apply negb_true_iff in Hc. rewrite Hc. apply IH. assumption.
Qed.

Lemma prefix_close (c : ascii) (r : string) :
  Shapes.not_close c = true -> prefix "}" (String c r) = false.
Proof.
  unfold Shapes.not_close. intros Hc. apply negb_true_iff in Hc.
  cbn [prefix]. destruct (ascii_dec "}" c) as [<-|]; [discriminate | reflexivity].
Qed.

Lemma lastIndexOf_scan_none (rest : string) :
  Shapes.all_chars Shapes.not_close rest = true ->
  forall i fromIndex best, lastIndexOf_scan rest "}" i fromIndex best = best.
Proof.
  induction rest as [|c r IH]; intros Hplain i fromIndex best;
    cbn [lastIndexOf_scan].
  - destruct (fromIndex <? i)%nat; reflexivity.
  - cbn [Shapes.all_chars] in Hplain.
    apply andb_true_iff in Hplain. destruct Hplain as [Hc Hr].
    rewrite (prefix_close c r Hc), (IH Hr).
    destruct (fromIndex <? i)%nat; reflexivity.
Qed.

Lemma lastIndexOf_scan_last (after : string) :
  Shapes.all_chars Shapes.not_close after = true ->
  forall inside i fromIndex best,
    i + String.length inside <= fromIndex ->
    lastIndexOf_scan (inside ++ String "}" after) "}" i fromIndex best
    = Z.of_nat (i + String.length inside).
Proof.
  intros Hplain. induction inside as [|c r IH]; intros i fromIndex best Hfrom.
  - cbn [append lastIndexOf_scan String.length] in *.
    replace (fromIndex <? i)%nat with false by (symmetry; apply Nat.ltb_ge; lia).
    rewrite (lastIndexOf_scan_none after Hplain).
    cbn [prefix]. destruct (ascii_dec "}" "}") as [_|Hne];
      [|contradiction Hne; reflexivity].
    destruct after; rewrite Nat.add_0_r; reflexivity.
  - cbn [append lastIndexOf_scan String.length] in *.
    replace (fromIndex <? i)%nat with false by (symmetry; apply Nat.ltb_ge; lia).
    rewrite IH by lia. f_equal. lia.
Qed.

Lemma append_associative (a b c : string) :
  (a ++ (b ++ c) = (a ++ b) ++ c)%string.
Proof.
  induction a as [|x a IH]; [reflexivity|].
  cbn [append]. rewrite IH. reflexivity.
Qed.

Lemma String_substring_prefix (a b : string) :
  String.substring 0 (String.length a) (a ++ b) = a.
Proof.
  induction a as [|c a IH]; [destruct b; reflexivity|].
  cbn [String.length append String.substring]. rewrite IH. reflexivity.
Qed.

(** When the response has prose around one JSON object, the match of line
    215 is the object: everything from the first opening brace to the last
    closing brace. *)
Theorem matchBraces_strips_prose :
  forall before inside after : string,
    Shapes.all_chars Shapes.not_open before = true ->
    Shapes.all_chars Shapes.not_close after = true ->
    matchBraces (before ++ "{" ++ inside ++ "}" ++ after)%string
    = Some ("{" ++ inside ++ "}")%string.
Proof.
  intros before inside after Hbefore Hafter. unfold matchBraces.
  change (before ++ "{" ++ inside ++ "}" ++ after)%string
    with (before ++ String "{" (inside ++ String "}" after))%string.
  rewrite (fromFirstBrace_skips before _ Hbefore).
  unfold lastIndexOf.
  change (String "{" (inside ++ String "}" after))
    with (String "{" inside ++ String "}" after)%string.
  assert (Hlength : String.length (String "{" inside ++ String "}" after)
                    = String.length (String "{" inside ++ "}")
                      + String.length after).
  { rewrite !FallbackCounts.append_length. simpl. lia. }
  rewrite (lastIndexOf_scan_last after Hafter (String "{" inside) 0)
    by (rewrite Hlength, FallbackCounts.append_length; simpl; lia).
  cbn [String.length Nat.add].
  replace (0 <? Z.of_nat (S (String.length inside)))%Z with true
    by (symmetry; apply Z.ltb_lt; lia).
  f_equal. unfold substring.
  replace (Z.to_nat (Z.of_nat (S (String.length inside))) + 1)
    with (String.length (String "{" inside ++ "}"))
    by (rewrite FallbackCounts.append_length; simpl; lia).
  rewrite Nat.min_0_l, Nat.max_0_l, Nat.sub_0_r.
  change (String "{" inside ++ String "}" after)%string
    with (String "{" inside ++ ("}" ++ after))%string.
  rewrite append_associative, String_substring_prefix. reflexivity.
Qed.

Lemma matchBraces_strips_prose_witness :
  matchBraces ("Here is the JSON: " ++ "{" ++ "x" ++ "}" ++ " Hope it helps.")%string
  = Some ("{" ++ "x" ++ "}")%string.
Proof.
  apply (matchBraces_strips_prose "Here is the JSON: " "x" " Hope it helps.");
    reflexivity.
Defined.

(** Without an opening brace, or with no closing brace after the first
    opening one, there is nothing to recover. *)
Theorem matchBraces_needs_both_braces :
  forall response : string,
    Shapes.all_chars Shapes.not_open response = true
    \/ Shapes.all_chars Shapes.not_close response = true ->
    matchBraces response = None.
Proof.
  intros response [Hopen | Hclose]; unfold matchBraces.
  - assert (Hnone : fromFirstBrace response = None).
    { induction response as [|c r IH]; [reflexivity|].
      cbn [Shapes.all_chars fromFirstBrace] in *.
      apply andb_true_iff in Hopen. destruct Hopen as [Hc Hr].
      unfold Shapes.not_open in Hc. apply negb_true_iff in Hc. rewrite Hc. auto. }
    rewrite Hnone. reflexivity.
  - destruct (fromFirstBrace response) as [t|] eqn:Hfirst; [|reflexivity].
    assert (Ht : Shapes.all_chars Shapes.not_close t = true).
    { revert Hfirst. induction response as [|c r IH]; [discriminate|].
      cbn [fromFirstBrace]. pose proof Hclose as Hall.
      cbn [Shapes.all_chars] in Hclose.
      apply andb_true_iff in Hclose. destruct Hclose as [_ Hr].
      destruct (Ascii.eqb c "{"); [intros [= <-]; assumption | auto]. }
    unfold lastIndexOf. rewrite (lastIndexOf_scan_none t Ht). reflexivity.
Qed.

Lemma matchBraces_needs_both_braces_witness :
  matchBraces "no JSON here" = None /\ matchBraces "cut off: {" = None.
Proof.
  split.
  - apply matchBraces_needs_both_braces. left. reflexivity.
  - apply matchBraces_needs_both_braces. right. reflexivity.
Defined.

End ResponseCleaning.

(* ================================================================== *)
(** ** The pipeline as a whole *)

Module PipelineShape.
Import JsString Json Service Pipeline.

Section WithRuntime.

Variable rt : Runtime.

(** Whatever the service does, [generateSummary] returns a string without
    whitespace around it, and has sent nothing or the one request for the
    first 2000 characters. *)
Lemma generateSummary_outcome (text : string) (st : State rt) :
  exists summary st',
    generateSummary rt text st = (Ret summary, st')
    /\ trim summary = summary
    /\ (st' = st
        \/ credentials rt = true
           /\ sent st' = sent st ++ [summaryRequest (substring 0 2000 text)]).
Proof.
  unfold generateSummary, try_catch, bind, callCloudflareAI.
  destruct (credentials rt); cbn [negb];
    [|exists "Unable to generate summary", st; repeat split; left; reflexivity].
  destruct (fetch rt (summaryRequest (substring 0 2000 text)) (world st))
    as [result world'].
  destruct result as [message | status statusText errorText | response];
    try (eexists _, _; split; [reflexivity|]; split;
         [reflexivity | right; split; reflexivity]).
  unfold lift.
  destruct (resultResponse response) as [[v|]| |] eqn:Hreply;
    try (eexists _, _; split; [reflexivity|]; split;
         [reflexivity | right; split; reflexivity]).
  - destruct (truthy v);
      [|eexists _, _; split; [reflexivity|]; split;
        [reflexivity | right; split; reflexivity]].
    destruct v;
      try (eexists _, _; split; [reflexivity|]; split;
           [reflexivity | right; split; reflexivity]).
    eexists _, _; split; [reflexivity|]; split;
      [apply ChunkerBounds.trim_idempotent | right; split; reflexivity].
  - contradiction (ExtractorProperties.resultResponse_not_beyond response Hreply).
Qed.

(** What [matchBraces] finds begins with a brace. *)
Lemma fromFirstBrace_open (s t : string) :
  ResponseText.fromFirstBrace s = Some t -> exists r, t = String "{" r.
Proof.
  induction s as [|c r IH]; simpl; [discriminate|].
  destruct (Ascii.eqb_spec c "{") as [->|_]; [|exact IH].
  intros [= <-]. exists r. reflexivity.
Qed.

Lemma matchBraces_open (response jsonMatch : string) :
  ResponseText.matchBraces response = Some jsonMatch ->
  String.prefix "{" jsonMatch = true.
Proof.
  unfold ResponseText.matchBraces.
  destruct (ResponseText.fromFirstBrace response) as [t|] eqn:Ht; [|discriminate].
  destruct (fromFirstBrace_open response t Ht) as [r ->].
  destruct (0 <? lastIndexOf (String "{" r) "}" (String.length (String "{" r)))%Z;
    [|discriminate].
  intros [= <-]. unfold substring.
  rewrite Nat.min_0_l, Nat.max_0_l, Nat.sub_0_r, Nat.add_1_r.
  cbn [String.substring prefix].
  destruct (ascii_dec "{" "{") as [_|Hne]; [|congruence].
  destruct (String.substring 0 _ r); reflexivity.
Qed.

Section Parsed.

Hypothesis Hparser : plainDocuments rt.

(** After the first chunk the accumulator is empty or holds a parsed
    document. *)
Lemma absorb_first (response : JValue) :
  (exists combined,
      absorb rt 0 (JObj []) response = Ret combined /\ accumulated rt combined)
  \/ exists e, absorb rt 0 (JObj []) response = Throw e.
Proof.
  pose proof (ExtractorProperties.resultResponse_not_beyond response) as Hreads.
  assert (Hempty : exists combined,
             Ret (JObj []) = Ret combined /\ accumulated rt combined)
    by (exists (JObj []); split; [reflexivity | left; reflexivity]).
  unfold absorb.
  destruct (resultResponse response) as [[v|]| |]; eauto; [|contradiction].
  destruct (truthy v); [|left; exact Hempty].
  destruct v as [| b | n | text | items | fields | slots props]; eauto.
  destruct (JSON_parse rt (ResponseText.cleanJson text)) as [parsed|] eqn:Hstrict.
  - destruct (isObjectLike parsed) eqn:Hobject; [|left; exact Hempty].
    left. exists parsed. cbn [Nat.eqb]. split; [reflexivity|].
    right. exists (ResponseText.cleanJson text). auto.
  - destruct (ResponseText.matchBraces text) as [jsonMatch|] eqn:Hmatch;
      [|left; exact Hempty].
    destruct (JSON_parse rt jsonMatch) as [parsed|] eqn:Hloose;
      [|left; exact Hempty].
    left. exists parsed. cbn [Nat.eqb]. split; [reflexivity|].
    right. exists jsonMatch. split; [assumption|].
    destruct (proj1 Hparser _ _ Hloose) as (_ & Hplain).
    specialize (Hplain (matchBraces_open text jsonMatch Hmatch)).
    destruct parsed; try discriminate; reflexivity.
Qed.

(** Into such an accumulator the response to a later chunk is merged. *)
Lemma absorb_later (i : nat) (combinedAnalysis response : JValue) :
  accumulated rt combinedAnalysis ->
  absorb rt i combinedAnalysis response <> Beyond.
Proof.
  intros Hcombined.
  pose proof (ExtractorProperties.resultResponse_not_beyond response) as Hreads.
  unfold absorb.
  destruct (resultResponse response) as [[v|]| |]; try discriminate;
    [|contradiction].
  destruct (truthy v); [|discriminate].
  destruct v as [| b | n | text | items | fields | slots props];
    try discriminate.
  destruct (JSON_parse rt (ResponseText.cleanJson text)) as [parsed|] eqn:Hstrict.
  - destruct (isObjectLike parsed) eqn:Hparsed; [|discriminate].
    destruct (i =? 0)%nat; [discriminate|].
    destruct (proj1 Hparser _ _ Hstrict) as (Hformed' & _).
    assert (Hmerge : wellFormed combinedAnalysis = true
                     /\ isObjectLike combinedAnalysis = true
                     /\ Merge.plainMerge parsed combinedAnalysis = true).
    { destruct Hcombined as [-> | (text' & Htext' & Hobject)].
      - repeat split. apply (proj1 (proj2 Hparser) _ _ Hstrict Hparsed).
      - split; [apply (proj1 Hparser _ _ Htext')|]. split; [assumption|].
        apply (proj2 (proj2 Hparser) _ _ _ _ Htext' Hstrict); assumption. }
    destruct Hmerge as (Hformed & Hobject & Hplain).
    destruct (MergeProperties.plainMerge_total parsed combinedAnalysis
                Hparsed Hformed' Hformed Hobject Hplain) as [merged Hmerged].
    unfold mergeDocuments. rewrite Hmerged. discriminate.
  - destruct (ResponseText.matchBraces text) as [jsonMatch|]; [|discriminate].
    destruct (JSON_parse rt jsonMatch); [|discriminate].
    destruct (i =? 0)%nat; discriminate.
Qed.

(** The loop over the last chunk. *)
Lemma forChunks_last (i : nat) (contentType chunk : string)
    (combinedAnalysis : JValue) (st : State rt) :
  (forall response, absorb rt i combinedAnalysis response <> Beyond) ->
  fst (forChunks rt i [chunk] contentType combinedAnalysis st) <> Beyond.
Proof.
  intros Habsorb. cbn [forChunks]. unfold bind at 1.
  unfold callCloudflareAI, throw.
  destruct (credentials rt); cbn [negb]; [|discriminate].
  destruct (fetch rt (extractionRequest contentType chunk) (world st))
    as [[message|status statusText errorText|response] w]; try discriminate.
  unfold bind, lift, ret. specialize (Habsorb response).
  destruct (absorb rt i combinedAnalysis response); [discriminate .. | congruence].
Qed.

(** The loop over at most two chunks returns or throws. *)
Lemma forChunks_two (contentType : string) (visited : list string)
    (st : State rt) :
  List.length visited <= 2 ->
  fst (forChunks rt 0 visited contentType (JObj []) st) <> Beyond.
Proof.
  destruct visited as [|first [|second [|third rest]]]; cbn [List.length];
    intros Hlength; [discriminate | | | lia].
  - apply forChunks_last. intros response.
    apply ExtractorProperties.absorb_first_not_beyond.
  - cbn [forChunks]. unfold bind at 1. unfold callCloudflareAI at 1, throw.
    destruct (credentials rt); cbn [negb]; [|discriminate].
    destruct (fetch rt (extractionRequest contentType first) (world st))
      as [[message|status statusText errorText|response] w]; try discriminate.
    unfold bind at 1. unfold lift at 1.
    destruct (absorb_first response)
      as [(combined & -> & Hcombined) | [e ->]]; [|discriminate].
    apply (forChunks_last 1 contentType second combined).
    intros response'. apply absorb_later; assumption.
Qed.

(** [analyzeTextWithAI] does not throw, and the document it returns has at
    least one key. *)
Lemma analyzeTextWithAI_outcome (text contentType : string) (st : State rt) :
  exists document st',
    analyzeTextWithAI rt text contentType st = (Ret document, st')
    /\ 0 < List.length (Object_keys document).
Proof.
  destruct (ExtractorProperties.chunksOf_returns text) as (chunks & _ & Hchunks).
  unfold analyzeTextWithAI, try_catch, bind, lift. rewrite Hchunks.
  pose proof (forChunks_two contentType
                (firstn (Nat.min (List.length chunks) 2) chunks) st) as Hloop.
  destruct (forChunks rt 0 (firstn (Nat.min (List.length chunks) 2) chunks)
                      contentType (JObj []) st)
    as [[combinedAnalysis | e |] st1].
  - destruct (0 <? List.length (Object_keys combinedAnalysis))%nat eqn:Hkeys.
    + eexists _, _; split; [reflexivity|].
      apply Nat.ltb_lt. assumption.
    + eexists _, _; split; [reflexivity|]. cbn. lia.
  - eexists _, _; split; [reflexivity|]. cbn. lia.
  - exfalso. apply Hloop; [|reflexivity].
    rewrite length_firstn. lia.
Qed.

End Parsed.

Lemma accepted_checks (inputText : string) :
  accepted inputText = true ->
  (trim inputText =? "") = false
  /\ (countWords inputText <? 5)%nat = false
  /\ (50000 <? String.length inputText)%nat = false.
Proof.
  unfold accepted. intros Haccepted.
  apply andb_true_iff in Haccepted. destruct Haccepted as [Haccepted Hlength].
  apply andb_true_iff in Haccepted. destruct Haccepted as [Hfilled Hwords].
  repeat split; apply negb_true_iff; assumption.
Qed.

(** An input that fails one of the three checks is answered at once. *)
Lemma analyzeText_rejected (inputText : string) (st : State rt) :
  accepted inputText = false ->
  exists message,
    In message Shapes.rejections
    /\ analyzeText rt inputText st = (Ret (failure message), st).
Proof.
  unfold accepted, analyzeText, try_catch, ret, Shapes.rejections.
  destruct (trim inputText =? "");
    [intros _; eexists; split; [|reflexivity]; simpl; auto|].
  destruct (countWords inputText <? 5)%nat;
    [intros _; eexists; split; [|reflexivity]; simpl; auto|].
  destruct (50000 <? String.length inputText)%nat;
    [intros _; eexists; split; [|reflexivity]; simpl; auto|].
  intros Haccepted. discriminate Haccepted.
Qed.

(** The scorer throws nothing but a [TypeError]. *)
Lemma calculateConfidence_throws (data : JValue) (originalText : string) (e : Exn) :
  Confidence.calculateConfidence data originalText = Throw e -> e = TypeError.
Proof.
  unfold Confidence.calculateConfidence, Confidence.includesFallback, member.
  destruct data as [| | | | |o|slots o]; try discriminate;
    try (intros [= <-]; reflexivity);
    (destruct (lookup "metadata" o) as [[| | | | |metadata|slots' metadata]|];
     try discriminate);
    (destruct (lookup "analysis_method" metadata) as [[| | | | | |]|];
     try discriminate; intros [= <-]; reflexivity).
Qed.

(** The scorer reads own properties only. *)
Lemma calculateConfidence_not_beyond (data : JValue) (originalText : string) :
  Confidence.calculateConfidence data originalText <> Beyond.
Proof.
  assert (Hreads : Confidence.includesFallback data <> Beyond).
  { unfold Confidence.includesFallback, member.
    destruct data as [| | | | |o|slots o]; try discriminate;
      (destruct (lookup "metadata" o) as [[| | | | |metadata|slots' metadata]|];
       try discriminate);
      (destruct (lookup "analysis_method" metadata) as [[| | | | | |]|];
       discriminate). }
  unfold Confidence.calculateConfidence.
  destruct (Confidence.includesFallback data); [discriminate .. | congruence].
Qed.

(** The steps of [analyzeText] on an accepted input, once the summary is
    there. *)
Lemma analyzeText_accepted_steps (inputText summary : string) (st st1 : State rt) :
  accepted inputText = true ->
  generateSummary rt inputText st = (Ret summary, st1) ->
  analyzeText rt inputText st
  = match analyzeTextWithAI rt inputText
            (Classifier.detectContentType inputText) st1 with
    | (Ret structuredData, st2) =>
        match Confidence.calculateConfidence structuredData inputText with
        | Ret confidence =>
            (Ret {| success := true;
                    data :=
                      Some {| structuredData := structuredData;
                              fields :=
                                FieldExtractor.extractFields structuredData "";
                              inputType := Classifier.detectContentType inputText;
                              confidence := confidence;
                              summary := summary;
                              wordCount := countWords inputText |};
                    error := None |}, st2)
        | Throw e =>
            (Ret (failure ("Analysis failed: " ++ messageOf rt e)), st2)
        | Beyond => (Beyond, st2)
        end
    | (Throw e, st2) =>
        (Ret (failure ("Analysis failed: " ++ messageOf rt e)), st2)
    | (Beyond, st2) => (Beyond, st2)
    end.
Proof.
  intros Haccepted Hsummary.
  destruct (accepted_checks inputText Haccepted) as (Hfilled & Hwords & Hlength).
  unfold analyzeText. rewrite Hfilled, Hwords, Hlength.
  unfold try_catch, bind, lift, ret. rewrite Hsummary.
  destruct (analyzeTextWithAI rt inputText
              (Classifier.detectContentType inputText) st1)
    as [[structuredData | e |] st2]; try reflexivity.
  destruct (Confidence.calculateConfidence structuredData inputText);
    reflexivity.
Qed.

End WithRuntime.

(** Whatever the service answers, and with or without credentials,
    [generateSummary] returns a string: one that has no whitespace at
    either end.  It has then sent nothing, or one request, which carries
    the first 2000 characters of the text. *)
Theorem generateSummary_returns_trimmed_summary :
  forall (rt : Runtime) (text : string) (st : State rt),
  exists summary st',
    generateSummary rt text st = (Ret summary, st')
    /\ trim summary = summary
    /\ (st' = st
        \/ credentials rt = true
           /\ sent st' = sent st ++ [summaryRequest (substring 0 2000 text)]).
Proof. exact generateSummary_outcome. Qed.

(** The documents of a list, served by [parseAmong], are plain documents
    when each of them is well formed and they merge plainly into the empty
    accumulator and into one another. *)
Lemma scripted_plainDocuments (replies : list string) (documents : list JValue) :
  forallb (fun v =>
             wellFormed v
             && implb (String.prefix "{" (stringify v)) (isPlainObject v)
             && implb (isObjectLike v)
                  (Merge.plainMerge v (JObj [])
                   && forallb (fun v' => implb (isObjectLike v')
                                           (Merge.plainMerge v v'))
                        documents))
          documents = true ->
  plainDocuments (Runtimes.scripted replies documents).
Proof.
  intros Hall. rewrite forallb_forall in Hall.
  assert (Hfound : forall text parsed,
             JSON_parse (Runtimes.scripted replies documents) text = Some parsed ->
             In parsed documents /\ stringify parsed = text).
  { intros text parsed Hparsed.
    cbn [JSON_parse Runtimes.scripted] in Hparsed.
    unfold Runtimes.parseAmong in Hparsed.
    apply find_some in Hparsed. destruct Hparsed as [Hin Htext].
    apply String.eqb_eq in Htext. auto. }
  split; [|split].
  - intros text parsed Hparsed.
    destruct (Hfound text parsed Hparsed) as [Hin <-].
    specialize (Hall parsed Hin).
    apply andb_true_iff in Hall. destruct Hall as [Hall _].
    apply andb_true_iff in Hall. destruct Hall as [Hformed Hplain].
    split; [assumption|]. intros Hopen. rewrite Hopen in Hplain. exact Hplain.
  - intros text parsed Hparsed Hobject.
    destruct (Hfound text parsed Hparsed) as [Hin _].
    specialize (Hall parsed Hin).
    apply andb_true_iff in Hall. destruct Hall as [_ Hmerges].
    rewrite Hobject in Hmerges. cbn [implb] in Hmerges.
    apply andb_true_iff in Hmerges. apply Hmerges.
  - intros text text' parsed parsed' Hparsed Hparsed' Hobject Hobject'.
    destruct (Hfound text parsed Hparsed) as [Hin _].
    destruct (Hfound text' parsed' Hparsed') as [Hin' _].
    specialize (Hall parsed' Hin').
    apply andb_true_iff in Hall. destruct Hall as [_ Hmerges].
    rewrite Hobject' in Hmerges. cbn [implb] in Hmerges.
    apply andb_true_iff in Hmerges. destruct Hmerges as [_ Hmerges].
    rewrite forallb_forall in Hmerges. specialize (Hmerges parsed Hin).
    rewrite Hobject in Hmerges. exact Hmerges.
Qed.



(** An input that fails one of the three checks of lines 353-368 is
    answered with the message of that check, and no request is sent. *)
Theorem analyzeText_rejected_input_sends_nothing :
  forall (rt : Runtime) (inputText : string) (st : State rt),
    accepted inputText = false ->
    exists message,
      In message Shapes.rejections
      /\ analyzeText rt inputText st = (Ret (failure message), st).
Proof. exact analyzeText_rejected. Qed.

Lemma analyzeText_rejected_input_sends_nothing_witness :
  accepted "only three words" = false
  /\ exists message,
       In message Shapes.rejections
       /\ analyzeText (Runtimes.scripted [] []) "only three words"
                      (start (rt := Runtimes.scripted [] []) 0)
          = (Ret (failure message), start (rt := Runtimes.scripted [] []) 0).
Proof.
  split; [reflexivity|].
  apply (analyzeText_rejected_input_sends_nothing (Runtimes.scripted [] [])).
  reflexivity.
Defined.



(** The requests of one call of [analyzeText], in the order they are sent:
    at most one for the summary, with the first 2000 characters of the
    input, then at most two for the extraction, one for each of the first
    chunks of the input, with the content type detected. *)
Theorem analyzeText_sends_at_most_three_requests :
  forall (rt : Runtime) (inputText : string) (st : State rt),
  exists (chunks : list string) (a k : nat),
    Chunker.chunkText inputText extractionChunkSize = Some chunks
    /\ a <= 1 /\ k <= 2
    /\ sent (snd (analyzeText rt inputText st))
       = sent st
         ++ firstn a [summaryRequest (substring 0 2000 inputText)]
         ++ map (extractionRequest (Classifier.detectContentType inputText))
                (firstn k chunks).
Proof.
  intros rt inputText st.
  destruct (ExtractorProperties.chunksOf_returns inputText)
    as (chunks & Hchunks & _).
  exists chunks.
  destruct (accepted inputText) eqn:Haccepted.
  - destruct (generateSummary_outcome rt inputText st)
      as (summary & st1 & Hsummary & _ & Hsent1).
    rewrite (analyzeText_accepted_steps rt inputText summary st st1
               Haccepted Hsummary).
    destruct (ExtractorProperties.analyzeTextWithAI_sent rt inputText
                (Classifier.detectContentType inputText) st1 chunks Hchunks)
      as (k & Hk & Hsent2).
    assert (Hsent : exists a, a <= 1
              /\ sent st1
                 = sent st
                   ++ firstn a [summaryRequest (substring 0 2000 inputText)]).
    { destruct Hsent1 as [-> | [_ Hsent1]].
      - exists 0. split; [lia|]. cbn. rewrite app_nil_r. reflexivity.
      - exists 1. split; [lia|]. exact Hsent1. }
    destruct Hsent as (a & Ha & Hsent).
    exists a, k. split; [assumption|]. split; [assumption|]. split; [assumption|].
    rewrite app_assoc, <- Hsent, <- Hsent2.
    destruct (analyzeTextWithAI rt inputText
                (Classifier.detectContentType inputText) st1)
      as [[document | e |] st2]; cbn [snd]; try reflexivity.
    destruct (Confidence.calculateConfidence document inputText); reflexivity.
  - destruct (analyzeText_rejected rt inputText st Haccepted)
      as (message & _ & ->).
    exists 0, 0. split; [assumption|]. split; [lia|]. split; [lia|].
    cbn. rewrite app_nil_r. reflexivity.
Qed.

End PipelineShape.

(* ================================================================== *)
(** ** The search filter of the page *)

Module PageFilter.
Import JsString Json Page.

Lemma lookup_absent (key : string) (o : Fields) :
  existsb (String.eqb key) (map fst o) = false -> lookup key o = None.
Proof.
  induction o as [|[k x] r IH]; cbn [map fst existsb lookup]; [reflexivity|].
  intros Habsent. apply orb_false_iff in Habsent. destruct Habsent as [Hk Hr].
  rewrite String.eqb_sym, Hk. apply IH. assumption.
Qed.

Lemma lookup_assign (key key' : string) (value : JValue) (filtered : Fields) :
  lookup key' (assign key value filtered)
  = if (key =? key') && negb (key =? "__proto__") then Some value
    else lookup key' filtered.
Proof.
  unfold assign. destruct (key =? "__proto__"); cbn [negb];
    [rewrite andb_false_r; reflexivity|].
  rewrite andb_true_r. destruct (key =? key') eqn:Hkey.
  - apply String.eqb_eq in Hkey. subst key'.
    apply MergeProperties.lookup_set_same.
  - apply String.eqb_neq in Hkey.
    apply MergeProperties.lookup_set_other. congruence.
Qed.

(** What the loop leaves under [key]: the value of the entry, if the entry
    matches, and else what was there before. *)
Lemma lookup_collect (searchTerm key : string) (entries : Fields) :
  distinct (map fst entries) = true ->
  forall filtered : Fields,
    lookup key (collect searchTerm entries filtered)
    = match lookup key entries with
      | Some value =>
          if matchesSearch searchTerm key value && negb (key =? "__proto__")
          then Some value else lookup key filtered
      | None => lookup key filtered
      end.
Proof.
  induction entries as [|[k v] rest IH]; intros Hdistinct filtered;
    [reflexivity|].
  cbn [map fst distinct] in Hdistinct.
  apply andb_true_iff in Hdistinct. destruct Hdistinct as [Hfresh Hrest].
  apply negb_true_iff in Hfresh.
  cbn [collect lookup]. rewrite (IH Hrest).
  destruct (k =? key) eqn:Hk.
  - apply String.eqb_eq in Hk. subst k.
    rewrite (lookup_absent key rest Hfresh).
    destruct (matchesSearch searchTerm key v); cbn [andb]; [|reflexivity].
    rewrite lookup_assign, String.eqb_refl. reflexivity.
  - assert (Hsame : lookup key
                      (if matchesSearch searchTerm k v
                       then assign k v filtered else filtered)
                    = lookup key filtered).
    { destruct (matchesSearch searchTerm k v); [|reflexivity].
      rewrite lookup_assign, Hk. reflexivity. }
    rewrite Hsame. reflexivity.
Qed.

Lemma toLowerCase_empty (s : string) :
  (toLowerCase s =? "") = (s =? "").
Proof. destruct s; reflexivity. Qed.

(** With a search term, the object shown has exactly the entries of the
    data that match: under each key the value the data has there, if the
    key or the serialized value contains the term, and nothing otherwise.
    The key [__proto__] is never shown. *)
Theorem filteredData_shows_matching_entries :
  forall (searchTerm : string) (fields : Fields),
    searchTerm <> "" ->
    distinct (keys fields) = true ->
    exists shown,
      filteredData searchTerm (JObj fields) = JObj shown
      /\ forall key,
           lookup key shown
           = match lookup key fields with
             | Some value =>
                 if matchesSearch searchTerm key value
                    && negb (key =? "__proto__")
                 then Some value else None
             | None => None
             end.
Proof.
  intros searchTerm fields Hterm Hdistinct.
  apply String.eqb_neq in Hterm.
  unfold filteredData. rewrite Hterm. cbn [Object_entries].
  eexists; split; [reflexivity|]. intros key.
  rewrite (lookup_collect searchTerm key fields Hdistinct []).
  reflexivity.
Qed.

Lemma filteredData_shows_matching_entries_witness :
  exists shown,
    filteredData "REPORT" (JObj MoreSamples.searchable) = JObj shown
    /\ lookup "Title" shown = Some (JStr "Quarterly Report")
    /\ lookup "author" shown = None.
Proof.
  destruct (filteredData_shows_matching_entries "REPORT" MoreSamples.searchable
              ltac:(discriminate) eq_refl) as (shown & Hshown & Hlookup).
  exists shown. split; [exact Hshown|].
  split; rewrite Hlookup; reflexivity.
Defined.

(** The filter does not tell upper case from lower case in the search
    term: two terms with the same lower-case form show the same object. *)
Theorem filteredData_ignores_case_of_term :
  forall (searchTerm searchTerm' : string) (data : JValue),
    toLowerCase searchTerm = toLowerCase searchTerm' ->
    filteredData searchTerm data = filteredData searchTerm' data.
Proof.
  intros searchTerm searchTerm' data Hlower.
  unfold filteredData.
  rewrite <- (toLowerCase_empty searchTerm), <- (toLowerCase_empty searchTerm').
  rewrite Hlower. destruct (toLowerCase searchTerm' =? ""); [reflexivity|].
  f_equal. generalize (@nil (string * JValue)).
  induction (Object_entries data) as [|[k v] rest IH]; intros filtered;
    [reflexivity|].
  cbn [collect]. unfold matchesSearch. rewrite Hlower. apply IH.
Qed.

Lemma filteredData_ignores_case_of_term_witness :
  filteredData "REPORT" (JObj MoreSamples.searchable)
  = filteredData "report" (JObj MoreSamples.searchable).
Proof.
  apply (filteredData_ignores_case_of_term "REPORT" "report"). reflexivity.
Defined.

End PageFilter.
